(** * electron-fetch: request construction, header defaulting, redirect
    handling and content decoding

    A shallow embedding of [src/request.js] (the [Request] constructor and
    [getNodeRequestOptions]) and of [src/index.js] ([fetch]: the promise
    executor and the handlers it installs on the transport request, in the
    revision that selects the transport by [request.useElectronNet]), with the
    properties stated about them.  Further parts follow them: [clone] of a
    request, [FetchError] with the code it derives from the message, the
    executor of the latest revision of [index.js] with its abort signal and
    proxy login, and the bundle plugin [tweakDefault].

    Conventions.
    - JavaScript strings are byte strings ([String.string]); methods, header
      names and encoding tokens are ASCII in every place the code inspects
      them.
    - JavaScript numbers that the code only compares and increments
      (status codes, [follow], [counter], [timeout], byte lengths) are [Z].
    - [Headers] instances are heap objects: a [Request] holds a reference into
      a store of header maps, so that mutation in place and copying can be
      told apart.  A [Request] itself is a record; where the code assigns one
      of its properties, the updated record is passed on.
    - Exceptions are results ([Throw]); a promise is the first settlement it
      receives; the events of one transport request are delivered one per turn
      of the event loop, in the order given.
    - [headers.js] and [body.js] are not among the sources: the parts of
      [Headers] and [Body] that the embedded code calls are modelled from the
      specification and marked as such.
    - Node's [url] module ([parse], [format], [resolve]),
      [process.versions.electron] and the transport are parameters. *)

From Stdlib Require Import ZArith String Ascii List Bool Lia DecimalString.
From stdpp Require Import base option list gmap strings.

Local Open Scope string_scope.
Local Open Scope Z_scope.

(** [a === b] on strings. *)
Infix "=s?" := String.eqb (at level 70).

(** ** JavaScript string helpers *)

Module JS.

Definition upper_ascii (c : ascii) : ascii :=
  let n := nat_of_ascii c in
  if ((97 <=? n) && (n <=? 122))%nat then ascii_of_nat (n - 32) else c.

Definition lower_ascii (c : ascii) : ascii :=
  let n := nat_of_ascii c in
  if ((65 <=? n) && (n <=? 90))%nat then ascii_of_nat (n + 32) else c.

(** [s.toUpperCase()], on ASCII. *)
Fixpoint toUpperCase (s : string) : string :=
  match s with
  | EmptyString => EmptyString
  | String c r => String (upper_ascii c) (toUpperCase r)
  end.

(** [s.toLowerCase()], on ASCII. *)
Fixpoint toLowerCase (s : string) : string :=
  match s with
  | EmptyString => EmptyString
  | String c r => String (lower_ascii c) (toLowerCase r)
  end.

(** Truthiness of a string value: only the empty string is falsy. *)
Definition truthy_str (s : string) : bool := negb (s =s? "").

(** Truthiness of a possibly [undefined]/[null] string. *)
Definition truthy_ostr (o : option string) : bool :=
  match o with Some s => truthy_str s | None => false end.

(** Truthiness of a possibly [undefined] number: [0] is falsy. *)
Definition truthy_onum (o : option Z) : bool :=
  match o with Some n => negb (n =? 0)%Z | None => false end.

(** [a || b] on possibly [undefined] strings. *)
Definition or_ostr (a b : option string) : option string :=
  if truthy_ostr a then a else b.

(** [a || b] on possibly [undefined] numbers. *)
Definition or_onum (a b : option Z) : option Z :=
  if truthy_onum a then a else b.

(** [String(n)] for an integer [n]. *)
Definition String_of_number (n : Z) : string :=
  NilZero.string_of_int (Z.to_int n).

(** [list.join(',')]. *)
Definition join_comma (l : list string) : string := String.concat "," l.

End JS.

(** ** Exceptions and the object store *)

Inductive Exn :=
| TypeError (msg : string)
| Error (msg : string).

Inductive Completion (A : Type) :=
| Normal (a : A)
| Throw (e : Exn).
Arguments Normal {A} a.
Arguments Throw {A} e.

(** A [Headers] object's private map: normalized (lower-cased) name to the
    ordered list of its values. *)
Abbreviation HeaderMap := (gmap string (list string)).

(** References to [Headers] objects are allocation indices into the store. *)
Definition ref := nat.
Abbreviation Store := (list HeaderMap).

(** Computations that may allocate or mutate [Headers] objects and may throw.
    A thrown exception keeps the store as it was when it was thrown. *)
Definition M (A : Type) : Type := Store -> Completion A * Store.

Definition ret {A} (a : A) : M A := fun st => (Normal a, st).
Definition throw {A} (e : Exn) : M A := fun st => (Throw e, st).
Definition bind {A B} (m : M A) (k : A -> M B) : M B :=
  fun st => match m st with
            | (Normal a, st') => k a st'
            | (Throw e, st') => (Throw e, st')
            end.

Notation "'let!' x ':=' m 'in' k" := (bind m (fun x => k))
  (at level 10, x name, m at level 100, k at level 200).
Notation "'do!' m 'in' k" := (bind m (fun _ => k))
  (at level 10, m at level 100, k at level 200).

(** ** Headers *)

Module Headers.

(** Modelled from the spec: the token grammar for header names ([headers.js]
    is not among the sources).  A name is a non-empty sequence of RFC 7230
    token characters: no control characters, no separators, no non-ASCII. *)
Definition isTokenChar (c : ascii) : bool :=
  let n := nat_of_ascii c in
  ((48 <=? n) && (n <=? 57) || (65 <=? n) && (n <=? 90) ||
   (97 <=? n) && (n <=? 122) ||
   existsb (Nat.eqb n) [33; 35; 36; 37; 38; 39; 42; 43; 45; 46; 94; 95; 96; 124; 126])%nat.

Fixpoint allChars (p : ascii -> bool) (s : string) : bool :=
  match s with
  | EmptyString => true
  | String c r => p c && allChars p r
  end.

(** Modelled from the spec: a valid header name ([headers.js] is missing) is
    a non-empty token. *)
Definition validName (n : string) : bool :=
  negb (n =s? "") && allChars isTokenChar n.

(** Modelled from the spec: values are accepted permissively (spaces
    allowed) but must not contain control bytes. *)
Definition validValueChar (c : ascii) : bool :=
  let n := nat_of_ascii c in
  ((n =? 9) || (32 <=? n) && negb (n =? 127))%nat.

(** Modelled from the spec: a valid header value ([headers.js] is missing). *)
Definition validValue (v : string) : bool := allChars validValueChar v.

(** Modelled from the spec: the normalized (case-folded) name under which a
    header is stored ([headers.js] is missing). *)
Definition sanitizeName (n : string) : string := JS.toLowerCase n.

(** *** Operations on the private map.
    They work by normalized name.  The container rejects a name that fails the
    token grammar.  The code embedded below calls these operations with
    literal names, which pass the grammar ([literal_names_are_tokens]), and
    with the names of a response's headers, which come out of the transport's
    parser; the operations are therefore total here, and the grammar is
    enforced where a caller's initializer comes in, in [new]. *)

(** Modelled from the spec: [headers.has(name)] ([headers.js] is missing). *)
Definition has (m : HeaderMap) (name : string) : bool :=
  bool_decide (is_Some (m !! sanitizeName name)).

(** Modelled from the spec: [headers.get(name)] ([headers.js] is missing):
    all values of the name joined by [,], or [null]. *)
Definition get (m : HeaderMap) (name : string) : option string :=
  JS.join_comma <$> m !! sanitizeName name.

(** Modelled from the spec: [headers.set(name, value)] ([headers.js] is
    missing) replaces all prior values. *)
Definition set (m : HeaderMap) (name value : string) : HeaderMap :=
  <[sanitizeName name := [value]]> m.

(** Modelled from the spec: [headers.append(name, value)] ([headers.js] is
    missing) adds a value after the prior ones. *)
Definition append (m : HeaderMap) (name value : string) : HeaderMap :=
  <[sanitizeName name := (default [] (m !! sanitizeName name) ++ [value])%list]> m.

(** Modelled from the spec: [headers.delete(name)] ([headers.js] is
    missing). *)
Definition delete (m : HeaderMap) (name : string) : HeaderMap :=
  base.delete (sanitizeName name) m.

(** *** Operations on [Headers] objects in the store. *)

Definition deref (st : Store) (h : ref) : HeaderMap := default ∅ (st !! h).

Definition read (h : ref) : M HeaderMap := fun st => (Normal (deref st h), st).

Definition update (h : ref) (f : HeaderMap -> HeaderMap) : M unit :=
  fun st => (Normal tt, <[h := f (deref st h)]> st).

(** Allocation of a new object: it gets the next free index. *)
Definition alloc (m : HeaderMap) : M ref :=
  fun st => (Normal (length st), (st ++ [m])%list).

(** Modelled from the spec: the shapes accepted by [new Headers(init)]
    ([headers.js] is missing). *)
Inductive Init :=
| FromHeaders (h : ref)                      (* another Headers instance *)
| FromRecord (kvs : list (string * string))  (* plain object, own properties *)
| FromPairs (kvs : list (string * string))   (* iterable of 2-tuples *)
| Malformed.                                 (* anything else *)

(** Modelled from the spec: the entries of an initializer are appended in
    order, each name and value checked ([headers.js] is missing). *)
Fixpoint appendAll (kvs : list (string * string)) (m : HeaderMap)
  : Completion HeaderMap :=
  match kvs with
  | [] => Normal m
  | (k, v) :: r =>
      if validName k && validValue v then appendAll r (append m k v)
      else Throw (TypeError "invalid header")
  end.

(** Modelled from the spec: [new Headers(init)] ([headers.js] is missing).
    Another [Headers] instance is copied by value into a fresh object (never
    aliased); a record or a sequence of pairs is appended entry by entry; a
    name that fails the token grammar, or an initializer of another shape, is
    a type error. *)
Definition new (init : Init) : M ref :=
  match init with
  | FromHeaders h => let! m := read h in alloc m
  | FromRecord kvs | FromPairs kvs =>
      match appendAll kvs ∅ with
      | Normal m => alloc m
      | Throw e => throw e
      end
  | Malformed => throw (TypeError "invalid header initializer")
  end.

End Headers.

(** ** Bodies *)

(** Modelled from the spec: a stream is known by its identity alone.  It is
    one the caller made, an opaque handle, or one of the two streams of a tee:
    [clone] feeds two new streams from the stream it is given, the first of
    which becomes the body of the instance and the second the body handed
    out. *)
Inductive Stream :=
| Source (handle : nat)
| Branch (second : bool) (upstream : Stream).

(** Modelled from the spec: the body of a request is a tagged union
    ([body.js] is not among the sources).  A multipart form carries its
    boundary and, when every part is already materialized, its total
    length. *)
Inductive Body :=
| BText (s : string)
| BBuffer (bytes : string)
| BBlob (bytes : string) (type : string)
| BStream (s : Stream)
| BForm (boundary : string) (knownLength : option Z).

(** Modelled from the spec: the declared byte length of a body, when it is
    statically known (string, buffer, blob, materialized multipart); a stream
    has none. *)
Definition getTotalBytes (b : Body) : option Z :=
  match b with
  | BText s => Some (Z.of_nat (String.length s))
  | BBuffer bytes => Some (Z.of_nat (String.length bytes))
  | BBlob bytes _ => Some (Z.of_nat (String.length bytes))
  | BStream _ => None
  | BForm _ len => len
  end.

(** Modelled from the spec: the default [Content-Type] of a body, by tag.
    The multipart case follows the repository's tests, which expect
    [multipart/form-data;boundary=...]. *)
Definition extractContentType (b : Body) : option string :=
  match b with
  | BText _ => Some "text/plain;charset=UTF-8"
  | BBlob _ type => if JS.truthy_str type then Some type else None
  | BBuffer _ | BStream _ => None
  | BForm boundary _ => Some ("multipart/form-data;boundary=" ++ boundary)
  end.

(** ** Requests *)

(** The object returned by Node's [url.parse]; absent parts are [null]. *)
Record ParsedURL := mkParsedURL {
  protocol : option string;
  hostname : option string;
  port : option string;
  path : option string;
  href : string
}.

Record Request := mkRequest {
  parsedURL : ParsedURL;          (* this[PARSED_URL] *)
  method : string;
  redirect : string;
  headers : ref;
  body : option Body;             (* null, or the body *)
  bodyUsed : bool;
  timeout : Z;
  size : Z;
  chunkedEncoding : bool;
  useElectronNet : bool;
  follow : Z;
  counter : Z;
  session : option string
}.

(** The options object given to the constructor; an absent property is
    [None]. *)
Record RequestInit := mkInit {
  init_method : option string;
  init_body : option Body;
  init_timeout : option Z;
  init_size : option Z;
  init_redirect : option string;
  init_headers : option Headers.Init;
  init_useElectronNet : option bool;
  init_follow : option Z;
  init_counter : option Z;
  init_session : option string;
  init_compress : option bool     (* a [compress] property, should the caller set one *)
}.

Definition emptyInit : RequestInit :=
  mkInit None None None None None None None None None None None.

(** A [Request] instance used as the options object, as [fetch] does when it
    follows a redirect: the constructor reads the same property names off
    it. *)
Definition as_init (r : Request) : RequestInit :=
  {| init_method := Some (method r);
     init_body := body r;
     init_timeout := Some (timeout r);
     init_size := Some (size r);
     init_redirect := Some (redirect r);
     init_headers := Some (Headers.FromHeaders (headers r));
     init_useElectronNet := Some (useElectronNet r);
     init_follow := Some (follow r);
     init_counter := Some (counter r);
     init_session := session r;
     init_compress := None |}.

(** The first argument of the constructor: a URL (a string, or an object with
    an [href]) or another [Request]. *)
Inductive Input :=
| InputURL (u : string)
| InputRequest (r : Request).

(** The transport call options built by [getNodeRequestOptions]. *)
Record NodeRequestOptions := mkOptions {
  opt_url : ParsedURL;
  opt_method : string;
  opt_headers : HeaderMap      (* headers.raw() *)
}.

Definition set_chunkedEncoding (r : Request) (b : bool) : Request :=
  mkRequest (parsedURL r) (method r) (redirect r) (headers r) (body r)
    (bodyUsed r) (timeout r) (size r) b (useElectronNet r) (follow r)
    (counter r) (session r).

Definition set_method (r : Request) (m : string) : Request :=
  mkRequest (parsedURL r) m (redirect r) (headers r) (body r)
    (bodyUsed r) (timeout r) (size r) (chunkedEncoding r) (useElectronNet r)
    (follow r) (counter r) (session r).

Definition set_body (r : Request) (b : option Body) : Request :=
  mkRequest (parsedURL r) (method r) (redirect r) (headers r) b
    (bodyUsed r) (timeout r) (size r) (chunkedEncoding r) (useElectronNet r)
    (follow r) (counter r) (session r).

Definition set_counter (r : Request) (c : Z) : Request :=
  mkRequest (parsedURL r) (method r) (redirect r) (headers r) (body r)
    (bodyUsed r) (timeout r) (size r) (chunkedEncoding r) (useElectronNet r)
    (follow r) c (session r).

(** Modelled from the spec: one side of the tee that [clone] makes of a body.
    A stream is replaced by a new stream fed by it; every other body is a value
    and stays what it is. *)
Definition teeBranch (second : bool) (b : Body) : Body :=
  match b with
  | BStream s => BStream (Branch second s)
  | _ => b
  end.

(** Modelled from the spec: [clone(instance)] of [body.js] fails once the body
    has been used.  Of an unconsumed stream it makes a tee, and hands out the
    second of the two streams; the first becomes the body of the instance,
    which is the request [teed] below.  Any other body is handed out as it
    is. *)
Definition clone (r : Request) : M (option Body) :=
  if bodyUsed r then throw (Error "cannot clone body after it is used")
  else ret (teeBranch true <$> body r).

(** Modelled from the spec: the instance as [clone(instance)] leaves it. *)
Definition teed (r : Request) : Request :=
  set_body r (teeBranch false <$> body r).

(** [/^(POST|PUT)$/i.test(m)] *)
Definition is_POST_or_PUT (m : string) : bool :=
  let u := JS.toUpperCase m in (u =s? "POST") || (u =s? "PUT").

(** [/^https?:$/.test(p)] *)
Definition is_http_protocol (p : string) : bool :=
  (p =s? "http:") || (p =s? "https:").

Definition userAgent (electronNet : bool) : string :=
  "electron-fetch/1.0 " ++ (if electronNet then "electron" else "node") ++
  " (+https://github.com/arantes555/electron-fetch)".

Section Request.

(** Node's [url.parse] and [url.format], and [process.versions.electron]. *)
Variable parseURL : string -> ParsedURL.
Variable formatURL : ParsedURL -> string.
Variable onElectron : bool.

(** [get url ()] *)
Definition url (r : Request) : string := formatURL (parsedURL r).

(** The method the constructor works with: [init.method || input.method ||
    'GET'], as supplied, before upper-casing. *)
Definition suppliedMethod (input : Input) (init : RequestInit) : string :=
  let inputMethod :=
    match input with InputRequest r => Some (method r) | InputURL _ => None end in
  default "GET" (JS.or_ostr (JS.or_ostr (init_method init) inputMethod) (Some "GET")).

(** [init.body != null || (input instanceof Request && input.body !== null)] *)
Definition suppliesBody (input : Input) (init : RequestInit) : bool :=
  bool_decide (is_Some (init_body init)) ||
  match input with
  | InputRequest r => bool_decide (is_Some (body r))
  | InputURL _ => false
  end.

(** [init.headers || input.headers || {}] *)
Definition headersInit (input : Input) (init : RequestInit) : Headers.Init :=
  match init_headers init, input with
  | Some hi, _ => hi
  | None, InputRequest r => Headers.FromHeaders (headers r)
  | None, InputURL _ => Headers.FromRecord []
  end.

(** [init.useElectronNet !== undefined ? init.useElectronNet :
    input.useElectronNet] *)
Definition requestedElectronNet (input : Input) (init : RequestInit) : option bool :=
  match init_useElectronNet init, input with
  | Some b, _ => Some b
  | None, InputRequest r => Some (useElectronNet r)
  | None, InputURL _ => None
  end.

(** [new Request(input, init)] *)
Definition Request_new (input : Input) (init : RequestInit) : M Request :=
  let parsed :=
    match input with
    | InputURL u => parseURL u
    | InputRequest r => parseURL (url r)
    end in
  let method0 := suppliedMethod input init in
  if suppliesBody input init && ((method0 =s? "GET") || (method0 =s? "HEAD"))
  then throw (TypeError "Request with GET/HEAD method cannot have body")
  else
    let! inputBody :=
      match init_body init, input with
      | Some b, _ => ret (Some b)
      | None, InputRequest r =>
          (* clone(input): of a stream, the source keeps the other side of the tee *)
          match body r with Some _ => clone r | None => ret None end
      | None, InputURL _ => ret None
      end in
    let inputOf {A} (f : Request -> A) : option A :=
      match input with InputRequest r => Some (f r) | InputURL _ => None end in
    let timeout0 :=
      default 0 (JS.or_onum (JS.or_onum (init_timeout init) (inputOf timeout)) (Some 0)) in
    let size0 :=
      default 0 (JS.or_onum (JS.or_onum (init_size init) (inputOf size)) (Some 0)) in
    let redirect0 :=
      default "follow"
        (JS.or_ostr (JS.or_ostr (init_redirect init) (inputOf redirect)) (Some "follow")) in
    let! h := Headers.new (headersInit input init) in
    let useNet := requestedElectronNet input init in
    if default false useNet && negb onElectron
    then throw (Error "Cannot use Electron/net module on Node.js!")
    else
      let useNet := default onElectron useNet in
      do! match init_body init with
          | Some _ =>
              match inputBody ≫= extractContentType with
              | Some contentType =>
                  let! m := Headers.read h in
                  if negb (Headers.has m "Content-Type")
                  then Headers.update h (fun m => Headers.append m "Content-Type" contentType)
                  else ret tt
              | None => ret tt
              end
          | None => ret tt
          end in
      let follow0 :=
        match init_follow init, inputOf follow with
        | Some f, _ => f
        | None, Some f => f
        | None, None => 20
        end in
      let counter0 :=
        default 0 (JS.or_onum (JS.or_onum (init_counter init) (inputOf counter)) (Some 0)) in
      let session0 :=
        JS.or_ostr (init_session init) (inputOf session ≫= id) in
      ret {| parsedURL := parsed;
             method := JS.toUpperCase method0;
             redirect := redirect0;
             headers := h;
             body := inputBody;
             bodyUsed := false;
             timeout := timeout0;
             size := size0;
             chunkedEncoding := false;
             useElectronNet := useNet;
             follow := follow0;
             counter := counter0;
             session := session0 |}.

(** The local [contentLengthValue] of [getNodeRequestOptions]. *)
Definition contentLengthValue (request : Request) : option string :=
  let contentLengthValue : option string := None in
  let contentLengthValue :=
    if bool_decide (body request = None) && is_POST_or_PUT (method request)
    then Some "0" else contentLengthValue in
  match body request with
  | Some b =>
      match getTotalBytes b with
      | Some totalBytes => Some (JS.String_of_number totalBytes)
      | None => contentLengthValue
      end
  | None => contentLengthValue
  end.

(** [getNodeRequestOptions(request)].  The function assigns
    [request.chunkedEncoding]; the request it leaves behind is returned next to
    the options. *)
Definition getNodeRequestOptions (request : Request)
  : M (NodeRequestOptions * Request) :=
  let parsed := parsedURL request in
  let! headers := Headers.new (Headers.FromHeaders (headers request)) in
  (* fetch step 3 *)
  let! m := Headers.read headers in
  do! (if negb (Headers.has m "Accept")
       then Headers.update headers (fun m => Headers.set m "Accept" "*/*")
       else ret tt) in
  (* Basic fetch *)
  if negb (JS.truthy_ostr (protocol parsed)) || negb (JS.truthy_ostr (hostname parsed))
  then throw (TypeError "Only absolute URLs are supported")
  else if negb (is_http_protocol (default "" (protocol parsed)))
  then throw (TypeError "Only HTTP(S) protocols are supported")
  else
    (* HTTP-network-or-cache fetch steps 5-9 *)
    let! request' :=
      if JS.truthy_ostr (contentLengthValue request)
      then do! Headers.update headers
                 (fun m => Headers.set m "Content-Length"
                             (default "" (contentLengthValue request))) in
           ret request
      else ret (set_chunkedEncoding request true) in
    (* HTTP-network-or-cache fetch step 12 *)
    let! m := Headers.read headers in
    do! (if negb (Headers.has m "User-Agent")
         then Headers.update headers
                (fun m => Headers.set m "User-Agent" (userAgent (useElectronNet request)))
         else ret tt) in
    (* HTTP-network-or-cache fetch step 16 *)
    do! Headers.update headers (fun m => Headers.set m "Accept-Encoding" "gzip,deflate") in
    let! m := Headers.read headers in
    do! (if negb (Headers.has m "Connection")
         then Headers.update headers (fun m => Headers.set m "Connection" "close")
         else ret tt) in
    let! raw := Headers.read headers in
    ret ({| opt_url := parsed; opt_method := method request; opt_headers := raw |},
         request').

End Request.

(** ** The response handler of [fetch] *)

(** [FetchError(message, type)]: the operational errors a fetch rejects
    with.  The [code]/[errno] copied from a system error are not part of the
    model. *)
Record FetchError := mkFetchError {
  fe_message : string;
  fe_type : string
}.

(** A value of the transport's [res.headers] object: Node's [http] delivers a
    string (an array for [set-cookie]), Electron's [net] delivers arrays. *)
Inductive RawHeader :=
| RawString (s : string)
| RawArray (l : list string).

(** Truthiness of a property that may be missing: [undefined] and the empty
    string are falsy, every array is truthy. *)
Definition truthy_raw (o : option RawHeader) : bool :=
  match o with
  | None => false
  | Some (RawString s) => JS.truthy_str s
  | Some (RawArray _) => true
  end.

(** The transport's response object: status line, header object (own keys in
    enumeration order) and the chunks its body stream will deliver. *)
Record IncomingMessage := mkIncoming {
  statusCode : Z;
  statusMessage : string;
  rawHeaders : list (string * RawHeader);
  chunks : list string
}.

(** [res.headers[name]] *)
Fixpoint rawHeader (hs : list (string * RawHeader)) (name : string)
  : option RawHeader :=
  match hs with
  | [] => None
  | (k, v) :: r => if k =s? name then Some v else rawHeader r name
  end.

(** The transform the response body is piped through. *)
Inductive Decoder :=
| PassThrough        (* the bytes as received *)
| Gunzip             (* zlib.createGunzip *)
| Inflate            (* zlib.createInflate: zlib-wrapped deflate *)
| InflateRaw.        (* zlib.createInflateRaw: raw deflate *)

Record Response := mkResponse {
  resp_url : string;
  resp_status : Z;
  resp_statusText : string;
  resp_headers : ref;
  resp_size : Z;
  resp_timeout : Z;
  resp_useElectronNet : bool;
  resp_source : list string;   (* the chunks piped from the transport *)
  resp_decoder : Decoder
}.

(** [responseOptions], with the headers it refers to. *)
Record ResponseOptions := mkResponseOptions {
  ro_url : string;
  ro_status : Z;
  ro_statusText : string;
  ro_headers : ref;
  ro_size : Z;
  ro_timeout : Z;
  ro_useElectronNet : bool
}.

(** [new Response(body, responseOptions)] *)
Definition Response_new (source : list string) (d : Decoder) (o : ResponseOptions)
  : Response :=
  mkResponse (ro_url o) (ro_status o) (ro_statusText o) (ro_headers o)
    (ro_size o) (ro_timeout o) (ro_useElectronNet o) source d.

(** What the ['response'] handler does with the promise. *)
Inductive Reaction :=
| Reject (e : FetchError)                          (* reject(new FetchError(...)) *)
| Redirect (next : string) (request : Request)     (* resolve(fetch(next, request)) *)
| Resolve (response : Response)                    (* resolve(new Response(...)) *)
| AwaitFirstChunk (source : list string) (o : ResponseOptions).
                                                   (* raw.once('data', ...) *)

(** [fetch.isRedirect] *)
Definition isRedirect (code : Z) : bool :=
  (code =? 301) || (code =? 302) || (code =? 303) || (code =? 307) || (code =? 308).

(** [(chunk[0] & 0x0F) === 0x08]; an empty chunk has no first byte and
    [undefined & 0x0F] is [0]. *)
Definition looksZlibWrapped (chunk : string) : bool :=
  match chunk with
  | EmptyString => false
  | String c _ => Z.land (Z.of_nat (nat_of_ascii c)) 15 =? 8
  end.

Section Fetch.

Variable parseURL : string -> ParsedURL.
Variable formatURL : ParsedURL -> string.
Variable onElectron : bool.

(** Node's [url.resolve(from, to)], applied to the header value the handler
    passes as [to]. *)
Variable resolveURL : string -> RawHeader -> string.

Local Abbreviation url := (url formatURL).

(** The redirect branch's method rewrite: [res.statusCode === 303 ||
    ((res.statusCode === 301 || res.statusCode === 302) &&
    request.method === 'POST')]. *)
Definition rewritesToGET (code : Z) (m : string) : bool :=
  (code =? 303) || (((code =? 301) || (code =? 302)) && (m =s? "POST")).

(** Appending every entry of [res.headers] to a new [Headers]. *)
Definition normalizeHeaders (hs : list (string * RawHeader)) : HeaderMap :=
  fold_left
    (fun m '(name, v) =>
       match v with
       | RawArray l => fold_left (fun m val => Headers.append m name val) l m
       | RawString s => Headers.append m name s
       end)
    hs ∅.

(** The content codings branch, on the value of [headers.get('Content-Encoding')]. *)
Definition decodes (request : Request) (res : IncomingMessage)
    (codings : option string) : bool :=
  negb (useElectronNet request) && negb (method request =s? "HEAD") &&
  bool_decide (is_Some codings) &&
  negb (statusCode res =? 204) && negb (statusCode res =? 304).

(** [req.on('response', res => ...)] *)
Definition onResponse (request : Request) (res : IncomingMessage) : M Reaction :=
  (* handle redirect *)
  if isRedirect (statusCode res) && negb (redirect request =s? "manual") then
    if redirect request =s? "error" then
      ret (Reject (mkFetchError ("redirect mode is set to error: " ++ url request)
                     "no-redirect"))
    else if counter request >=? follow request then
      ret (Reject (mkFetchError ("maximum redirect reached at: " ++ url request)
                     "max-redirect"))
    else if negb (truthy_raw (rawHeader (rawHeaders res) "location")) then
      ret (Reject (mkFetchError ("redirect location header missing at: " ++ url request)
                     "invalid-redirect"))
    else
      let! request :=
        if rewritesToGET (statusCode res) (method request) then
          do! Headers.update (headers request)
                (fun m => Headers.delete m "content-length") in
          ret (set_body (set_method request "GET") None)
        else ret request in
      let request := set_counter request (counter request + 1) in
      ret (Redirect
             (resolveURL (url request)
                (default (RawString "") (rawHeader (rawHeaders res) "location")))
             request)
  else
    (* normalize location header for manual redirect mode *)
    let! headers := Headers.alloc (normalizeHeaders (rawHeaders res)) in
    let! m := Headers.read headers in
    do! (if (redirect request =s? "manual") && Headers.has m "location" then
           Headers.update headers
             (fun m => Headers.set m "location"
                (resolveURL (url request)
                   (RawString (default "" (Headers.get m "location")))))
         else ret tt) in
    (* prepare response *)
    let responseOptions :=
      {| ro_url := url request;
         ro_status := statusCode res;
         ro_statusText := statusMessage res;
         ro_headers := headers;
         ro_size := size request;
         ro_timeout := timeout request;
         ro_useElectronNet := useElectronNet request |} in
    (* HTTP-network fetch step 16.1.2 *)
    let! m := Headers.read headers in
    let codings := Headers.get m "Content-Encoding" in
    (* HTTP-network fetch step 16.1.3: handle content codings *)
    if decodes request res codings then
      let c := default "" codings in
      if (c =s? "gzip") || (c =s? "x-gzip") then
        ret (Resolve (Response_new (chunks res) Gunzip responseOptions))
      else if (c =s? "deflate") || (c =s? "x-deflate") then
        ret (AwaitFirstChunk (chunks res) responseOptions)
      else
        ret (Resolve (Response_new (chunks res) PassThrough responseOptions))
    else
      ret (Resolve (Response_new (chunks res) PassThrough responseOptions)).

(** [raw.once('data', chunk => ...)] *)
Definition onFirstChunk (source : list string) (o : ResponseOptions)
    (chunk : string) : Response :=
  if looksZlibWrapped chunk then Response_new source Inflate o
  else Response_new source InflateRaw o.

(** *** One exchange: the promise, the timer and the transport's events *)

(** How the promise returned by [fetch] has been settled. *)
Inductive Settlement :=
| Rejected (e : FetchError)
| Fulfilled (r : Response)
| Following (next : string) (request : Request).   (* resolved with fetch(next, request) *)

(** The variables the handlers of one exchange close over. *)
Record Exchange := mkExchange {
  ex_request : Request;
  ex_timer : bool;             (* reqTimeout is armed and has not fired *)
  ex_aborted : bool;           (* req.abort() has been called *)
  ex_promise : option Settlement;
  ex_raw : option (list string * ResponseOptions)
                               (* the listener left by raw.once('data', ...) *)
}.

(** The events the transport request and the timer can deliver. *)
Inductive Event :=
| TimerFired
| TransportError (message : string)
| ResponseReceived (res : IncomingMessage)
| RawData (chunk : string).

(** [resolve]/[reject]: only the first call settles the promise. *)
Definition settle (s : Settlement) (x : Exchange) : Exchange :=
  match ex_promise x with
  | None => mkExchange (ex_request x) (ex_timer x) (ex_aborted x) (Some s) (ex_raw x)
  | Some _ => x
  end.

(** [clearTimeout(reqTimeout)] *)
Definition clearTimer (x : Exchange) : Exchange :=
  mkExchange (ex_request x) false (ex_aborted x) (ex_promise x) (ex_raw x).

(** The state once [send(options)] has returned and the timer is set:
    [if (request.timeout) reqTimeout = setTimeout(...)]. *)
Definition start (request : Request) : Exchange :=
  mkExchange request (negb (timeout request =? 0)) false None None.

Definition timeoutError (request : Request) : FetchError :=
  mkFetchError ("network timeout at: " ++ url request) "request-timeout".

Definition systemError (request : Request) (message : string) : FetchError :=
  mkFetchError ("request to " ++ url request ++ " failed, reason: " ++ message) "system".

(** The timer's callback: [req.abort(); reject(...)].  A timer fires once. *)
Definition onTimeout (x : Exchange) : Exchange :=
  settle (Rejected (timeoutError (ex_request x)))
    (mkExchange (ex_request x) false true (ex_promise x) (ex_raw x)).

(** [req.on('error', err => ...)] *)
Definition onError (message : string) (x : Exchange) : Exchange :=
  settle (Rejected (systemError (ex_request x) message)) (clearTimer x).

(** [req.on('response', res => ...)], with its effect on the promise. *)
Definition onResponseEvent (res : IncomingMessage) (x : Exchange) : M Exchange :=
  let x := clearTimer x in
  let! r := onResponse (ex_request x) res in
  ret match r with
      | Reject e => settle (Rejected e) x
      | Redirect next request =>
          settle (Following next request)
            (mkExchange request (ex_timer x) (ex_aborted x) (ex_promise x) (ex_raw x))
      | Resolve response => settle (Fulfilled response) x
      | AwaitFirstChunk source o =>
          mkExchange (ex_request x) (ex_timer x) (ex_aborted x) (ex_promise x)
            (Some (source, o))
      end.

(** The listener on [raw]: it runs for the first chunk only. *)
Definition onRawData (chunk : string) (x : Exchange) : Exchange :=
  match ex_raw x with
  | Some (source, o) =>
      settle (Fulfilled (onFirstChunk source o chunk))
        (mkExchange (ex_request x) (ex_timer x) (ex_aborted x) (ex_promise x) None)
  | None => x
  end.

(** Delivery of one event.  The callback of a timer that is not armed, has
    been cleared or has already fired does not run. *)
Definition handle (e : Event) (x : Exchange) : M Exchange :=
  match e with
  | TimerFired => ret (if ex_timer x then onTimeout x else x)
  | TransportError message => ret (onError message x)
  | ResponseReceived res => onResponseEvent res x
  | RawData chunk => ret (onRawData chunk x)
  end.

(** Delivery of a sequence of events, one per turn of the event loop.  The
    handlers do not throw. *)
Fixpoint deliver (es : list Event) (x : Exchange) (st : Store) : Exchange * Store :=
  match es with
  | [] => (x, st)
  | e :: es =>
      match handle e x st with
      | (Normal x', st') => deliver es x' st'
      | (Throw _, st') => (x, st')
      end
  end.

(** *** The whole fetch *)

(** What the transport does with one request: the events it and the timer
    deliver, in order. *)
Variable transport : NodeRequestOptions -> list Event.

(** The final state of the promise returned by [fetch]. *)
Inductive Outcome :=
| Unfinished                 (* the model ran out of steps *)
| Pending                    (* never settled *)
| Thrown (e : Exn)           (* the executor threw: rejected with the exception *)
| Failed (e : FetchError)
| Done (r : Response).

(** [options.headers.host = options.headers.host[0]] *)
Definition hostHack (o : NodeRequestOptions) : NodeRequestOptions :=
  match opt_headers o !! "host" with
  | Some (h :: _) => mkOptions (opt_url o) (opt_method o) (<["host" := [h]]> (opt_headers o))
  | _ => o
  end.

(** [fetch(url, opts)]: the transport calls made, in order, and the outcome.
    Each redirect that is followed resolves the promise with a further call
    of [fetch]; [n] bounds the number of such calls.  The hop that is followed
    is the one the promise was resolved with: a redirect handled after the
    promise has been settled in another way has no effect on the outcome and
    is not traced. *)
Fixpoint fetch (n : nat) (input : Input) (init : RequestInit) (st : Store)
  : (list NodeRequestOptions * Outcome) * Store :=
  match n with
  | O => (([], Unfinished), st)
  | S n =>
      match Request_new parseURL formatURL onElectron input init st with
      | (Throw e, st) => (([], Thrown e), st)
      | (Normal request, st) =>
          match getNodeRequestOptions request st with
          | (Throw e, st) => (([], Thrown e), st)
          | (Normal (options, request), st) =>
              let options := hostHack options in
              let '(x, st) := deliver (transport options) (start request) st in
              match ex_promise x with
              | None => (([options], Pending), st)
              | Some (Rejected e) => (([options], Failed e), st)
              | Some (Fulfilled r) => (([options], Done r), st)
              | Some (Following next request) =>
                  let '((calls, out), st) := fetch n (InputURL next) (as_init request) st in
                  ((options :: calls, out), st)
              end
          end
      end
  end.

End Fetch.

(** * Vocabulary of the statements *)

(** ** What [getNodeRequestOptions] sends, in closed form *)

Definition absoluteHTTP (p : ParsedURL) : bool :=
  JS.truthy_ostr (protocol p) && JS.truthy_ostr (hostname p) &&
  is_http_protocol (default "" (protocol p)).

Definition withAccept (m : HeaderMap) : HeaderMap :=
  if Headers.has m "Accept" then m else Headers.set m "Accept" "*/*".

Definition withContentLength (request : Request) (m : HeaderMap) : HeaderMap :=
  if JS.truthy_ostr (contentLengthValue request)
  then Headers.set m "Content-Length" (default "" (contentLengthValue request))
  else m.

Definition withUserAgent (request : Request) (m : HeaderMap) : HeaderMap :=
  if Headers.has m "User-Agent" then m
  else Headers.set m "User-Agent" (userAgent (useElectronNet request)).

Definition withAcceptEncoding (m : HeaderMap) : HeaderMap :=
  Headers.set m "Accept-Encoding" "gzip,deflate".

Definition withConnection (m : HeaderMap) : HeaderMap :=
  if Headers.has m "Connection" then m else Headers.set m "Connection" "close".

(** The header map handed to the transport, as a function of the request's
    own header map. *)
Definition sentHeaders (request : Request) (m : HeaderMap) : HeaderMap :=
  withConnection (withAcceptEncoding (withUserAgent request
    (withContentLength request (withAccept m)))).

Definition afterOptions (request : Request) : Request :=
  if JS.truthy_ostr (contentLengthValue request) then request
  else set_chunkedEncoding request true.

(** ** Construction, redirects, decoding, the timer *)

Section Vocabulary.

Variable formatURL : ParsedURL -> string.
Variable resolveURL : string -> RawHeader -> string.
Variable onElectron : bool.

Local Abbreviation urlOf := (url formatURL).

(** The constructor's remaining checks: a source request's body can still be
    cloned, the header initializer is accepted, and Electron's [net] module
    is only asked for where it exists. *)
Definition otherChecksPass (input : Input) (init : RequestInit) (st : Store) : bool :=
  (bool_decide (is_Some (init_body init)) ||
   match input with InputRequest r => negb (bodyUsed r) | InputURL _ => true end) &&
  match Headers.new (headersInit input init) st with
  | (Normal _, _) => true
  | (Throw _, _) => false
  end &&
  (negb (default false (requestedElectronNet input init)) || onElectron).

Definition bodyTypeError : Exn :=
  TypeError "Request with GET/HEAD method cannot have body".

(** The redirect is followed: none of the three rejections applies. *)
Definition follows (request : Request) (res : IncomingMessage) : bool :=
  isRedirect (statusCode res) &&
  negb (redirect request =s? "manual") &&
  negb (redirect request =s? "error") &&
  negb (counter request >=? follow request) &&
  truthy_raw (rawHeader (rawHeaders res) "location").

(** A redirect is followed only past the three checks, and on the request
    as the handler has left it. *)
Definition redirected (request : Request) (res : IncomingMessage) : Request :=
  let request :=
    if rewritesToGET (statusCode res) (method request)
    then set_body (set_method request "GET") None
    else request in
  set_counter request (counter request + 1).

(** The response is finalized: not a redirect status, or the policy is
    [manual]. *)
Definition finalizes (request : Request) (res : IncomingMessage) : bool :=
  negb (isRedirect (statusCode res) && negb (redirect request =s? "manual")).

(** The headers of the response object. *)
Definition responseHeaders (request : Request) (res : IncomingMessage) : HeaderMap :=
  let m := normalizeHeaders (rawHeaders res) in
  if (redirect request =s? "manual") && Headers.has m "location"
  then Headers.set m "location"
         (resolveURL (urlOf request) (RawString (default "" (Headers.get m "location"))))
  else m.

Definition responseOptions (request : Request) (res : IncomingMessage) (h : ref)
  : ResponseOptions :=
  {| ro_url := urlOf request;
     ro_status := statusCode res;
     ro_statusText := statusMessage res;
     ro_headers := h;
     ro_size := size request;
     ro_timeout := timeout request;
     ro_useElectronNet := useElectronNet request |}.

(** The value of [Content-Encoding] the handler dispatches on. *)
Definition codingsOf (res : IncomingMessage) : option string :=
  Headers.get (normalizeHeaders (rawHeaders res)) "Content-Encoding".

(** One of the conditions under which the body is left alone. *)
Definition skipsDecoding (request : Request) (res : IncomingMessage) : Prop :=
  useElectronNet request = true \/ method request = "HEAD" \/
  codingsOf res = None \/ statusCode res = 204 \/ statusCode res = 304.

(** The promise has been rejected with a request-timeout error. *)
Definition timedOut (x : Exchange) : Prop :=
  exists e, ex_promise x = Some (Rejected e) /\ fe_type e = "request-timeout".

(** Once the timer is disarmed nothing arms it again, nothing aborts the
    transport request and nothing rejects with a timeout. *)
Definition disarmed (x : Exchange) : Prop :=
  ex_timer x = false /\ ex_aborted x = false /\ ~ timedOut x.

(** Events that are neither the headers nor a transport error. *)
Definition beforeHeaders (e : Event) : bool :=
  match e with
  | ResponseReceived _ | TransportError _ => false
  | TimerFired | RawData _ => true
  end.

(** While neither has arrived, the exchange is either untouched or timed
    out. *)
Definition waiting (request : Request) (x : Exchange) : Prop :=
  x = start request \/
  x = mkExchange request false true (Some (Rejected (timeoutError formatURL request))) None.

Definition set_compress (init : RequestInit) (c : option bool) : RequestInit :=
  mkInit (init_method init) (init_body init) (init_timeout init) (init_size init)
    (init_redirect init) (init_headers init) (init_useElectronNet init)
    (init_follow init) (init_counter init) (init_session init) c.

(** The follow limit and the counter a new request starts with. *)
Definition followOf (input : Input) (init : RequestInit) : Z :=
  match init_follow init, input with
  | Some f, _ => f
  | None, InputRequest r => follow r
  | None, InputURL _ => 20
  end.

Definition counterOf (input : Input) (init : RequestInit) : Z :=
  let inputCounter :=
    match input with InputRequest r => Some (counter r) | InputURL _ => None end in
  default 0 (JS.or_onum (JS.or_onum (init_counter init) inputCounter) (Some 0)).

(** What holds of an exchange all along: its request keeps its [Headers]
    object and its follow limit, its counter does not decrease, the objects
    of the caller are as they were, and a redirect that is followed has a
    larger counter, within the follow limit. *)
Definition chained (st0 : Store) (request : Request) (x : Exchange) (st : Store) : Prop :=
  headers (ex_request x) = headers request /\
  follow (ex_request x) = follow request /\
  counter request <= counter (ex_request x) /\
  st0 `prefix_of` st /\
  forall next q, ex_promise x = Some (Following next q) ->
    follow q = follow request /\ counter request < counter q <= follow request.

(** The number of redirects [fetch] can follow from a given call. *)
Definition budget (input : Input) (init : RequestInit) : nat :=
  Z.to_nat (followOf input init - counterOf input init).

End Vocabulary.

(** ** Concrete requests used to exercise the statements *)

Module Examples.

Definition exampleURL : ParsedURL :=
  mkParsedURL (Some "http:") (Some "example.com") None (Some "/upload")
    "http://example.com/upload".

(** A request whose [Headers] object is the first object of the store. *)
Definition request (m : string) (b : option Body) : Request :=
  mkRequest exampleURL m "follow" 0%nat b false 0 0 false false 20 0 None.

(** The caller supplied [Content-Length: 1000] and [Accept-Encoding: identity]. *)
Definition callerHeaders : HeaderMap :=
  <["content-length" := ["1000"]]> (<["accept-encoding" := ["identity"]]> ∅).

Definition store : Store := [callerHeaders].

(** Stand-ins for Node's [url] module on the URLs used below. *)
Definition parse (u : string) : ParsedURL :=
  mkParsedURL (Some "http:") (Some "example.com") None None u.

Definition format (p : ParsedURL) : string := href p.

Definition resolve (from : string) (to : RawHeader) : string :=
  match to with
  | RawString s => s
  | RawArray l => JS.join_comma l
  end.

(** A fetch of [http://example.com/] against a given transport. *)
Definition fetchFrom (transport : NodeRequestOptions -> list Event) (init : RequestInit) :=
  fetch parse format false resolve transport 10 (InputURL "http://example.com/") init [].

(** A redirect response, and a plain one. *)
Definition redirectTo (code : Z) (location : string) : Event :=
  ResponseReceived (mkIncoming code "" [("location", RawString location)] []).

Definition ok : Event := ResponseReceived (mkIncoming 200 "OK" [] ["body"]).

End Examples.

(** * Further parts of the program *)

(** ** [clone] *)

Section Clone.

Variable parseURL : string -> ParsedURL.
Variable formatURL : ParsedURL -> string.
Variable onElectron : bool.

(** [clone ()]: [new Request(this)].  The constructor clones the body of
    [this], which replaces a stream body of [this] by one side of the tee:
    the new request is returned next to the request [this] has become.  Where
    the constructor throws, [this] is not reported. *)
Definition Request_clone (r : Request) : M (Request * Request) :=
  let! q := Request_new parseURL formatURL onElectron (InputRequest r) emptyInit in
  ret (q, match body r with Some _ => teed r | None => r end).

End Clone.

(** ** [FetchError], with the [code] and [errno] it carries *)

Module Lines.

(** The line terminators of ECMAScript, which [.] does not match, as they
    appear in a byte string: LF, CR, and the UTF-8 encodings of U+2028 and
    U+2029. *)
Definition LF : string := String (ascii_of_nat 10) "".
Definition CR : string := String (ascii_of_nat 13) "".
Definition LS : string :=
  String (ascii_of_nat 226) (String (ascii_of_nat 128) (String (ascii_of_nat 168) "")).
Definition PS : string :=
  String (ascii_of_nat 226) (String (ascii_of_nat 128) (String (ascii_of_nat 169) "")).

(** [s.startsWith(p)] *)
Fixpoint startsWith (s p : string) {struct p} : bool :=
  match p, s with
  | EmptyString, _ => true
  | String a p, String b s => Ascii.eqb a b && startsWith s p
  | String _ _, EmptyString => false
  end.

Definition atLineTerminator (s : string) : bool :=
  startsWith s LF || startsWith s CR || startsWith s LS || startsWith s PS.

(** The longest prefix [.*] can match: up to the first line terminator. *)
Fixpoint firstLine (s : string) : string :=
  match s with
  | EmptyString => EmptyString
  | String c r => if atLineTerminator s then EmptyString else String c (firstLine r)
  end.

(** [s.slice(n)] *)
Fixpoint slice (n : nat) (s : string) : string :=
  match n, s with
  | O, _ => s
  | S n, String _ r => slice n r
  | S _, EmptyString => EmptyString
  end.

End Lines.

(** The pattern [regex] of the constructor within one line: any run of
    characters, the text [net::], and the captured rest of the line.  The
    first run is greedy, so the capture is what follows the last [net::]. *)
Fixpoint afterLastNet (line : string) : option string :=
  match line with
  | EmptyString => None
  | String _ r =>
      match afterLastNet r with
      | Some code => Some code
      | None => if Lines.startsWith line "net::" then Some (Lines.slice 5 line) else None
      end
  end.

(** [regex.exec(message)[1]] when [regex.test(message)]: the match starts at
    the beginning of the message and, as no run matches a line terminator,
    cannot leave its first line. *)
Definition netErrorCode (message : string) : option string :=
  afterLastNet (Lines.firstLine message).

Definition netErrorMap : gmap string string :=
  list_to_map
    [("ERR_CONNECTION_REFUSED", "ECONNREFUSED");
     ("ERR_EMPTY_RESPONSE", "ECONNRESET");
     ("ERR_NAME_NOT_RESOLVED", "ENOTFOUND");
     ("ERR_CONTENT_DECODING_FAILED", "Z_DATA_ERROR");
     ("ERR_CONTENT_DECODING_INIT_FAILED", "Z_DATA_ERROR")].

(** An error object, as far as the code reads it: [err.message] and
    [err.code], either of which may be missing. *)
Record SystemError := mkSystemError {
  err_message : option string;
  err_code : option string
}.

(** A [FetchError] instance: [message], [type], and the [code] and [errno]
    that are set when there is a system error. *)
Record FetchErrorObject := mkFetchErrorObject {
  fo_message : string;
  fo_type : string;
  fo_code : option string;
  fo_errno : option string
}.

(** [new FetchError(message, type, systemError)] *)
Definition FetchError_new (message type : string) (systemError : option SystemError)
  : FetchErrorObject :=
  let systemError :=
    match netErrorCode message with
    | Some errorCode =>
        let errorCode := default errorCode (netErrorMap !! errorCode) in
        Some {| err_message := None; err_code := Some errorCode |}
    | None => systemError
    end in
  {| fo_message := message;
     fo_type := type;
     fo_code := systemError ≫= err_code;
     fo_errno := systemError ≫= err_code |}.

(** ** The revision of [fetch] with an abort signal and proxy login

    The latest revision of [index.js] adds to the executor an abort signal,
    a ['login'] handler for authenticating proxies and a check of the
    [agent] option; its ['response'] handler decides redirects, headers and
    decoding as [onResponse] does.  What follows embeds that executor from the
    point where the request and its options have been built, and the handlers
    it installs. *)

Module Abortable.

(** Modelled from the spec: the revision of [request.js] that gives a request
    its [signal] is not among the sources, so the signal is taken as the
    options carry it.  [signal] is [request.signal], with the value its
    [aborted] flag has when the executor runs; [user], [password] and [agent]
    are the properties of [opts] that the executor reads. *)
Record Options := mkOptions {
  signal : option bool;
  user : option string;
  password : option string;
  agent : bool
}.

(** How the promise has been settled. *)
Inductive Settled :=
| RejectedWith (e : FetchErrorObject)          (* reject(new FetchError(...)) *)
| RejectedError (message : string)             (* reject(new Error(...)) *)
| FulfilledWith (r : Response)                 (* resolve(new Response(...)) *)
| FollowingTo (next : string) (request : Request).   (* resolve(fetch(next, request)) *)

(** The variables the handlers close over, and what has been done to the
    transport request, the response stream, the signal and the body. *)
Record State := mkState {
  request : Request;
  sent : bool;                   (* send(options) has been called *)
  timer : bool;                  (* reqTimeout is armed and has not fired *)
  cancelled : bool;              (* cancelRequest() has run *)
  promise : option Settled;
  raw : option (list string * ResponseOptions);
                                 (* the listener left by raw.once('data', ...) *)
  piped : bool;                  (* the body is set up, with its listeners on res *)
  destroyed : bool;              (* res.destroy() has run *)
  abortRequestOn : bool;         (* abortRequest listens on the signal *)
  abortBodyOn : bool;            (* abortBody listens on the signal *)
  answers : list (string * string);     (* the calls of the login callback *)
  bodyErrors : list SystemError;        (* the errors emitted on [body] *)
  decoding : bool                (* [body] has been reassigned to a decoder's output *)
}.

Definition set_request (v : Request) (s : State) : State :=
  mkState v (sent s) (timer s) (cancelled s) (promise s) (raw s) (piped s)
    (destroyed s) (abortRequestOn s) (abortBodyOn s) (answers s) (bodyErrors s) (decoding s).

Definition set_timer (v : bool) (s : State) : State :=
  mkState (request s) (sent s) v (cancelled s) (promise s) (raw s) (piped s)
    (destroyed s) (abortRequestOn s) (abortBodyOn s) (answers s) (bodyErrors s) (decoding s).

Definition set_cancelled (v : bool) (s : State) : State :=
  mkState (request s) (sent s) (timer s) v (promise s) (raw s) (piped s)
    (destroyed s) (abortRequestOn s) (abortBodyOn s) (answers s) (bodyErrors s) (decoding s).

Definition set_promise (v : option Settled) (s : State) : State :=
  mkState (request s) (sent s) (timer s) (cancelled s) v (raw s) (piped s)
    (destroyed s) (abortRequestOn s) (abortBodyOn s) (answers s) (bodyErrors s) (decoding s).

Definition set_raw (v : option (list string * ResponseOptions)) (s : State) : State :=
  mkState (request s) (sent s) (timer s) (cancelled s) (promise s) v (piped s)
    (destroyed s) (abortRequestOn s) (abortBodyOn s) (answers s) (bodyErrors s) (decoding s).

Definition set_piped (v : bool) (s : State) : State :=
  mkState (request s) (sent s) (timer s) (cancelled s) (promise s) (raw s) v
    (destroyed s) (abortRequestOn s) (abortBodyOn s) (answers s) (bodyErrors s) (decoding s).

Definition set_destroyed (v : bool) (s : State) : State :=
  mkState (request s) (sent s) (timer s) (cancelled s) (promise s) (raw s) (piped s)
    v (abortRequestOn s) (abortBodyOn s) (answers s) (bodyErrors s) (decoding s).

Definition set_abortRequestOn (v : bool) (s : State) : State :=
  mkState (request s) (sent s) (timer s) (cancelled s) (promise s) (raw s) (piped s)
    (destroyed s) v (abortBodyOn s) (answers s) (bodyErrors s) (decoding s).

Definition set_abortBodyOn (v : bool) (s : State) : State :=
  mkState (request s) (sent s) (timer s) (cancelled s) (promise s) (raw s) (piped s)
    (destroyed s) (abortRequestOn s) v (answers s) (bodyErrors s) (decoding s).

Definition set_answers (v : list (string * string)) (s : State) : State :=
  mkState (request s) (sent s) (timer s) (cancelled s) (promise s) (raw s) (piped s)
    (destroyed s) (abortRequestOn s) (abortBodyOn s) v (bodyErrors s) (decoding s).

Definition set_bodyErrors (v : list SystemError) (s : State) : State :=
  mkState (request s) (sent s) (timer s) (cancelled s) (promise s) (raw s) (piped s)
    (destroyed s) (abortRequestOn s) (abortBodyOn s) (answers s) v (decoding s).

Definition set_decoding (v : bool) (s : State) : State :=
  mkState (request s) (sent s) (timer s) (cancelled s) (promise s) (raw s) (piped s)
    (destroyed s) (abortRequestOn s) (abortBodyOn s) (answers s) (bodyErrors s) v.

Inductive Event :=
| Abort                                  (* the signal's 'abort' *)
| TimerFired
| Login (host : string)                  (* req 'login', with authInfo.host *)
| RequestError (err : SystemError)       (* req 'error' *)
| RequestAborted                         (* req 'abort' *)
| ResponseReceived (res : IncomingMessage)
| RawData (chunk : string)
| ResponseEnd                            (* res 'end' *)
| ResponseError (err : SystemError).     (* res 'error' *)

(** [new FetchError('request aborted', 'abort')] *)
Definition abortError : FetchErrorObject :=
  FetchError_new "request aborted" "abort" None.

(** A [FetchError] handed on as an error object. *)
Definition asSystemError (e : FetchErrorObject) : SystemError :=
  {| err_message := Some (fo_message e); err_code := fo_code e |}.

(** The message of the error for the [agent] option: [agent] and
    [useElectronNet] stand in double quotes in it. *)
Definition agentMessage : string :=
  let quote := String (ascii_of_nat 34) EmptyString in
  quote ++ "agent" ++ quote ++ " option is only supported with " ++
  quote ++ "useElectronNet" ++ quote ++ " disabled".

Section Executor.

Variable formatURL : ParsedURL -> string.
Variable resolveURL : string -> RawHeader -> string.

(** The options [fetch] was called with. *)
Variable opts : Options.

Local Abbreviation urlOf := (url formatURL).

(** [request.signal], as a condition. *)
Definition hasSignal : bool := bool_decide (is_Some (signal opts)).

(** [resolve]/[reject]: only the first call settles the promise. *)
Definition settle (v : Settled) (s : State) : State :=
  match promise s with
  | None => set_promise (Some v) s
  | Some _ => s
  end.

(** [cancelRequest()]: [req.abort()] on Electron, [req.destroy()] on Node. *)
Definition cancelRequest (s : State) : State := set_cancelled true s.

(** [clearTimeout(reqTimeout)], then
    [if (request.signal) request.signal.removeEventListener('abort', abortRequest)]:
    how the handlers on the transport request begin. *)
Definition standDown (s : State) : State :=
  let s := set_timer false s in
  if hasSignal then set_abortRequestOn false s else s.

(** [req.on('error', err => ...)] *)
Definition onRequestError (err : SystemError) (s : State) : State :=
  let s := standDown s in
  settle (RejectedWith
            (FetchError_new
               ("request to " ++ urlOf (request s) ++ " failed, reason: " ++
                default "undefined" (err_message err))
               "system" (Some err))) s.

(** [abortRequest]: it rejects, cancels, and emits the error on the
    transport request, which runs the ['error'] handler at once. *)
Definition abortRequest (s : State) : State :=
  let err := abortError in
  let s := settle (RejectedWith err) s in
  let s := cancelRequest s in
  onRequestError (asSystemError err) s.

(** The listeners on [res] once the body is set up.  The first emits the
    error on [body], the variable: [cancelRequest] listens on the
    [PassThrough] the variable was initialized with, and so runs only as long
    as [body] has not been reassigned to the output of a decoder.  The second,
    installed with a signal, takes [abortBody] off the signal. *)
Definition onResponseError (err : SystemError) (s : State) : State :=
  if piped s then
    let s := set_bodyErrors (bodyErrors s ++ [err])%list s in
    let s := if decoding s then s else cancelRequest s in
    if hasSignal then set_abortBodyOn false s else s
  else s.

(** [abortBody]: [res.destroy()], then the abort error is emitted on [res]. *)
Definition abortBody (s : State) : State :=
  onResponseError (asSystemError abortError) (set_destroyed true s).

(** The timer's callback: [reject(err); cancelRequest()].  A timer fires
    once. *)
Definition onTimeout (s : State) : State :=
  let err :=
    FetchError_new ("network timeout at: " ++ urlOf (request s)) "request-timeout" None in
  cancelRequest (settle (RejectedWith err) (set_timer false s)).

(** [new FetchError(`login event received from ... but no credentials
    provided`, 'proxy', { code: 'PROXY_AUTH_FAILED' })] *)
Definition proxyError (host : string) : FetchErrorObject :=
  FetchError_new
    ("login event received from " ++ host ++ " but no credentials provided")
    "proxy"
    (Some {| err_message := None; err_code := Some "PROXY_AUTH_FAILED" |}).

(** [req.on('login', (authInfo, callback) => ...)], which is installed on
    Electron's transport only. *)
Definition onLogin (host : string) (s : State) : State :=
  if useElectronNet (request s) then
    if JS.truthy_ostr (user opts) && JS.truthy_ostr (password opts) then
      set_answers
        (answers s ++ [(default "" (user opts), default "" (password opts))])%list s
    else
      settle (RejectedWith (proxyError host)) (cancelRequest s)
  else s.

(** [req.on('abort', () => ...)] *)
Definition onRequestAborted (s : State) : State := standDown s.

(** The body of a response that is finalized is set up, and with a signal
    [abortBody] becomes a listener of it. *)
Definition setUpBody (s : State) : State :=
  let s := set_piped true s in
  if hasSignal then set_abortBodyOn true s else s.

(** [body = body.pipe(zlib.createGunzip())], and the like for the two inflate
    transforms: [body] then is the output of the decoder.  A response that is
    not decoded keeps the first [PassThrough] as its body. *)
Definition pipeInto (d : Decoder) (s : State) : State :=
  match d with
  | PassThrough => s
  | Gunzip | Inflate | InflateRaw => set_decoding true s
  end.

(** [req.on('response', res => ...)], with the decisions of [onResponse]. *)
Definition onResponseEvent (res : IncomingMessage) (s : State) : M State :=
  let s := standDown s in
  let! r := onResponse formatURL resolveURL (request s) res in
  ret match r with
      | Reject e =>
          settle (RejectedWith (FetchError_new (fe_message e) (fe_type e) None)) s
      | Redirect next q => settle (FollowingTo next q) (set_request q s)
      | Resolve response =>
          settle (FulfilledWith response)
            (pipeInto (resp_decoder response) (setUpBody s))
      | AwaitFirstChunk source o => set_raw (Some (source, o)) (setUpBody s)
      end.

(** The listener on [raw]: it runs for the first chunk only, and pipes the
    body into the inflate transform the chunk selects. *)
Definition onRawData (chunk : string) (s : State) : State :=
  match raw s with
  | Some (source, o) =>
      let response := onFirstChunk source o chunk in
      settle (FulfilledWith response)
        (pipeInto (resp_decoder response) (set_raw None s))
  | None => s
  end.

(** The signal's ['abort']: the listeners that are registered run. *)
Definition onAbort (s : State) : State :=
  let abortBodyListens := abortBodyOn s in
  let s := if abortRequestOn s then abortRequest s else s in
  if abortBodyListens then abortBody s else s.

(** [res.on('end', ...)], which is registered with a signal once the body is
    set up. *)
Definition onResponseEnd (s : State) : State :=
  if piped s && hasSignal then set_abortBodyOn false s else s.

(** Delivery of one event.  Where no transport request was made there is
    nothing to deliver one.  The callback of a timer that is not armed, has
    been cleared or has already fired does not run. *)
Definition handle (e : Event) (s : State) : M State :=
  if negb (sent s) then ret s
  else
    match e with
    | Abort => ret (onAbort s)
    | TimerFired => ret (if timer s then onTimeout s else s)
    | Login host => ret (onLogin host s)
    | RequestError err => ret (onRequestError err s)
    | RequestAborted => ret (onRequestAborted s)
    | ResponseReceived res => onResponseEvent res s
    | RawData chunk => ret (onRawData chunk s)
    | ResponseEnd => ret (onResponseEnd s)
    | ResponseError err => ret (onResponseError err s)
    end.

(** Delivery of a sequence of events, one per turn of the event loop. *)
Fixpoint deliver (es : list Event) (s : State) (st : Store) : State * Store :=
  match es with
  | [] => (s, st)
  | e :: es =>
      match handle e s st with
      | (Normal s', st') => deliver es s' st'
      | (Throw _, st') => (s, st')
      end
  end.

(** The executor, from the check of the signal to the installation of the
    handlers: a signal that is already aborted rejects and returns; otherwise
    the request is sent, with the [agent] option refused on Electron's
    transport, though not before the request goes out. *)
Definition begin (request : Request) : State :=
  if default false (signal opts) then
    mkState request false false false (Some (RejectedWith abortError)) None
      false false false false [] [] false
  else
    mkState request true (negb (timeout request =? 0)) false
      (if useElectronNet request && agent opts
       then Some (RejectedError agentMessage)
       else None)
      None false false hasSignal false [] [] false.

End Executor.

End Abortable.

(** ** The bundle plugin [tweakDefault] *)

Module TweakDefault.

(** [source.split('\n')] *)
Fixpoint split (source : string) : list string :=
  match source with
  | EmptyString => [EmptyString]
  | String c r =>
      if Ascii.eqb c (ascii_of_nat 10) then EmptyString :: split r
      else match split r with
           | line :: lines => String c line :: lines
           | [] => [String c EmptyString]
           end
  end.

(** [lines.join('\n')] *)
Definition join (lines : list string) : string := String.concat Lines.LF lines.

(** [s] without its last character, when that is a semicolon. *)
Fixpoint beforeSemicolon (s : string) : option string :=
  match s with
  | EmptyString => None
  | String c EmptyString => if Ascii.eqb c ";" then Some EmptyString else None
  | String c r => String c <$> beforeSemicolon r
  end.

Definition exportPrefix : string := "exports['default'] = ".

(** The capture of the pattern the plugin applies to a line: the line is
    the prefix [exports['default'] = ], a captured run of characters other
    than line terminators, and a final semicolon. *)
Definition matches (line : string) : option string :=
  if Lines.startsWith line exportPrefix then
    match beforeSemicolon (Lines.slice (String.length exportPrefix) line) with
    | Some value => if Lines.firstLine value =s? value then Some value else None
    | None => None
    end
  else None.

(** The line put in its place. *)
Definition replacement (value : string) : string :=
  "module.exports = exports = " ++ value ++ ";".

(** The loop over the lines: the first line that matches is replaced, and
    the loop ends. *)
Fixpoint rewriteFirst (lines : list string) : list string :=
  match lines with
  | [] => []
  | line :: rest =>
      match matches line with
      | Some value => replacement value :: rest
      | None => line :: rewriteFirst rest
      end
  end.

(** [transformBundle(source)] *)
Definition transformBundle (source : string) : string :=
  join (rewriteFirst (split source)).

End TweakDefault.

(** ** Further vocabulary *)

(** A property the constructor reads off its first argument when that is a
    [Request], and does not find when it is a URL. *)
Definition inherited {A} (input : Input) (f : Request -> A) : option A :=
  match input with InputRequest r => Some (f r) | InputURL _ => None end.

(** The body the constructor gives the new request: [init.body], or what
    [clone] hands out of the source request's. *)
Definition bodyOf (input : Input) (init : RequestInit) : option Body :=
  match init_body init with
  | Some b => Some b
  | None => teeBranch true <$> (inherited input body ≫= id)
  end.

(** [a || b || 0] on numbers. *)
Definition firstNonZero (a b : option Z) : Z :=
  default 0 (JS.or_onum (JS.or_onum a b) (Some 0)).

(** The [Content-Type] the constructor derives from the body of the options. *)
Definition derivedContentType (init : RequestInit) : option string :=
  init_body init ≫= extractContentType.


(** The options of the transport call that [fetch] makes for a request whose
    own headers are [m]: those of [getNodeRequestOptions], after the host
    header hack. *)
Definition callOf (request : Request) (m : HeaderMap) : NodeRequestOptions :=
  hostHack {| opt_url := parsedURL request;
              opt_method := method request;
              opt_headers := sentHeaders request m |}.

(** The names [getNodeRequestOptions] and the host header hack may write. *)
Definition writtenNames : list string :=
  ["accept"; "content-length"; "user-agent"; "accept-encoding"; "connection"; "host"].

(** The values of one entry of [res.headers]. *)
Definition rawValues (v : RawHeader) : list string :=
  match v with
  | RawString s => [s]
  | RawArray l => l
  end.

(** The values the transport delivered under a normalized name, in order. *)
Definition receivedValues (hs : list (string * RawHeader)) (k : string) : list string :=
  flat_map (fun '(name, v) =>
              if Headers.sanitizeName name =s? k then rawValues v else []) hs.

(** Timer events only. *)
Definition isTimer (e : Event) : bool :=
  match e with TimerFired => true | _ => false end.

(** The response handler pipes the body into gunzip as the headers arrive:
    no skip condition holds and the coding is [gzip] or [x-gzip]. *)
Definition gunzips (request : Request) (res : IncomingMessage) : bool :=
  let c := default "" (codingsOf res) in
  decodes request res (codingsOf res) && ((c =s? "gzip") || (c =s? "x-gzip")).

(** The response handler waits for the first chunk, to pipe the body into
    one of the inflate transforms: no skip condition holds and the coding is
    [deflate] or [x-deflate]. *)
Definition inflates (request : Request) (res : IncomingMessage) : bool :=
  let c := default "" (codingsOf res) in
  decodes request res (codingsOf res) && ((c =s? "deflate") || (c =s? "x-deflate")).


Section Reports.

Variable formatURL : ParsedURL -> string.

(** What an exchange reports as its URL [u]: its request stays at [u], and
    so do the response the promise is fulfilled with and the response options
    kept for the first chunk. *)
Definition reportsURL (u : string) (x : Exchange) : Prop :=
  url formatURL (ex_request x) = u /\
  (forall r, ex_promise x = Some (Fulfilled r) -> resp_url r = u) /\
  (forall source o, ex_raw x = Some (source, o) -> ro_url o = u).

End Reports.

(** What an abort of the request leaves behind, and nothing undoes. *)
Definition stoodDown (v : Abortable.Settled) (s : Abortable.State) : Prop :=
  Abortable.promise s = Some v /\ Abortable.cancelled s = true /\
  Abortable.timer s = false /\ Abortable.abortRequestOn s = false.

(** ** Further concrete inputs *)

Module Cases.

(** A stand-in for [url.parse] on an [ftp:] URL. *)
Definition parseFtp (u : string) : ParsedURL :=
  mkParsedURL (Some "ftp:") (Some "example.com") None None u.

(** A request for Electron's transport. *)
Definition onNet : Request :=
  mkRequest Examples.exampleURL "GET" "follow" 0%nat None false 0 0 false true 20 0 None.

(** Options with a signal that has not fired, and nothing else. *)
Definition signalled : Abortable.Options :=
  Abortable.mkOptions (Some false) None None false.

(** Options with a signal that has fired already. *)
Definition aborted : Abortable.Options :=
  Abortable.mkOptions (Some true) None None false.

(** Options with an agent. *)
Definition withAgent : Abortable.Options :=
  Abortable.mkOptions None None None true.

(** A server that redirects once, to [/next]. *)
Definition redirectsOnce (o : NodeRequestOptions) : list Event :=
  if href (opt_url o) =s? "/next" then [Examples.ok]
  else [Examples.redirectTo 302 "/next"].

(** A response with [Content-Encoding: deflate]. *)
Definition deflated : IncomingMessage :=
  mkIncoming 200 "OK" [("content-encoding", RawString "deflate")] ["x"].

End Cases.

(** * Properties *)

Section Properties.

(** Node's [url] module, the platform and the transport are arbitrary. *)
Variable parseURL : string -> ParsedURL.
Variable formatURL : ParsedURL -> string.
Variable onElectron : bool.
Variable resolveURL : string -> RawHeader -> string.
Variable transport : NodeRequestOptions -> list Event.

Local Abbreviation urlOf := (url formatURL).
Local Abbreviation construct := (Request_new parseURL formatURL onElectron).
Local Abbreviation respond := (onResponse formatURL resolveURL).
Local Abbreviation handleEvent := (handle formatURL resolveURL).
Local Abbreviation deliverAll := (deliver formatURL resolveURL).
Local Abbreviation run := (fetch parseURL formatURL onElectron resolveURL transport).


(** ** The store: allocation, reading and writing of [Headers] objects *)

Lemma deref_alloc (st : Store) (m : HeaderMap) :
  Headers.deref (st ++ [m])%list (length st) = m.
Proof. unfold Headers.deref. by rewrite list_lookup_middle. Qed.

Lemma deref_alloc_old (st : Store) (m : HeaderMap) (h : ref) :
  (h < length st)%nat -> Headers.deref (st ++ [m])%list h = Headers.deref st h.
Proof. intros Hlt. unfold Headers.deref. by rewrite lookup_app_l. Qed.

Lemma insert_alloc (st : Store) (m m' : HeaderMap) :
  <[length st := m']> (st ++ [m])%list = (st ++ [m'])%list.
Proof.
  replace (length st) with (length st + 0)%nat at 1 by lia.
  by rewrite insert_app_r.
Qed.

Lemma update_alloc (st : Store) (m : HeaderMap) (f : HeaderMap -> HeaderMap) :
  Headers.update (length st) f (st ++ [m])%list = (Normal tt, (st ++ [f m])%list).
Proof. unfold Headers.update. by rewrite deref_alloc, insert_alloc. Qed.

Lemma new_copy (h : ref) (st : Store) :
  Headers.new (Headers.FromHeaders h) st
  = (Normal (length st), (st ++ [Headers.deref st h])%list).
Proof. reflexivity. Qed.

(** A conditional update of the object allocated last. *)
Lemma update_when_alloc (b : bool) (st : Store) (m : HeaderMap)
    (f : HeaderMap -> HeaderMap) :
  (if b then Headers.update (length st) f else ret tt) (st ++ [m])%list
  = (Normal tt, (st ++ [if b then f m else m])%list).
Proof. destruct b; [apply update_alloc | reflexivity]. Qed.

Lemma literal_names_are_tokens :
  Forall (fun name => Headers.validName name = true)
    ["Accept"; "Content-Length"; "User-Agent"; "Accept-Encoding"; "Connection";
     "Content-Type"; "content-length"; "location"; "Content-Encoding"].
Proof. repeat constructor. Qed.

(** ** [getNodeRequestOptions]: what is sent, in closed form *)

(** One step of a computation that works on the object allocated last. *)
Ltac on_last_object :=
  unfold bind at 1;
  first [ rewrite new_copy
        | rewrite update_when_alloc
        | rewrite update_alloc
        | unfold Headers.read at 1; rewrite deref_alloc
        | unfold ret at 1 ].

Lemma getNodeRequestOptions_ok (request : Request) (st : Store) :
  absoluteHTTP (parsedURL request) = true ->
  getNodeRequestOptions request st
  = (Normal ({| opt_url := parsedURL request;
                opt_method := method request;
                opt_headers := sentHeaders request (Headers.deref st (headers request)) |},
             afterOptions request),
     (st ++ [sentHeaders request (Headers.deref st (headers request))])%list).
Proof.
  intros Habs. unfold absoluteHTTP in Habs.
  apply andb_prop in Habs as [Habs Hhttp]. apply andb_prop in Habs as [Hp Hh].
  unfold getNodeRequestOptions. do 3 on_last_object.
  rewrite Hp, Hh, Hhttp. cbn [negb orb].
  unfold sentHeaders, afterOptions, withConnection, withAcceptEncoding,
    withUserAgent, withContentLength, withAccept.
  destruct (JS.truthy_ostr (contentLengthValue request));
    repeat on_last_object; rewrite ?Bool.if_negb; reflexivity.
Qed.

(** Without an absolute http(s) URL the call throws, after allocating its
    copy. *)
Lemma getNodeRequestOptions_throws (request : Request) (st : Store) :
  absoluteHTTP (parsedURL request) = false ->
  exists e m, getNodeRequestOptions request st = (Throw e, (st ++ [m])%list).
Proof.
  intros Habs. unfold getNodeRequestOptions. do 3 on_last_object.
  unfold absoluteHTTP in Habs.
  destruct (JS.truthy_ostr (protocol (parsedURL request)));
    cbn [negb orb andb] in *; [| by do 2 eexists].
  destruct (JS.truthy_ostr (hostname (parsedURL request)));
    cbn [negb orb andb] in *; [| by do 2 eexists].
  rewrite Habs. by do 2 eexists.
Qed.

(** Whatever the URL, the only change to the store is one new object. *)
Lemma getNodeRequestOptions_allocates (request : Request) (st : Store) :
  exists m : HeaderMap, snd (getNodeRequestOptions request st) = (st ++ [m])%list.
Proof.
  destruct (absoluteHTTP (parsedURL request)) eqn:Habs.
  - rewrite getNodeRequestOptions_ok by done. by eexists.
  - destruct (getNodeRequestOptions_throws request st Habs) as (e & m & ->).
    by eexists.
Qed.

(** *** Lookups in the headers that are sent *)

Lemma has_lookup (m : HeaderMap) (name : string) :
  Headers.has m name = bool_decide (is_Some (m !! Headers.sanitizeName name)).
Proof. reflexivity. Qed.

Lemma lookup_set_ne (m : HeaderMap) (name v k : string) :
  Headers.sanitizeName name <> k -> Headers.set m name v !! k = m !! k.
Proof. intros Hne. unfold Headers.set. by rewrite lookup_insert_ne. Qed.

Lemma lookup_set_eq (m : HeaderMap) (name v : string) :
  Headers.set m name v !! Headers.sanitizeName name = Some [v].
Proof. unfold Headers.set. by rewrite lookup_insert_eq. Qed.

(** [if (!headers.has(name)) headers.set(name, v)] keeps a value that is
    there and installs [v] otherwise. *)
Lemma lookup_default_eq (m : HeaderMap) (name v : string) :
  (if Headers.has m name then m else Headers.set m name v) !! Headers.sanitizeName name
  = Some (default [v] (m !! Headers.sanitizeName name)).
Proof.
  rewrite has_lookup. case_bool_decide as Hs.
  - destruct Hs as [l Hl]. by rewrite Hl.
  - rewrite lookup_set_eq. apply eq_None_not_Some in Hs. by rewrite Hs.
Qed.

Lemma lookup_default_ne (m : HeaderMap) (name v k : string) :
  Headers.sanitizeName name <> k ->
  (if Headers.has m name then m else Headers.set m name v) !! k = m !! k.
Proof. intros Hne. destruct (Headers.has m name); [done | by apply lookup_set_ne]. Qed.

Lemma truthy_String_of_number (n : Z) : JS.truthy_str (JS.String_of_number n) = true.
Proof.
  unfold JS.String_of_number, NilZero.string_of_int.
  destruct (Z.to_int n) as [d | d]; [| reflexivity].
  unfold NilZero.string_of_uint. by destruct d.
Qed.

Lemma sent_content_length (request : Request) (m : HeaderMap) :
  sentHeaders request m !! "content-length"
  = if JS.truthy_ostr (contentLengthValue request)
    then Some [default "" (contentLengthValue request)]
    else m !! "content-length".
Proof.
  unfold sentHeaders, withConnection, withAcceptEncoding, withUserAgent.
  rewrite lookup_default_ne by done.
  rewrite lookup_set_ne by done.
  rewrite lookup_default_ne by done.
  unfold withContentLength, withAccept.
  destruct (JS.truthy_ostr (contentLengthValue request)).
  - apply (lookup_set_eq _ "Content-Length").
  - by rewrite lookup_default_ne.
Qed.

Lemma sent_accept (request : Request) (m : HeaderMap) :
  sentHeaders request m !! "accept" = Some (default ["*/*"] (m !! "accept")).
Proof.
  unfold sentHeaders, withConnection, withAcceptEncoding, withUserAgent.
  rewrite lookup_default_ne by done.
  rewrite lookup_set_ne by done.
  rewrite lookup_default_ne by done.
  unfold withContentLength.
  destruct (JS.truthy_ostr (contentLengthValue request));
    [rewrite lookup_set_ne by done |]; apply (lookup_default_eq _ "Accept").
Qed.

Lemma sent_user_agent (request : Request) (m : HeaderMap) :
  sentHeaders request m !! "user-agent"
  = Some (default [userAgent (useElectronNet request)] (m !! "user-agent")).
Proof.
  unfold sentHeaders, withConnection, withAcceptEncoding.
  rewrite lookup_default_ne by done.
  rewrite lookup_set_ne by done.
  unfold withUserAgent.
  rewrite (lookup_default_eq _ "User-Agent"). do 2 f_equal.
  unfold withContentLength, withAccept.
  destruct (JS.truthy_ostr (contentLengthValue request));
    [rewrite lookup_set_ne by done |]; by rewrite lookup_default_ne.
Qed.

Lemma sent_accept_encoding (request : Request) (m : HeaderMap) :
  sentHeaders request m !! "accept-encoding" = Some ["gzip,deflate"].
Proof.
  unfold sentHeaders, withConnection.
  rewrite lookup_default_ne by done.
  apply (lookup_set_eq _ "Accept-Encoding").
Qed.

Lemma sent_connection (request : Request) (m : HeaderMap) :
  sentHeaders request m !! "connection" = Some (default ["close"] (m !! "connection")).
Proof.
  unfold sentHeaders, withConnection.
  rewrite (lookup_default_eq _ "Connection"). do 2 f_equal.
  unfold withAcceptEncoding, withUserAgent.
  rewrite lookup_set_ne by done.
  rewrite lookup_default_ne by done.
  unfold withContentLength, withAccept.
  destruct (JS.truthy_ostr (contentLengthValue request));
    [rewrite lookup_set_ne by done |]; by rewrite lookup_default_ne.
Qed.

(** ** Content-Length *)

(** C4, as the code has it.  For every request with an absolute http(s) URL,
    [getNodeRequestOptions] returns, and the [Content-Length] it hands to the
    transport is: the exact byte length when the body's length is statically
    known (replacing a value the caller supplied); ["0"] when there is no body
    and the method is POST or PUT; and in every other case whatever the caller
    supplied, nothing if the caller supplied nothing, with the request marked
    as chunked. *)
Theorem content_length_computed (request : Request) (st : Store) :
  absoluteHTTP (parsedURL request) = true ->
  exists o request' st',
    getNodeRequestOptions request st = (Normal (o, request'), st') /\
    let sent := opt_headers o !! "content-length" in
    let supplied := Headers.deref st (headers request) !! "content-length" in
    match body request with
    | Some b =>
        match getTotalBytes b with
        | Some n => sent = Some [JS.String_of_number n] /\
                    chunkedEncoding request' = chunkedEncoding request
        | None => sent = supplied /\ chunkedEncoding request' = true
        end
    | None =>
        if is_POST_or_PUT (method request)
        then sent = Some ["0"] /\ chunkedEncoding request' = chunkedEncoding request
        else sent = supplied /\ chunkedEncoding request' = true
    end.
Proof.
  intros Habs. do 3 eexists. split; [by apply getNodeRequestOptions_ok |].
  cbn [opt_headers]. rewrite sent_content_length.
  unfold afterOptions, contentLengthValue.
  destruct (body request) as [b|] eqn:Hb.
  - rewrite bool_decide_eq_false_2 by done. cbn [andb].
    destruct (getTotalBytes b) as [n|]; cbn [JS.truthy_ostr default].
    + by rewrite truthy_String_of_number.
    + done.
  - rewrite bool_decide_eq_true_2 by done. cbn [andb].
    by destruct (is_POST_or_PUT (method request)).
Qed.

(** ** Default headers *)

(** C5, as the code has it.  For every request with an absolute http(s) URL,
    [Accept], [User-Agent] and [Connection] reach the transport with the
    caller's values when the caller supplied them and with the defaults
    otherwise, while [Accept-Encoding] is always [gzip,deflate], whatever the
    caller supplied. *)
Theorem default_headers_sent (request : Request) (st : Store) :
  absoluteHTTP (parsedURL request) = true ->
  exists o request' st',
    getNodeRequestOptions request st = (Normal (o, request'), st') /\
    let supplied := Headers.deref st (headers request) in
    opt_headers o !! "accept" = Some (default ["*/*"] (supplied !! "accept")) /\
    opt_headers o !! "user-agent"
      = Some (default [userAgent (useElectronNet request)] (supplied !! "user-agent")) /\
    opt_headers o !! "connection" = Some (default ["close"] (supplied !! "connection")) /\
    opt_headers o !! "accept-encoding" = Some ["gzip,deflate"].
Proof.
  intros Habs. do 3 eexists. split; [by apply getNodeRequestOptions_ok |].
  cbn [opt_headers].
  by rewrite sent_accept, sent_user_agent, sent_connection, sent_accept_encoding.
Qed.

(** ** The request's own headers are not touched *)

(** [getNodeRequestOptions] works on a copy: whatever the request, and whether
    the call returns or throws, every [Headers] object that existed before it
    holds the same entries afterwards; the only change to the store is the
    one new object. *)
Lemma getNodeRequestOptions_frame (request : Request) (st : Store) :
  let st' := snd (getNodeRequestOptions request st) in
  (forall (h : ref) (m : HeaderMap), st !! h = Some m -> st' !! h = Some m) /\
  exists copy : HeaderMap, st' = (st ++ [copy])%list.
Proof.
  intros st'.
  destruct (getNodeRequestOptions_allocates request st) as [copy Hst'].
  fold st' in Hst'. rewrite Hst'. split; [| by exists copy].
  intros h m Hh. rewrite lookup_app_l; [done | by eapply lookup_lt_Some].
Qed.

(** ** Construction of a request *)

Lemma Request_new_rejects (input : Input) (init : RequestInit) (st : Store) :
  suppliesBody input init = true ->
  suppliedMethod input init = "GET" \/ suppliedMethod input init = "HEAD" ->
  construct input init st = (Throw bodyTypeError, st).
Proof.
  intros Hbody Hm. unfold Request_new. rewrite Hbody.
  by destruct Hm as [-> | ->].
Qed.

Lemma Request_new_accepts (input : Input) (init : RequestInit) (st : Store) :
  suppliesBody input init = true ->
  suppliedMethod input init <> "GET" ->
  suppliedMethod input init <> "HEAD" ->
  otherChecksPass onElectron input init st = true ->
  exists request st',
    construct input init st = (Normal request, st') /\
    is_Some (body request) /\
    method request = JS.toUpperCase (suppliedMethod input init).
Proof.
  intros Hbody HG HH Hchk. unfold Request_new.
  apply String.eqb_neq in HG, HH. rewrite Hbody, HG, HH. cbn [andb orb].
  unfold otherChecksPass in Hchk.
  apply andb_prop in Hchk as [Hchk Hnet]. apply andb_prop in Hchk as [Hclone Hnew].
  destruct (Headers.new (headersInit input init) st) as [[h|e] st1] eqn:Hh; [|done].
  assert (Hnet' : default false (requestedElectronNet input init) && negb onElectron = false).
  { destruct (default false _), onElectron; done. }
  unfold suppliesBody in Hbody.
  destruct (init_body init) as [b|] eqn:Hib.
  - unfold bind at 1, ret at 1. unfold bind at 1. rewrite Hh, Hnet'.
    unfold bind at 1. cbn [mbind option_bind].
    destruct (extractContentType b) as [ct|].
    + unfold bind at 1, Headers.read at 1.
      destruct (negb (Headers.has (Headers.deref st1 h) "Content-Type"));
        (do 2 eexists; split; [reflexivity | split; [by eexists | reflexivity]]).
    + do 2 eexists. split; [reflexivity | split; [by eexists | reflexivity]].
  - rewrite bool_decide_eq_false_2 in Hbody, Hclone by (by intros [? ?]).
    cbn [orb] in Hbody, Hclone.
    destruct input as [u | r]; [done |].
    apply bool_decide_eq_true_1 in Hbody as [b Hb]. rewrite Hb.
    unfold bind at 1, clone. apply negb_true_iff in Hclone. rewrite Hclone, Hb.
    unfold ret at 1. unfold bind at 1. rewrite Hh, Hnet'.
    do 2 eexists. split; [reflexivity | split; [by eexists | reflexivity]].
Qed.

(** The body check on the method as it is supplied.  A construction that
    supplies a body (in the options, or through the request it copies) with
    the method [GET] or [HEAD] in exactly this spelling throws the type error,
    leaves the store as it was, and [fetch] then rejects without a single
    transport call.  With a body and any other string for the method the
    construction succeeds, given that the constructor's other checks pass, and
    the request carries the body: also when that string is [get] or [head] in
    lower case, which the constructor goes on to upper-case. *)
Theorem body_with_GET_or_HEAD (input : Input) (init : RequestInit) (st : Store) :
  suppliesBody input init = true ->
  (suppliedMethod input init = "GET" \/ suppliedMethod input init = "HEAD" ->
   construct input init st = (Throw bodyTypeError, st) /\
   forall n : nat, run (S n) input init st = (([], Thrown bodyTypeError), st)) /\
  (suppliedMethod input init <> "GET" ->
   suppliedMethod input init <> "HEAD" ->
   otherChecksPass onElectron input init st = true ->
   exists request st',
     construct input init st = (Normal request, st') /\
     is_Some (body request) /\
     method request = JS.toUpperCase (suppliedMethod input init)).
Proof.
  intros Hbody. split.
  - intros Hm. split; [by apply Request_new_rejects |].
    intros n. cbn [fetch]. by rewrite Request_new_rejects.
  - by apply Request_new_accepts.
Qed.

(** ** The response handler: redirects *)

Lemma isRedirect_spec (code : Z) :
  isRedirect code = true <->
  code = 301 \/ code = 302 \/ code = 303 \/ code = 307 \/ code = 308.
Proof. unfold isRedirect. rewrite !orb_true_iff, !Z.eqb_eq. tauto. Qed.

Lemma rewritesToGET_spec (code : Z) (m : string) :
  rewritesToGET code m = true <->
  code = 303 \/ ((code = 301 \/ code = 302) /\ m = "POST").
Proof.
  unfold rewritesToGET.
  rewrite !orb_true_iff, andb_true_iff, orb_true_iff, !Z.eqb_eq, String.eqb_eq.
  tauto.
Qed.

(** [request.headers.delete('content-length')] on the store. *)
Lemma delete_content_length (st : Store) (h : ref) :
  let st' := <[h := Headers.delete (Headers.deref st h) "content-length"]> st in
  Headers.has (Headers.deref st' h) "Content-Length" = false /\
  forall k : string, k <> "content-length" ->
    Headers.deref st' h !! k = Headers.deref st h !! k.
Proof.
  intros st'. unfold st', Headers.deref.
  destruct (st !! h) as [m|] eqn:Hm.
  - rewrite list_lookup_insert_eq by (by eapply lookup_lt_Some).
    cbn [default from_option id]. split.
    + rewrite has_lookup. apply bool_decide_eq_false_2. intros [l Hl].
      unfold Headers.delete in Hl.
      change (Headers.sanitizeName "Content-Length") with "content-length" in Hl.
      change (Headers.sanitizeName "content-length") with "content-length" in Hl.
      by rewrite lookup_delete_eq in Hl.
    + intros k Hk. unfold Headers.delete. by rewrite lookup_delete_ne.
  - rewrite list_insert_ge by (by apply lookup_ge_None).
    rewrite Hm. cbn [default from_option id]. split; [| done].
    rewrite has_lookup. apply bool_decide_eq_false_2. intros [l Hl].
    by rewrite lookup_empty in Hl.
Qed.

(** A redirect that is followed: what the handler resolves the promise with,
    and the request it leaves behind. *)
Lemma onResponse_follows (request : Request) (res : IncomingMessage) (st : Store) :
  follows request res = true ->
  let rewritten :=
    statusCode res = 303 \/
    ((statusCode res = 301 \/ statusCode res = 302) /\ method request = "POST") in
  exists (location : RawHeader) (request' : Request) (st' : Store),
    rawHeader (rawHeaders res) "location" = Some location /\
    respond request res st
    = (Normal (Redirect (resolveURL (urlOf request) location) request'), st') /\
    counter request' = counter request + 1 /\
    headers request' = headers request /\
    (rewritten ->
     method request' = "GET" /\
     body request' = None /\
     Headers.has (Headers.deref st' (headers request')) "Content-Length" = false /\
     (forall k : string, k <> "content-length" ->
        Headers.deref st' (headers request') !! k
        = Headers.deref st (headers request) !! k)) /\
    (~ rewritten ->
     method request' = method request /\
     body request' = body request /\
     st' = st).
Proof.
  intros Hf rewritten. unfold follows in Hf.
  repeat (apply andb_prop in Hf as [Hf ?]).
  destruct (rawHeader (rawHeaders res) "location") as [location|] eqn:Hloc; [|done].
  unfold onResponse. rewrite Hloc, Hf.
  repeat match goal with H : negb _ = true |- _ => apply negb_true_iff in H; rewrite H end.
  match goal with H : truthy_raw _ = true |- _ => rewrite H end.
  cbn [negb andb default from_option id].
  pose proof (rewritesToGET_spec (statusCode res) (method request)) as Hspec.
  fold rewritten in Hspec.
  destruct (rewritesToGET (statusCode res) (method request)).
  - unfold bind at 1. unfold bind at 1, Headers.update at 1. unfold ret at 1.
    do 3 eexists. do 4 (split; [reflexivity |]).
    cbn [method body headers set_counter set_body set_method].
    split.
    + intros _. do 2 (split; [reflexivity |]). apply delete_content_length.
    + intros Hn. destruct Hn. by apply Hspec.
  - unfold bind at 1, ret at 1.
    do 3 eexists. do 4 (split; [reflexivity |]).
    split.
    + intros Hr. apply Hspec in Hr. discriminate.
    + intros _. by cbn.
Qed.

(** C2.  For a redirect status and a policy other than [manual], the handler
    rejects with [no-redirect] when the policy is [error], whatever the counter
    and the headers; otherwise with [max-redirect] when the counter has reached
    the follow limit; otherwise with [invalid-redirect] when there is no
    [Location] header; and it follows the redirect only when none of the three
    holds. *)
Theorem redirect_rejections (request : Request) (res : IncomingMessage) (st : Store) :
  isRedirect (statusCode res) = true ->
  redirect request <> "manual" ->
  (redirect request = "error" ->
   respond request res st
   = (Normal (Reject (mkFetchError
                        ("redirect mode is set to error: " ++ urlOf request)
                        "no-redirect")), st)) /\
  (redirect request <> "error" ->
   follow request <= counter request ->
   respond request res st
   = (Normal (Reject (mkFetchError
                        ("maximum redirect reached at: " ++ urlOf request)
                        "max-redirect")), st)) /\
  (redirect request <> "error" ->
   counter request < follow request ->
   rawHeader (rawHeaders res) "location" = None ->
   respond request res st
   = (Normal (Reject (mkFetchError
                        ("redirect location header missing at: " ++ urlOf request)
                        "invalid-redirect")), st)) /\
  (forall next request' st',
     respond request res st = (Normal (Redirect next request'), st') ->
     redirect request <> "error" /\
     counter request < follow request /\
     is_Some (rawHeader (rawHeaders res) "location")).
Proof.
  intros Hred Hman. apply String.eqb_neq in Hman.
  unfold onResponse. rewrite Hred, Hman. cbn [negb andb].
  split; [| split; [| split]].
  - intros ->. reflexivity.
  - intros Herr Hge. apply String.eqb_neq in Herr. rewrite Herr.
    by rewrite (proj2 (Z.geb_le _ _) Hge).
  - intros Herr Hlt Hloc. apply String.eqb_neq in Herr. rewrite Herr, Hloc.
    destruct (counter request >=? follow request) eqn:Hge; [| reflexivity].
    apply Z.geb_le in Hge. lia.
  - intros next request' st' Hrun.
    destruct (redirect request =s? "error") eqn:Herr; [discriminate |].
    destruct (counter request >=? follow request) eqn:Hge; [discriminate |].
    destruct (rawHeader (rawHeaders res) "location") eqn:Hloc; [| discriminate].
    apply String.eqb_neq in Herr. rewrite Z.geb_leb in Hge. apply Z.leb_gt in Hge.
    split; [done |]. split; [lia | by eexists].
Qed.

(** ** The response handler: content decoding *)

Lemma responseHeaders_codings (request : Request) (res : IncomingMessage) :
  Headers.get (responseHeaders formatURL resolveURL request res) "Content-Encoding"
  = codingsOf res.
Proof.
  unfold responseHeaders, codingsOf, Headers.get.
  destruct (_ && _); [| done].
  by rewrite lookup_set_ne.
Qed.

(** The handler on a response that is finalized, in closed form. *)
Lemma onResponse_finalizes (request : Request) (res : IncomingMessage) (st : Store) :
  finalizes request res = true ->
  let o := responseOptions formatURL request res (length st) in
  let c := default "" (codingsOf res) in
  respond request res st
  = (Normal
       (if decodes request res (codingsOf res) then
          if (c =s? "gzip") || (c =s? "x-gzip")
          then Resolve (Response_new (chunks res) Gunzip o)
          else if (c =s? "deflate") || (c =s? "x-deflate")
          then AwaitFirstChunk (chunks res) o
          else Resolve (Response_new (chunks res) PassThrough o)
        else Resolve (Response_new (chunks res) PassThrough o)),
     (st ++ [responseHeaders formatURL resolveURL request res])%list).
Proof.
  intros Hfin o c. apply negb_true_iff in Hfin.
  unfold onResponse. rewrite Hfin.
  unfold bind at 1, Headers.alloc at 1.
  unfold bind at 1, Headers.read at 1. rewrite deref_alloc.
  unfold bind at 1. rewrite update_when_alloc.
  fold (responseHeaders formatURL resolveURL request res).
  unfold bind at 1, Headers.read at 1. rewrite deref_alloc.
  rewrite responseHeaders_codings. fold o. fold c.
  destruct (decodes request res (codingsOf res)); [| reflexivity].
  destruct ((c =s? "gzip") || (c =s? "x-gzip")); [reflexivity |].
  by destruct ((c =s? "deflate") || (c =s? "x-deflate")).
Qed.

Lemma decodes_false_iff (request : Request) (res : IncomingMessage) :
  decodes request res (codingsOf res) = false <-> skipsDecoding request res.
Proof.
  unfold decodes, skipsDecoding.
  rewrite !andb_false_iff, !negb_false_iff, String.eqb_eq, !Z.eqb_eq.
  rewrite bool_decide_eq_false, <- eq_None_not_Some. tauto.
Qed.

(** C3.  For every response that is finalized: under any of the skip
    conditions (the transport decodes by itself, the method is HEAD, there is
    no [Content-Encoding], the status is 204 or 304) the response resolves with
    the body as received.  Under none of them, [gzip] and [x-gzip] resolve with
    the gunzip transform; [deflate] and [x-deflate] wait for the first chunk
    and resolve with zlib-wrapped inflate when its first byte [b] has
    [b land 15 = 8] and with raw inflate otherwise; every other value resolves
    with the body as received. *)
Theorem decoding_selected (request : Request) (res : IncomingMessage) (st : Store) :
  finalizes request res = true ->
  exists (o : ResponseOptions) (st' : Store),
    (skipsDecoding request res ->
     respond request res st
     = (Normal (Resolve (Response_new (chunks res) PassThrough o)), st')) /\
    (~ skipsDecoding request res ->
     (codingsOf res = Some "gzip" \/ codingsOf res = Some "x-gzip" ->
      respond request res st
      = (Normal (Resolve (Response_new (chunks res) Gunzip o)), st')) /\
     (codingsOf res = Some "deflate" \/ codingsOf res = Some "x-deflate" ->
      respond request res st = (Normal (AwaitFirstChunk (chunks res) o), st') /\
      forall (b : ascii) (rest : string),
        onFirstChunk (chunks res) o (String b rest)
        = Response_new (chunks res)
            (if Z.land (Z.of_nat (nat_of_ascii b)) 15 =? 8 then Inflate else InflateRaw)
            o) /\
     (forall c : string,
        codingsOf res = Some c ->
        c <> "gzip" -> c <> "x-gzip" -> c <> "deflate" -> c <> "x-deflate" ->
        respond request res st
        = (Normal (Resolve (Response_new (chunks res) PassThrough o)), st'))).
Proof.
  intros Hfin.
  exists (responseOptions formatURL request res (length st)),
         (st ++ [responseHeaders formatURL resolveURL request res])%list.
  rewrite (onResponse_finalizes _ _ _ Hfin).
  split.
  - intros Hskip. apply decodes_false_iff in Hskip. by rewrite Hskip.
  - intros Hno.
    assert (Hdec : decodes request res (codingsOf res) = true).
    { destruct (decodes request res (codingsOf res)) eqn:Hd; [done |].
      by apply decodes_false_iff in Hd. }
    rewrite Hdec. split; [| split].
    + by intros [-> | ->].
    + intros Hdeflate. split; [by destruct Hdeflate as [-> | ->] |].
      intros b rest. unfold onFirstChunk, looksZlibWrapped.
      by destruct (Z.land _ _ =? 8).
    + intros c -> H1 H2 H3 H4. cbn [default from_option id].
      apply String.eqb_neq in H1, H2, H3, H4. by rewrite H1, H2, H3, H4.
Qed.

(** ** One exchange: the timeout race *)

(** The handler never throws, and the errors it rejects with are the three
    redirect errors. *)
Lemma onResponse_normal (request : Request) (res : IncomingMessage) (st : Store) :
  exists r st',
    respond request res st = (Normal r, st') /\
    forall e, r = Reject e ->
      fe_type e = "no-redirect" \/ fe_type e = "max-redirect" \/
      fe_type e = "invalid-redirect".
Proof.
  destruct (finalizes request res) eqn:Hfin.
  - rewrite (onResponse_finalizes _ _ _ Hfin). do 2 eexists. split; [done |].
    intros e.
    destruct (decodes _ _ _); [| done].
    destruct (_ || _); [done |]. by destruct (_ || _).
  - apply negb_false_iff in Hfin. unfold onResponse. rewrite Hfin.
    destruct (redirect request =s? "error").
    { do 2 eexists. split; [done |]. intros e [= <-]. by left. }
    destruct (counter request >=? follow request).
    { do 2 eexists. split; [done |]. intros e [= <-]. right. by left. }
    destruct (negb (truthy_raw (rawHeader (rawHeaders res) "location"))).
    { do 2 eexists. split; [done |]. intros e [= <-]. right. by right. }
    destruct (rewritesToGET (statusCode res) (method request));
      do 2 eexists; (split; [reflexivity | done]).
Qed.

Lemma handle_normal (e : Event) (x : Exchange) (st : Store) :
  exists x' st', handleEvent e x st = (Normal x', st').
Proof.
  destruct e as [| message | res | chunk]; try by do 2 eexists.
  cbn [handle]. unfold onResponseEvent, bind.
  destruct (onResponse_normal (ex_request (clearTimer x)) res st)
    as (r & st' & -> & _).
  by do 2 eexists.
Qed.

Lemma deliver_app (es1 es2 : list Event) (x : Exchange) (st : Store) :
  deliverAll (es1 ++ es2) x st
  = deliverAll es2 (fst (deliverAll es1 x st)) (snd (deliverAll es1 x st)).
Proof.
  revert x st. induction es1 as [| e es1 IH]; intros x st; [reflexivity |].
  cbn [app deliver].
  destruct (handle_normal e x st) as (x' & st' & ->). apply IH.
Qed.

Lemma settle_timer (s : Settlement) (x : Exchange) :
  ex_timer (settle s x) = ex_timer x /\ ex_aborted (settle s x) = ex_aborted x.
Proof. unfold settle. by destruct (ex_promise x). Qed.

Lemma settle_not_timedOut (s : Settlement) (x : Exchange) :
  ~ timedOut x ->
  (forall e, s = Rejected e -> fe_type e <> "request-timeout") ->
  ~ timedOut (settle s x).
Proof.
  intros Hx Hs. unfold settle.
  destruct (ex_promise x) eqn:Hp; [done |].
  intros (e & Hpe & Hty). cbn in Hpe. injection Hpe as ->. by eapply Hs.
Qed.

Lemma disarmed_settle (s : Settlement) (x : Exchange) :
  disarmed x ->
  (forall e, s = Rejected e -> fe_type e <> "request-timeout") ->
  disarmed (settle s x).
Proof.
  intros (Ht & Ha & Hn) Hs. unfold disarmed.
  destruct (settle_timer s x) as [-> ->].
  split; [done |]. split; [done |]. by apply settle_not_timedOut.
Qed.

Lemma disarmed_handle (e : Event) (x x' : Exchange) (st st' : Store) :
  disarmed x -> handleEvent e x st = (Normal x', st') -> disarmed x'.
Proof.
  intros Hx Hrun. destruct e as [| message | res | chunk]; cbn [handle] in Hrun.
  - pose proof Hx as (Ht & _). rewrite Ht in Hrun. by injection Hrun as <- _.
  - injection Hrun as <- _. unfold onError. apply disarmed_settle.
    + destruct Hx as (? & ? & ?). by repeat split.
    + intros e [= <-]. discriminate.
  - unfold onResponseEvent, bind in Hrun.
    assert (Hc : disarmed (clearTimer x)).
    { destruct Hx as (? & ? & ?). by repeat split. }
    destruct (onResponse_normal (ex_request (clearTimer x)) res st)
      as (r & st1 & Hr & Hty).
    rewrite Hr in Hrun. injection Hrun as <- _.
    destruct r as [e | next request' | response | source o].
    + apply disarmed_settle; [done |]. intros e' [= <-].
      destruct (Hty e eq_refl) as [-> | [-> | ->]]; discriminate.
    + apply disarmed_settle; [| done].
      destruct Hc as (? & ? & ?). by repeat split.
    + by apply disarmed_settle.
    + destruct Hc as (? & ? & ?). by repeat split.
  - injection Hrun as <- _. unfold onRawData.
    destruct (ex_raw x) as [[source o] |]; [| done].
    apply disarmed_settle; [| done].
    destruct Hx as (? & ? & ?). by repeat split.
Qed.

Lemma disarmed_deliver (es : list Event) (x : Exchange) (st : Store) :
  disarmed x -> disarmed (fst (deliverAll es x st)).
Proof.
  revert x st. induction es as [| e es IH]; intros x st Hx; [done |].
  cbn [deliver]. destruct (handle_normal e x st) as (x' & st' & Hrun).
  rewrite Hrun. apply IH. by eapply disarmed_handle.
Qed.

(** The first of the headers and a transport error disarms the timer: both
    handlers begin with [clearTimeout]. *)
Lemma handle_disarms (e : Event) (request : Request) (x' : Exchange) (st st' : Store) :
  beforeHeaders e = false ->
  handleEvent e (start request) st = (Normal x', st') ->
  disarmed x'.
Proof.
  intros He Hrun.
  assert (Hc : disarmed (clearTimer (start request))).
  { repeat split. intros (e' & Hp & _). discriminate. }
  apply (disarmed_handle e (clearTimer (start request)) x' st st' Hc).
  by destruct e.
Qed.

Lemma waiting_deliver (request : Request) (es : list Event) (x : Exchange) (st : Store) :
  forallb beforeHeaders es = true ->
  waiting formatURL request x ->
  waiting formatURL request (fst (deliverAll es x st)) /\ snd (deliverAll es x st) = st.
Proof.
  revert x. induction es as [| e es IH]; intros x Hes Hx; [done |].
  cbn [forallb] in Hes. apply andb_prop in Hes as [He Hes].
  destruct e as [| message | res | chunk]; try done; cbn [deliver handle ret].
  - apply (IH _ Hes). destruct Hx as [-> | ->]; cbn [ex_timer start].
    + destruct (negb (timeout request =? 0)); [right; reflexivity | by left].
    + right; reflexivity.
  - apply (IH _ Hes). destruct Hx as [-> | ->]; [left | right]; reflexivity.
Qed.

(** C7.  With a non-zero timeout the timer is armed when the request is sent.
    If it fires before the headers or a transport error have arrived, the
    transport request is aborted and the promise is rejected with the
    request-timeout error.  If the headers or a transport error arrive first,
    the timer is disarmed, and whatever events follow, it stays disarmed, the
    transport request is not aborted, and the promise is not rejected with a
    timeout. *)
Theorem timeout_race (request : Request) (st : Store) :
  0 < timeout request ->
  ex_timer (start request) = true /\
  (forall pre : list Event,
     forallb beforeHeaders pre = true ->
     let x := fst (deliverAll (pre ++ [TimerFired]) (start request) st) in
     ex_aborted x = true /\
     ex_promise x = Some (Rejected (timeoutError formatURL request))) /\
  (forall (e : Event) (rest : list Event),
     beforeHeaders e = false ->
     let x := fst (deliverAll (e :: rest) (start request) st) in
     ex_timer x = false /\ ex_aborted x = false /\ ~ timedOut x).
Proof.
  intros Hpos.
  assert (Harmed : ex_timer (start request) = true).
  { cbn. apply negb_true_iff, Z.eqb_neq. lia. }
  split; [exact Harmed |]. split.
  - intros pre Hpre x. unfold x. rewrite deliver_app.
    destruct (waiting_deliver request pre (start request) st Hpre) as [Hw _];
      [by left |].
    cbn [deliver handle ret fst].
    destruct Hw as [-> | ->]; [| done].
    rewrite Harmed. done.
  - intros e rest He x. unfold x. cbn [deliver].
    destruct (handle_normal e (start request) st) as (x1 & st1 & Hrun).
    rewrite Hrun. apply disarmed_deliver.
    by eapply handle_disarms.
Qed.

(** ** The [compress] option *)

Lemma Request_new_compress (input : Input) (init : RequestInit) (c : option bool) :
  construct input (set_compress init c) = construct input init.
Proof. reflexivity. Qed.

Lemma afterOptions_decoding (request : Request) (res : IncomingMessage)
    (codings : option string) :
  finalizes (afterOptions request) res = finalizes request res /\
  decodes (afterOptions request) res codings = decodes request res codings.
Proof. unfold afterOptions. by destruct (JS.truthy_ostr _). Qed.

(** A fetch whose transport answers the first call with the headers of a
    response that is finalized, and then with the given chunks. *)
Lemma fetch_finalized (n : nat) (input : Input) (init : RequestInit) (st : Store)
    (request : Request) (st1 : Store) (res : IncomingMessage) (data : list string) :
  construct input init st = (Normal request, st1) ->
  absoluteHTTP (parsedURL request) = true ->
  finalizes request res = true ->
  let o := hostHack {| opt_url := parsedURL request;
                       opt_method := method request;
                       opt_headers :=
                         sentHeaders request (Headers.deref st1 (headers request)) |} in
  transport o = ResponseReceived res :: map RawData data ->
  exists (ro : ResponseOptions) (st3 : Store),
    run (S n) input init st
    = (([o],
        let c := default "" (codingsOf res) in
        if decodes request res (codingsOf res) then
          if (c =s? "gzip") || (c =s? "x-gzip")
          then Done (Response_new (chunks res) Gunzip ro)
          else if (c =s? "deflate") || (c =s? "x-deflate")
          then match data with
               | [] => Pending
               | chunk :: _ => Done (onFirstChunk (chunks res) ro chunk)
               end
          else Done (Response_new (chunks res) PassThrough ro)
        else Done (Response_new (chunks res) PassThrough ro)), st3).
Proof.
  intros Hnew Habs Hfin o Htransport.
  destruct (afterOptions_decoding request res (codingsOf res)) as [Hfin' Hdec'].
  rewrite <- Hfin' in Hfin.
  cbn [fetch]. rewrite Hnew, (getNodeRequestOptions_ok _ _ Habs).
  fold o. rewrite Htransport. cbn [deliver handle].
  unfold onResponseEvent, bind. cbn [ex_request clearTimer start].
  rewrite (onResponse_finalizes _ _ _ Hfin), Hdec'.
  set (ro := responseOptions formatURL (afterOptions request) res _).
  set (st3 := (_ ++ [responseHeaders formatURL resolveURL (afterOptions request) res])%list).
  exists ro, st3. unfold ret.
  assert (Hlater : forall (response : Response) (x : Exchange) (es : list string),
            ex_promise x = Some (Fulfilled response) ->
            ex_promise (fst (deliverAll (map RawData es) x st3))
            = Some (Fulfilled response)).
  { intros response x es. revert x. induction es as [| e es IH]; intros x Hp; [done |].
    cbn [map deliver handle ret]. apply IH. unfold onRawData.
    destruct (ex_raw x) as [[source o'] |]; [| done].
    unfold settle. cbn [ex_promise]. by rewrite Hp. }
  assert (Hdone : forall (es : list string) (response : Response) (x : Exchange),
            ex_promise x = Some (Fulfilled response) ->
            (let '(x', st') := deliverAll (map RawData es) x st3 in
             match ex_promise x' with
             | None => (([o], Pending), st')
             | Some (Rejected e) => (([o], Failed e), st')
             | Some (Fulfilled r) => (([o], Done r), st')
             | Some (Following next q) =>
                 let '((calls, out), st'') := run n (InputURL next) (as_init q) st' in
                 ((o :: calls, out), st'')
             end) = (([o], Done response), st3)).
  { intros es response x Hp. pose proof (Hlater response x es Hp) as Hl.
    assert (Hst : forall (es' : list string) (y : Exchange),
              snd (deliverAll (map RawData es') y st3) = st3).
    { induction es' as [| e es' IH]; intros y; [done |]. cbn [map deliver handle ret].
      apply IH. }
    specialize (Hst es x).
    destruct (deliverAll (map RawData es) x st3) as [x' st'].
    cbn [fst snd] in Hl, Hst. by rewrite Hl, Hst. }
  destruct (decodes request res (codingsOf res)).
  - destruct ((_ =s? "gzip") || _).
    + by rewrite Hdone with (response := Response_new (chunks res) Gunzip ro).
    + destruct ((_ =s? "deflate") || _).
      * destruct data as [| chunk data]; [done |].
        cbn [map deliver handle ret]. unfold onRawData at 1. cbn [ex_raw].
        by rewrite Hdone with (response := onFirstChunk (chunks res) ro chunk).
      * by rewrite Hdone with (response := Response_new (chunks res) PassThrough ro).
  - by rewrite Hdone with (response := Response_new (chunks res) PassThrough ro).
Qed.

(** C9, as the code has it.  No [compress] property is read: whatever it is
    set to, and whether it is set at all, [fetch] makes the same transport
    calls and settles in the same way, and every call carries
    [Accept-Encoding: gzip,deflate].  Whether the body of a response is
    decoded is decided by the response: under none of the skip conditions of
    the response handler, a coding of [gzip] or [x-gzip] resolves with the
    body piped through gunzip, and one of [deflate] or [x-deflate] with the
    body piped through the inflate transform that the first chunk selects;
    under a skip condition, or with any other coding, it resolves with the
    body as received. *)
Theorem compress_is_not_read (n : nat) (input : Input) (init : RequestInit)
    (c : option bool) (st : Store) :
  run n input (set_compress init c) st = run n input init st
  /\
  forall (request : Request) (st1 : Store) o request' st2,
    construct input (set_compress init c) st = (Normal request, st1) ->
    getNodeRequestOptions request st1 = (Normal (o, request'), st2) ->
    opt_headers o !! "accept-encoding" = Some ["gzip,deflate"] /\
    forall res : IncomingMessage,
      finalizes request res = true ->
      (~ skipsDecoding request res ->
       codingsOf res = Some "gzip" \/ codingsOf res = Some "x-gzip" ->
       transport (hostHack o) = [ResponseReceived res] ->
       exists response st3,
         run (S n) input (set_compress init c) st
         = (([hostHack o], Done response), st3) /\
         resp_decoder response = Gunzip) /\
      (~ skipsDecoding request res ->
       codingsOf res = Some "deflate" \/ codingsOf res = Some "x-deflate" ->
       forall chunk : string,
         transport (hostHack o) = [ResponseReceived res; RawData chunk] ->
         exists response st3,
           run (S n) input (set_compress init c) st
           = (([hostHack o], Done response), st3) /\
           resp_decoder response
           = if looksZlibWrapped chunk then Inflate else InflateRaw) /\
      (skipsDecoding request res \/
       (forall x : string,
          codingsOf res = Some x ->
          x <> "gzip" /\ x <> "x-gzip" /\ x <> "deflate" /\ x <> "x-deflate") ->
       transport (hostHack o) = [ResponseReceived res] ->
       exists response st3,
         run (S n) input (set_compress init c) st
         = (([hostHack o], Done response), st3) /\
         resp_decoder response = PassThrough).
Proof.
  split.
  { destruct n as [| n]; [reflexivity |].
    cbn [fetch]. by rewrite Request_new_compress. }
  intros request st1 o request' st2 Hnew Hopt.
  destruct (absoluteHTTP (parsedURL request)) eqn:Habs; cycle 1.
  { destruct (getNodeRequestOptions_throws request st1 Habs) as (e & m & Hthrow).
    rewrite Hthrow in Hopt. discriminate. }
  rewrite getNodeRequestOptions_ok in Hopt by done.
  injection Hopt as <- _ _. split; [apply sent_accept_encoding |].
  intros res Hfin.
  assert (Hskip : skipsDecoding request res ->
                  decodes request res (codingsOf res) = false)
    by (by intros H; apply decodes_false_iff).
  assert (Hno : ~ skipsDecoding request res ->
                decodes request res (codingsOf res) = true).
  { intros H. destruct (decodes request res (codingsOf res)) eqn:Hd; [done |].
    by apply decodes_false_iff in Hd. }
  split; [| split].
  - intros Hn Hc Htransport.
    destruct (fetch_finalized n input (set_compress init c) st request st1 res []
                Hnew Habs Hfin Htransport) as (ro & st3 & Hrun).
    rewrite Hrun, (Hno Hn). do 2 eexists.
    by destruct Hc as [-> | ->].
  - intros Hn Hc chunk Htransport.
    destruct (fetch_finalized n input (set_compress init c) st request st1 res [chunk]
                Hnew Habs Hfin Htransport) as (ro & st3 & Hrun).
    rewrite Hrun, (Hno Hn). do 2 eexists.
    split; [by destruct Hc as [-> | ->] |].
    unfold onFirstChunk. by destruct (looksZlibWrapped chunk).
  - intros Hc Htransport.
    destruct (fetch_finalized n input (set_compress init c) st request st1 res []
                Hnew Habs Hfin Htransport) as (ro & st3 & Hrun).
    rewrite Hrun. do 2 eexists.
    destruct Hc as [Hs | Hother]; [by rewrite (Hskip Hs) |].
    destruct (decodes request res (codingsOf res)); [| done].
    destruct (codingsOf res) as [x |] eqn:Hx; [| done].
    destruct (Hother x eq_refl) as (H1 & H2 & H3 & H4).
    apply String.eqb_neq in H1, H2, H3, H4. cbn [default from_option id].
    by rewrite H1, H2, H3, H4.
Qed.

(** ** The whole fetch: objects of the caller, and the length of a chain *)

Lemma prefix_update (st0 st : Store) (h : ref) (m : HeaderMap) :
  st0 `prefix_of` st -> (length st0 <= h)%nat -> st0 `prefix_of` <[h := m]> st.
Proof.
  intros [k ->] Hle. exists (<[(h - length st0)%nat := m]> k).
  by apply insert_app_r_alt.
Qed.

Lemma Headers_new_store (hi : Headers.Init) (st : Store) :
  (exists m, Headers.new hi st = (Normal (length st), (st ++ [m])%list)) \/
  (exists e, Headers.new hi st = (Throw e, st)).
Proof.
  destruct hi as [h | kvs | kvs |]; cbn [Headers.new].
  - left. by eexists.
  - destruct (Headers.appendAll kvs ∅); [left | right]; by eexists.
  - destruct (Headers.appendAll kvs ∅); [left | right]; by eexists.
  - right. by eexists.
Qed.

(** The constructor allocates at most one object, the new request's
    [Headers], and touches no other. *)
Lemma Request_new_store (input : Input) (init : RequestInit) (st : Store) :
  match construct input init st with
  | (Normal request, st') =>
      (exists m, st' = (st ++ [m])%list) /\
      headers request = length st /\
      follow request = followOf input init /\
      counter request = counterOf input init
  | (Throw _, st') => st `prefix_of` st'
  end.
Proof.
  unfold Request_new.
  destruct (suppliesBody input init && _); [cbv [throw]; reflexivity |].
  unfold bind at 1.
  set (getBody := match init_body init with Some b => _ | None => _ end).
  assert (HgetBody : (exists b, getBody st = (Normal b, st)) \/
                     (exists e, getBody st = (Throw e, st))).
  { unfold getBody. destruct (init_body init); [left; by eexists |].
    destruct input as [u | r]; [left; by eexists |].
    destruct (body r); [| left; by eexists].
    unfold clone. destruct (bodyUsed r); [right | left]; by eexists. }
  destruct HgetBody as [[inputBody ->] | [e ->]]; [| reflexivity].
  unfold bind at 1.
  destruct (Headers_new_store (headersInit input init) st) as [[m ->] | [e ->]];
    [| reflexivity].
  destruct (default false (requestedElectronNet input init) && negb onElectron).
  { cbv [throw]. by apply prefix_app_r. }
  unfold bind at 1.
  set (contentType := match init_body init with Some _ => _ | None => _ end).
  assert (HcontentType : exists m', contentType (st ++ [m])%list
                                    = (Normal tt, (st ++ [m'])%list)).
  { unfold contentType. destruct (init_body init); [| by eexists].
    destruct (inputBody ≫= extractContentType); [| by eexists].
    unfold bind, Headers.read. rewrite deref_alloc.
    destruct (negb (Headers.has m "Content-Type")); [| by eexists].
    rewrite update_alloc. by eexists. }
  destruct HcontentType as [m' ->].
  cbn [ret headers follow counter].
  split; [by eexists |]. split; [done |]. split.
  - unfold followOf. destruct (init_follow init), input; reflexivity.
  - unfold counterOf. by destruct input.
Qed.

Lemma onResponse_redirect (request : Request) (res : IncomingMessage) (st : Store)
    (next : string) (request' : Request) (st' : Store) :
  respond request res st = (Normal (Redirect next request'), st') ->
  follows request res = true /\ request' = redirected request res.
Proof.
  intros Hrun. unfold follows, redirected.
  destruct (finalizes request res) eqn:Hfin.
  { rewrite (onResponse_finalizes _ _ _ Hfin) in Hrun. exfalso.
    destruct (decodes _ _ _); [| discriminate].
    destruct (_ || _); [discriminate |]. by destruct (_ || _). }
  apply negb_false_iff in Hfin. revert Hrun. unfold onResponse. rewrite Hfin.
  cbn [andb].
  destruct (redirect request =s? "error"); [discriminate |].
  destruct (counter request >=? follow request); [discriminate |].
  destruct (truthy_raw (rawHeader (rawHeaders res) "location")); [| discriminate].
  cbn [negb andb].
  destruct (rewritesToGET (statusCode res) (method request)).
  - unfold bind, Headers.update, ret. by intros [= _ <- _].
  - unfold bind, ret. by intros [= _ <- _].
Qed.

(** What the handler does to the store: it writes to the request's own
    [Headers] or allocates the response's. *)
Lemma onResponse_store (request : Request) (res : IncomingMessage) (st : Store) :
  (exists m, snd (respond request res st) = <[headers request := m]> st) \/
  (exists m, snd (respond request res st) = (st ++ [m])%list) \/
  snd (respond request res st) = st.
Proof.
  destruct (finalizes request res) eqn:Hfin.
  { rewrite (onResponse_finalizes _ _ _ Hfin). right. left. by eexists. }
  apply negb_false_iff in Hfin. unfold onResponse. rewrite Hfin.
  destruct (redirect request =s? "error"); [by right; right |].
  destruct (counter request >=? follow request); [by right; right |].
  destruct (negb (truthy_raw (rawHeader (rawHeaders res) "location")));
    [by right; right |].
  destruct (rewritesToGET (statusCode res) (method request)).
  - left. by eexists.
  - by right; right.
Qed.

Lemma settle_following (s : Settlement) (x : Exchange) (next : string) (q : Request) :
  ex_promise (settle s x) = Some (Following next q) ->
  ex_promise x = Some (Following next q) \/ s = Following next q.
Proof.
  unfold settle. destruct (ex_promise x) eqn:Hp.
  - intros H. cbn in H. rewrite Hp in H. by left.
  - cbn. intros [= ->]. by right.
Qed.

Lemma settle_request (s : Settlement) (x : Exchange) :
  ex_request (settle s x) = ex_request x.
Proof. unfold settle. by destruct (ex_promise x). Qed.

Lemma chained_settle (st0 : Store) (request : Request) (x : Exchange) (st : Store)
    (s : Settlement) :
  chained st0 request x st ->
  (forall next q, s <> Following next q) ->
  chained st0 request (settle s x) st.
Proof.
  intros (Hh & Hf & Hc & Hp & Hq) Hs. unfold chained.
  rewrite settle_request. do 4 (split; [done |]).
  intros next q Hfol. apply settle_following in Hfol as [Hfol | ->].
  - by apply (Hq next).
  - by destruct (Hs next q).
Qed.

Lemma chained_same (st0 : Store) (request : Request) (x y : Exchange) (st : Store) :
  chained st0 request x st ->
  ex_request y = ex_request x ->
  ex_promise y = ex_promise x ->
  chained st0 request y st.
Proof. unfold chained. by intros Hx -> ->. Qed.

Lemma redirected_fields (p : Request) (res : IncomingMessage) :
  headers (redirected p res) = headers p /\
  follow (redirected p res) = follow p /\
  counter (redirected p res) = counter p + 1.
Proof. unfold redirected. by destruct (rewritesToGET (statusCode res) (method p)). Qed.

Lemma follows_below_limit (p : Request) (res : IncomingMessage) :
  follows p res = true -> counter p < follow p.
Proof.
  unfold follows. intros Hf. repeat (apply andb_prop in Hf as [Hf ?]).
  match goal with H : negb (counter p >=? follow p) = true |- _ =>
    apply negb_true_iff in H; rewrite Z.geb_leb in H; by apply Z.leb_gt in H end.
Qed.

Lemma chained_handle (st0 : Store) (request : Request) (e : Event)
    (x x' : Exchange) (st st' : Store) :
  (length st0 <= headers request)%nat ->
  chained st0 request x st ->
  handleEvent e x st = (Normal x', st') ->
  chained st0 request x' st'.
Proof.
  intros Hfresh Hx Hrun.
  destruct e as [| message | res | chunk]; cbn [handle] in Hrun.
  - injection Hrun as <- <-. destruct (ex_timer x); [| done].
    unfold onTimeout. apply chained_settle; [| done].
    by eapply chained_same.
  - injection Hrun as <- <-. unfold onError. apply chained_settle; [| done].
    by eapply chained_same.
  - unfold onResponseEvent, bind in Hrun.
    assert (Hc : chained st0 request (clearTimer x) st) by (by eapply chained_same).
    set (p := ex_request (clearTimer x)) in *.
    pose proof (onResponse_store p res st) as Hst.
    destruct (respond p res st) as [[r | ex] st1] eqn:Hr; [| discriminate].
    injection Hrun as <- <-. cbn [snd] in Hst.
    pose proof Hc as (Hh & Hf & Hcnt & Hp & Hq). fold p in Hh, Hf, Hcnt.
    assert (Hc1 : chained st0 request (clearTimer x) st1).
    { unfold chained. fold p. do 3 (split; [done |]). split; [| done].
      destruct Hst as [[m ->] | [[m ->] | ->]]; [| by apply prefix_app_r | done].
      apply prefix_update; [done |]. by rewrite Hh. }
    destruct r as [err | next q | response | source o].
    + by apply chained_settle.
    + destruct (onResponse_redirect _ _ _ _ _ _ Hr) as [Hfol ->].
      apply follows_below_limit in Hfol.
      destruct (redirected_fields p res) as (Hh' & Hf' & Hc').
      destruct Hc1 as (_ & _ & _ & Hp1 & _).
      unfold chained. rewrite settle_request. cbn [ex_request].
      rewrite Hh', Hf', Hc'. do 2 (split; [done |]). split; [lia |].
      split; [done |].
      intros next' q' Hfol'. apply settle_following in Hfol' as [Hfol' | Hfol'].
      * by apply (Hq next').
      * injection Hfol' as _ <-. rewrite Hf', Hc'. lia.
    + by apply chained_settle.
    + by eapply chained_same.
  - injection Hrun as <- <-. unfold onRawData.
    destruct (ex_raw x) as [[source o] |]; [| done].
    apply chained_settle; [| done]. by eapply chained_same.
Qed.

Lemma chained_deliver (st0 : Store) (request : Request) (es : list Event)
    (x : Exchange) (st : Store) :
  (length st0 <= headers request)%nat ->
  chained st0 request x st ->
  chained st0 request (fst (deliverAll es x st)) (snd (deliverAll es x st)).
Proof.
  intros Hfresh. revert x st.
  induction es as [| e es IH]; intros x st Hx; [done |].
  cbn [deliver].
  destruct (handle_normal e x st) as (x' & st' & Hrun).
  rewrite Hrun. apply IH. by eapply chained_handle.
Qed.

Lemma afterOptions_fields (request : Request) :
  headers (afterOptions request) = headers request /\
  follow (afterOptions request) = follow request /\
  counter (afterOptions request) = counter request.
Proof. unfold afterOptions. by destruct (JS.truthy_ostr _). Qed.

Lemma followOf_as_init (next : string) (q : Request) :
  followOf (InputURL next) (as_init q) = follow q.
Proof. reflexivity. Qed.

Lemma counterOf_as_init (next : string) (q : Request) :
  counterOf (InputURL next) (as_init q) = counter q.
Proof.
  unfold counterOf, as_init, JS.or_onum, JS.truthy_onum. cbn [init_counter].
  destruct (counter q =? 0) eqn:Hz; cbn.
  - apply Z.eqb_eq in Hz. by rewrite Hz.
  - by rewrite Hz.
Qed.

Lemma chained_start (st0 st : Store) (request : Request) :
  st0 `prefix_of` st -> chained st0 request (start request) st.
Proof. intros Hp. unfold chained. cbn. repeat split; try done; lia. Qed.

Lemma fetch_chain (n : nat) (input : Input) (init : RequestInit) (st : Store) :
  st `prefix_of` snd (run n input init st) /\
  ((budget input init < n)%nat -> snd (fst (run n input init st)) <> Unfinished).
Proof.
  revert input init st. induction n as [| n IH]; intros input init st.
  { split; [done | lia]. }
  cbn [fetch].
  pose proof (Request_new_store input init st) as Hnew.
  destruct (construct input init st) as [[r | e] st1]; [| by split].
  destruct Hnew as ([m ->] & Hh & Hf & Hc).
  destruct (absoluteHTTP (parsedURL r)) eqn:Habs.
  2:{ destruct (getNodeRequestOptions_throws r (st ++ [m])%list Habs)
        as (e & m1 & ->).
      split; [| done]. cbn [snd]. by do 2 apply prefix_app_r. }
  rewrite getNodeRequestOptions_ok by done.
  set (o := hostHack _). set (st2 := (_ ++ [sentHeaders _ _])%list).
  destruct (afterOptions_fields r) as (Hh' & Hf' & Hc').
  assert (Hch : chained st (afterOptions r)
                  (fst (deliverAll (transport o) (start (afterOptions r)) st2))
                  (snd (deliverAll (transport o) (start (afterOptions r)) st2))).
  { apply chained_deliver.
    - rewrite Hh', Hh. lia.
    - apply chained_start. unfold st2. by do 2 apply prefix_app_r. }
  destruct (deliverAll (transport o) (start (afterOptions r)) st2) as [x st3].
  cbn [fst snd] in Hch. destruct Hch as (_ & _ & _ & Hp3 & Hq).
  destruct (ex_promise x) as [[e | response | next q] |]; try by split.
  destruct (Hq next q eq_refl) as [Hfq Hcq].
  destruct (IH (InputURL next) (as_init q) st3) as [IHp IHt].
  destruct (run n (InputURL next) (as_init q) st3) as [[calls out] st4].
  cbn [fst snd] in *. split.
  - by etrans.
  - intros Hn. apply IHt. unfold budget in *.
    rewrite followOf_as_init, counterOf_as_init. lia.
Qed.

(** [fetch] leaves every [Headers] object of its caller as it was. *)
Lemma fetch_frame (n : nat) (input : Input) (init : RequestInit) (st : Store) :
  st `prefix_of` snd (run n input init st).
Proof. apply fetch_chain. Qed.

(** A chain of redirects ends: with more steps than the follow limit leaves
    room for, [fetch] runs to a settled or a forever pending promise. *)
Lemma fetch_finishes (n : nat) (input : Input) (init : RequestInit) (st : Store) :
  (budget input init < n)%nat ->
  snd (fst (run n input init st)) <> Unfinished.
Proof. apply fetch_chain. Qed.

(** *** The hop after a rewritten redirect *)

(** The constructor on the request a redirect leaves behind, when that request
    has no body. *)
Lemma Request_new_bodiless (next : string) (q : Request) (st : Store) :
  body q = None ->
  (useElectronNet q = true -> onElectron = true) ->
  exists request,
    construct (InputURL next) (as_init q) st
    = (Normal request, (st ++ [Headers.deref st (headers q)])%list) /\
    parsedURL request = parseURL next /\
    method request = JS.toUpperCase (if JS.truthy_str (method q) then method q else "GET") /\
    body request = None /\
    headers request = length st.
Proof.
  intros Hb Hnet. unfold Request_new, suppliesBody, requestedElectronNet.
  cbn [as_init init_body init_headers init_useElectronNet headersInit].
  rewrite Hb. rewrite bool_decide_eq_false_2 by (by intros [? ?]).
  cbn [orb andb]. unfold bind at 1, ret at 1. unfold bind at 1. rewrite new_copy.
  assert (Hok : default false (Some (useElectronNet q)) && negb onElectron = false).
  { cbn. destruct (useElectronNet q); [| done]. by rewrite Hnet. }
  rewrite Hok. unfold bind, ret. eexists. split; [reflexivity |].
  cbn [parsedURL method body headers]. repeat split.
  unfold suppliedMethod, JS.or_ostr, JS.truthy_ostr. cbn [init_method as_init].
  destruct (JS.truthy_str (method q)) eqn:Ht; [by rewrite Ht | done].
Qed.

(** After a redirect whose method is rewritten, the next transport call is a
    [GET] to the resolved URL with no [Content-Length]. *)
Lemma rewritten_hop_is_a_bodiless_GET (request : Request) (res : IncomingMessage)
    (st : Store) (next : string) (q : Request) (st' : Store) (n : nat) :
  respond request res st = (Normal (Redirect next q), st') ->
  rewritesToGET (statusCode res) (method request) = true ->
  absoluteHTTP (parseURL next) = true ->
  (useElectronNet request = true -> onElectron = true) ->
  exists o calls out st'',
    run (S n) (InputURL next) (as_init q) st' = ((o :: calls, out), st'') /\
    opt_url o = parseURL next /\
    opt_method o = "GET" /\
    opt_headers o !! "content-length" = None.
Proof.
  intros Hrun Hrw Habs Hnet.
  destruct (onResponse_redirect _ _ _ _ _ _ Hrun) as [Hfol Hq].
  destruct (onResponse_follows request res st Hfol)
    as (location & q' & st1 & _ & Hrun' & _ & _ & Hrewritten & _).
  rewrite Hrun in Hrun'. injection Hrun' as _ <- <-.
  destruct Hrewritten as (Hm & Hb & Hcl & _); [by apply rewritesToGET_spec |].
  assert (Hnet' : useElectronNet q = true -> onElectron = true).
  { rewrite Hq. unfold redirected. rewrite Hrw. exact Hnet. }
  destruct (Request_new_bodiless next q st' Hb Hnet')
    as (r2 & Hnew & Hurl & Hmeth & Hbody & Hh).
  rewrite Hm in Hmeth. cbn in Hmeth.
  cbn [fetch]. rewrite Hnew.
  rewrite getNodeRequestOptions_ok by (by rewrite Hurl).
  rewrite Hh, deref_alloc.
  set (o := hostHack _).
  assert (Ho : opt_url o = parseURL next /\ opt_method o = "GET" /\
               opt_headers o !! "content-length" = None).
  { assert (Hsent : sentHeaders r2 (Headers.deref st' (headers q)) !! "content-length"
                    = None).
    { rewrite sent_content_length. unfold contentLengthValue.
      rewrite Hbody, Hmeth. cbn.
      rewrite has_lookup in Hcl. apply bool_decide_eq_false_1 in Hcl.
      by apply eq_None_not_Some. }
    unfold o, hostHack. cbn [opt_headers opt_url opt_method].
    destruct (sentHeaders r2 _ !! "host") as [[| host ?] |];
      cbn [opt_headers opt_url opt_method]; rewrite ?lookup_insert_ne by done; done. }
  destruct (deliverAll (transport o) _ _) as [x st2].
  destruct (ex_promise x) as [[e | response | next' q'] |].
  - by do 4 eexists.
  - by do 4 eexists.
  - destruct (run n (InputURL next') (as_init q') st2) as [[calls out] st3].
    by do 4 eexists.
  - by do 4 eexists.
Qed.

(** C1.  For every redirect response that is followed, the handler resolves
    the promise with a further [fetch] of the [Location] value resolved
    against the current URL, on the request with its counter incremented.
    When the status is 303, or is 301 or 302 with the method POST, that request
    has method GET, no body and no [Content-Length] header (its other headers
    are as before), and the transport call of the next hop is a GET without
    [Content-Length]; for every other status and method the request's method
    and body are unchanged, and so is every header. *)
Theorem redirect_followed (request : Request) (res : IncomingMessage) (st : Store) :
  follows request res = true ->
  let rewritten :=
    statusCode res = 303 \/
    ((statusCode res = 301 \/ statusCode res = 302) /\ method request = "POST") in
  exists (location : RawHeader) (request' : Request) (st' : Store),
    let next := resolveURL (url formatURL request) location in
    rawHeader (rawHeaders res) "location" = Some location /\
    respond request res st = (Normal (Redirect next request'), st') /\
    counter request' = counter request + 1 /\
    headers request' = headers request /\
    (rewritten ->
     method request' = "GET" /\
     body request' = None /\
     Headers.has (Headers.deref st' (headers request')) "Content-Length" = false /\
     (forall k : string, k <> "content-length" ->
        Headers.deref st' (headers request') !! k
        = Headers.deref st (headers request) !! k) /\
     (absoluteHTTP (parseURL next) = true ->
      (useElectronNet request = true -> onElectron = true) ->
      forall n : nat, exists o calls out st'',
        run (S n) (InputURL next) (as_init request') st' = ((o :: calls, out), st'') /\
        opt_url o = parseURL next /\
        opt_method o = "GET" /\
        opt_headers o !! "content-length" = None)) /\
    (~ rewritten ->
     method request' = method request /\
     body request' = body request /\
     st' = st).
Proof.
  intros Hfol rewritten.
  destruct (onResponse_follows request res st Hfol)
    as (location & request' & st' & Hloc & Hrun & Hcnt & Hh & Hrw & Hno).
  exists location, request', st'. cbn zeta.
  do 4 (split; [done |]). split; [| exact Hno].
  intros Hr. destruct (Hrw Hr) as (Hm & Hb & Hcl & Hothers).
  do 4 (split; [done |]).
  intros Habs Hnet n.
  eapply rewritten_hop_is_a_bodiless_GET; [exact Hrun | | exact Habs | exact Hnet].
  by apply rewritesToGET_spec.
Qed.

(** ** The caller's headers *)

(** C10.  The header-defaulting and [Content-Length] step works on a copy of
    the request's headers: after [getNodeRequestOptions], whether it returned
    or threw, the request's own [Headers] object holds exactly the entries it
    held before, as does every other object of the store, and the one change
    is the new copy.  The same holds of a whole [fetch], however many redirects
    it follows: every [Headers] object the caller could see before the call
    is unchanged after it. *)
Theorem request_headers_untouched (request : Request) (st : Store) :
  is_Some (st !! headers request) ->
  (let st' := snd (getNodeRequestOptions request st) in
   st' !! headers request = st !! headers request /\
   Headers.deref st' (headers request) = Headers.deref st (headers request) /\
   (forall (h : ref) (m : HeaderMap), st !! h = Some m -> st' !! h = Some m) /\
   exists copy : HeaderMap, st' = (st ++ [copy])%list) /\
  (forall (n : nat) (init : RequestInit),
     let st' :=
       snd (run n (InputRequest request) init st) in
     st' !! headers request = st !! headers request /\
     forall (h : ref) (m : HeaderMap), st !! h = Some m -> st' !! h = Some m).
Proof.
  intros [m Hm]. split.
  - intros st'. destruct (getNodeRequestOptions_frame request st) as [Hold Hcopy].
    fold st' in Hold, Hcopy.
    split; [by rewrite Hm; apply Hold |].
    split; [by unfold Headers.deref; rewrite Hm, (Hold _ _ Hm) |].
    by split.
  - intros n init st'.
    assert (Hold : forall (h : ref) (m : HeaderMap),
               st !! h = Some m -> st' !! h = Some m).
    { intros h m' Hh. eapply prefix_lookup_Some; [exact Hh |].
      apply fetch_frame. }
    split; [by rewrite Hm; apply Hold | exact Hold].
Qed.

End Properties.

(** * Further properties *)

Section Further.
Variable parseURL : string -> ParsedURL.
Variable formatURL : ParsedURL -> string.
Variable onElectron : bool.
Variable resolveURL : string -> RawHeader -> string.
Variable transport : NodeRequestOptions -> list Event.

Local Abbreviation urlOf := (url formatURL).
Local Abbreviation construct := (Request_new parseURL formatURL onElectron).
Local Abbreviation respond := (onResponse formatURL resolveURL).
Local Abbreviation handleEvent := (handle formatURL resolveURL).
Local Abbreviation deliverAll := (deliver formatURL resolveURL).
Local Abbreviation run := (fetch parseURL formatURL onElectron resolveURL transport).

(** The constructor, read backwards: every field of a request it returns. *)
Lemma Request_new_inv (input : Input) (init : RequestInit) (st : Store)
    (q : Request) (st' : Store) :
  construct input init st = (Normal q, st') ->
  exists m0 : HeaderMap,
    Headers.new (headersInit input init) st = (Normal (length st), (st ++ [m0])%list) /\
    st' = (st ++ [match derivedContentType init with
                  | Some contentType =>
                      if Headers.has m0 "Content-Type" then m0
                      else Headers.append m0 "Content-Type" contentType
                  | None => m0
                  end])%list /\
    headers q = length st /\
    parsedURL q = parseURL (match input with
                            | InputURL u => u
                            | InputRequest r => urlOf r
                            end) /\
    method q = JS.toUpperCase (suppliedMethod input init) /\
    (suppliesBody input init = true ->
     suppliedMethod input init <> "GET" /\ suppliedMethod input init <> "HEAD") /\
    body q = bodyOf input init /\
    bodyUsed q = false /\
    chunkedEncoding q = false /\
    timeout q = firstNonZero (init_timeout init) (inherited input timeout) /\
    size q = firstNonZero (init_size init) (inherited input size) /\
    counter q = firstNonZero (init_counter init) (inherited input counter) /\
    follow q = default (default 20 (inherited input follow)) (init_follow init) /\
    redirect q = default "follow"
                   (JS.or_ostr (JS.or_ostr (init_redirect init) (inherited input redirect))
                      (Some "follow")) /\
    useElectronNet q = default onElectron (requestedElectronNet input init) /\
    (useElectronNet q = true -> onElectron = true) /\
    session q = JS.or_ostr (init_session init) (inherited input session ≫= id).
Proof.
  unfold Request_new.
  destruct (suppliesBody input init && _) eqn:Hcheck; [discriminate |].
  unfold bind at 1.
  set (getBody := match init_body init with Some b => _ | None => _ end).
  assert (HgetBody : getBody st = (Normal (bodyOf input init), st) \/
                     (exists e, getBody st = (Throw e, st))).
  { unfold getBody, bodyOf. destruct (init_body init); [by left |].
    destruct input as [u | r]; [by left |]. cbn.
    destruct (body r) eqn:Hb; [| by left].
    unfold clone. destruct (bodyUsed r); [right; by eexists | left].
    by rewrite Hb. }
  destruct HgetBody as [-> | [e ->]]; [| discriminate].
  unfold bind at 1.
  destruct (Headers_new_store (headersInit input init) st) as [[m0 Hnew] | [e ->]];
    [| discriminate].
  rewrite Hnew.
  destruct (default false (requestedElectronNet input init) && negb onElectron) eqn:Hnet;
    [discriminate |].
  unfold bind at 1.
  set (contentType := match init_body init with Some _ => _ | None => _ end).
  assert (HcontentType :
            contentType (st ++ [m0])%list
            = (Normal tt,
               (st ++ [match derivedContentType init with
                       | Some ct =>
                           if Headers.has m0 "Content-Type" then m0
                           else Headers.append m0 "Content-Type" ct
                       | None => m0
                       end])%list)).
  { unfold contentType, derivedContentType, bodyOf.
    destruct (init_body init) as [b|]; [| done]. cbn.
    destruct (extractContentType b) as [ct|]; [| done].
    unfold bind, Headers.read. rewrite deref_alloc.
    destruct (Headers.has m0 "Content-Type"); [done |].
    cbn [negb]. by rewrite update_alloc. }
  rewrite HcontentType. unfold ret. intros [= <- <-].
  exists m0. cbn [headers parsedURL method body bodyUsed chunkedEncoding timeout size
                 counter follow redirect useElectronNet session].
  split; [done |]. split; [done |]. split; [done |].
  split; [by destruct input |]. split; [done |].
  split.
  { intros Hb. rewrite Hb in Hcheck. cbn [andb] in Hcheck.
    apply orb_false_elim in Hcheck as [HG HH].
    by apply String.eqb_neq in HG, HH. }
  split; [done |]. split; [done |]. split; [done |].
  split; [by destruct input |]. split; [by destruct input |].
  split; [by destruct input |].
  split; [by destruct (init_follow init), input |].
  split; [by destruct input |].
  split; [done |].
  split; [| by destruct input].
  destruct (requestedElectronNet input init) as [[|]|], onElectron; done.
Qed.


(** ** The constructor: precedence of the options *)

(** X3.  How the constructor chooses the numeric options.  [follow] is the
    value of the options whenever they define one, zero included, and
    otherwise the source request's, or 20 for a URL.  [timeout], [size] and
    [counter] are the values of the options only when these are not zero: a
    zero in the options falls through to the source request's value, as an
    absent property does. *)
Theorem options_override_the_source_request (input : Input) (init : RequestInit)
    (st : Store) (q : Request) (st' : Store) :
  construct input init st = (Normal q, st') ->
  (forall f : Z, init_follow init = Some f -> follow q = f) /\
  (init_follow init = None -> follow q = default 20 (inherited input follow)) /\
  (forall t : Z, init_timeout init = Some t -> t <> 0 -> timeout q = t) /\
  (init_timeout init = None \/ init_timeout init = Some 0 ->
   timeout q = default 0 (inherited input timeout)) /\
  (forall s : Z, init_size init = Some s -> s <> 0 -> size q = s) /\
  (init_size init = None \/ init_size init = Some 0 ->
   size q = default 0 (inherited input size)) /\
  (forall c : Z, init_counter init = Some c -> c <> 0 -> counter q = c) /\
  (init_counter init = None \/ init_counter init = Some 0 ->
   counter q = default 0 (inherited input counter)).
Proof.
  intros Hnew.
  destruct (Request_new_inv _ _ _ _ _ Hnew)
    as (m0 & _ & _ & _ & _ & _ & _ & _ & _ & _ & Ht & Hs & Hc & Hf & _).
  rewrite Ht, Hs, Hc, Hf. clear Hnew Ht Hs Hc Hf.
  assert (Hset : forall (a b : option Z) (t : Z),
             a = Some t -> t <> 0 -> firstNonZero a b = t).
  { intros a b t -> Hnz. unfold firstNonZero, JS.or_onum. cbn.
    apply Z.eqb_neq in Hnz. by rewrite Hnz; cbn; rewrite Hnz. }
  assert (Hunset : forall a b : option Z,
             a = None \/ a = Some 0 -> firstNonZero a b = default 0 b).
  { intros a b [-> | ->]; unfold firstNonZero, JS.or_onum; cbn;
      (destruct b as [t|]; [| done]); cbn;
      destruct (t =? 0) eqn:Hz; cbn; try done;
      apply Z.eqb_eq in Hz; by rewrite Hz. }
  split; [by intros f -> |]. split; [by intros -> |].
  split; [by apply Hset |]. split; [by apply Hunset |].
  split; [by apply Hset |]. split; [by apply Hunset |].
  split; [by apply Hset | by apply Hunset].
Qed.

(** ** The constructor: the default [Content-Type] *)

Lemma lookup_append_ne (m : HeaderMap) (name v k : string) :
  Headers.sanitizeName name <> k -> Headers.append m name v !! k = m !! k.
Proof. intros Hne. unfold Headers.append. by rewrite lookup_insert_ne. Qed.

Lemma lookup_append_eq (m : HeaderMap) (name v : string) :
  Headers.append m name v !! Headers.sanitizeName name
  = Some (default [] (m !! Headers.sanitizeName name) ++ [v])%list.
Proof. unfold Headers.append. by rewrite lookup_insert_eq. Qed.

(** X4.  The constructor adds a [Content-Type] only when the options carry
    a body from which a type can be derived and the headers have none: a
    [Content-Type] that was supplied is kept as it is, and every other header
    is as the header initializer gave it. *)
Theorem content_type_is_defaulted (input : Input) (init : RequestInit)
    (st : Store) (q : Request) (st' : Store) :
  construct input init st = (Normal q, st') ->
  exists supplied : HeaderMap,
    Headers.new (headersInit input init) st
    = (Normal (headers q), (st ++ [supplied])%list) /\
    let m := Headers.deref st' (headers q) in
    m !! "content-type"
    = match supplied !! "content-type" with
      | Some l => Some l
      | None => (fun contentType => [contentType]) <$> derivedContentType init
      end /\
    forall k : string, k <> "content-type" -> m !! k = supplied !! k.
Proof.
  intros Hnew.
  destruct (Request_new_inv _ _ _ _ _ Hnew) as (m0 & Hh & -> & -> & _).
  exists m0. split; [done |]. cbn zeta. rewrite deref_alloc.
  destruct (derivedContentType init) as [ct|]; cbn [fmap option_fmap option_map].
  - rewrite has_lookup.
    change (Headers.sanitizeName "Content-Type") with "content-type".
    case_bool_decide as Hs.
    + destruct Hs as [l Hl]. by rewrite Hl.
    + apply eq_None_not_Some in Hs. split.
      * rewrite (lookup_append_eq m0 "Content-Type").
        change (Headers.sanitizeName "Content-Type") with "content-type".
        by rewrite Hs.
      * intros k Hk. by apply lookup_append_ne.
  - split; [by destruct (m0 !! "content-type") | done].
Qed.

(** ** The constructor: Electron's [net] module *)

(** X5.  A request that was constructed uses Electron's [net] module only
    where Electron is there, and where nothing was asked for it uses it
    exactly on Electron.  Asking for it elsewhere makes the constructor throw;
    when the request supplies no body and the header initializer is accepted,
    the exception is the error [Cannot use Electron/net module on Node.js!],
    and [fetch] rejects with it without a transport call. *)
Theorem electron_net_only_on_electron (input : Input) (init : RequestInit) (st : Store) :
  (forall (q : Request) (st' : Store),
     construct input init st = (Normal q, st') ->
     useElectronNet q = default onElectron (requestedElectronNet input init) /\
     (useElectronNet q = true -> onElectron = true)) /\
  (requestedElectronNet input init = Some true ->
   onElectron = false ->
   (exists e st', construct input init st = (Throw e, st')) /\
   forall (h : ref) (st1 : Store),
     suppliesBody input init = false ->
     Headers.new (headersInit input init) st = (Normal h, st1) ->
     construct input init st
     = (Throw (Error "Cannot use Electron/net module on Node.js!"), st1) /\
     forall n : nat,
       run (S n) input init st
       = (([], Thrown (Error "Cannot use Electron/net module on Node.js!")), st1)).
Proof.
  split.
  - intros q st' Hnew.
    by destruct (Request_new_inv _ _ _ _ _ Hnew)
      as (m0 & _ & _ & _ & _ & _ & _ & _ & _ & _ & _ & _ & _ & _ & _ & Hu & Hon & _).
  - intros Hreq Hoff. split.
    + destruct (construct input init st) as [[q | e] st'] eqn:Hnew; [| by do 2 eexists].
      destruct (Request_new_inv _ _ _ _ _ Hnew)
        as (m0 & _ & _ & _ & _ & _ & _ & _ & _ & _ & _ & _ & _ & _ & _ & Hu & Hon & _).
      rewrite Hreq in Hu. cbn in Hu. rewrite Hon in Hoff by done. discriminate.
    + intros h st1 Hbody Hh.
      assert (Hthrow : construct input init st
                       = (Throw (Error "Cannot use Electron/net module on Node.js!"), st1)).
      { unfold Request_new. rewrite Hbody. cbn [andb].
        unfold suppliesBody in Hbody. apply orb_false_elim in Hbody as [Hib Hrb].
        apply bool_decide_eq_false_1 in Hib.
        destruct (init_body init) as [b|] eqn:Hb; [by destruct Hib; eexists |].
        assert (Hget : match input with
                       | InputRequest r =>
                           match body r with Some _ => clone r | None => ret None end
                       | InputURL _ => ret None
                       end st = (Normal None, st)).
        { destruct input as [u | r]; [done |].
          apply bool_decide_eq_false_1 in Hrb.
          destruct (body r); [by destruct Hrb; eexists | done]. }
        unfold bind at 1. rewrite Hget. unfold bind at 1. rewrite Hh.
        by rewrite Hreq, Hoff. }
      split; [exact Hthrow |]. intros n. cbn [fetch]. by rewrite Hthrow.
Qed.

(** ** [clone] *)

Lemma Branch_fresh (s : Stream) (second : bool) : Branch second s <> s.
Proof.
  revert second. induction s as [h | b s IH]; intros second Heq; [discriminate |].
  injection Heq as _ Heq. by apply (IH b).
Qed.

Lemma set_body_same (r : Request) : set_body r (body r) = r.
Proof. by destruct r. Qed.

Lemma Request_clone_runs (r : Request) (st : Store) :
  method r <> "" ->
  body r = None \/ (bodyUsed r = false /\ method r <> "GET" /\ method r <> "HEAD") ->
  (useElectronNet r = true -> onElectron = true) ->
  exists q,
    construct (InputRequest r) emptyInit st
    = (Normal q, (st ++ [Headers.deref st (headers r)])%list) /\
    Request_clone parseURL formatURL onElectron r st
    = (Normal (q, teed r), (st ++ [Headers.deref st (headers r)])%list).
Proof.
  intros Hm Hb Hnet.
  assert (Hnew : exists q, construct (InputRequest r) emptyInit st
                           = (Normal q, (st ++ [Headers.deref st (headers r)])%list)).
  { unfold Request_new.
    assert (Hsm : suppliedMethod (InputRequest r) emptyInit = method r).
    { unfold suppliedMethod. cbn [emptyInit init_method].
      by destruct (method r). }
    rewrite Hsm.
    assert (Hcheck : suppliesBody (InputRequest r) emptyInit
                     && ((method r =s? "GET") || (method r =s? "HEAD")) = false).
    { unfold suppliesBody. cbn.
      destruct Hb as [-> | (_ & HG & HH)]; [done |].
      apply String.eqb_neq in HG, HH. rewrite HG, HH. apply andb_false_r. }
    rewrite Hcheck. cbn [emptyInit init_body].
    assert (Hget : match body r with Some _ => clone r | None => ret None end st
                   = (Normal (teeBranch true <$> body r), st)).
    { destruct Hb as [Hnone | (Hused & _)].
      - by rewrite Hnone.
      - destruct (body r) eqn:Hbody; [| done]. unfold clone. by rewrite Hused, Hbody. }
    unfold bind at 1. rewrite Hget. unfold bind at 1.
    change (headersInit (InputRequest r) emptyInit)
      with (Headers.FromHeaders (headers r)).
    rewrite new_copy.
    assert (Hok : default false (requestedElectronNet (InputRequest r) emptyInit)
                  && negb onElectron = false).
    { cbn. destruct (useElectronNet r); [| done]. by rewrite Hnet. }
    rewrite Hok. unfold bind, ret. by eexists. }
  destruct Hnew as [q Hnew]. exists q. split; [exact Hnew |].
  unfold Request_clone, bind. rewrite Hnew. unfold ret. do 2 f_equal.
  destruct (body r) eqn:Hbody; [done |].
  unfold teed. rewrite Hbody. cbn. by rewrite <- Hbody, set_body_same.
Qed.

(** X6.  [clone()] of a request as the constructor produces them (a
    method that is not empty, a body only under a method other than GET and
    HEAD and not yet used, Electron's transport only on Electron) returns a
    request with the same method, redirect mode, timeout, size, follow limit,
    counter, transport and session, whose URL is the source's URL parsed
    again.  A body that is a stream is teed: the clone and the source each
    get a new stream fed by it, and the three streams differ, so that the
    body of the clone is not the body the source had, nor the one it has now;
    the source is otherwise as it was.  Any other body is the same in both.
    The headers of the clone are a new object with the same entries: writing
    to them leaves the headers of the source as they were. *)
Theorem clone_is_an_independent_copy (r : Request) (st : Store) :
  method r <> "" ->
  body r = None \/ (bodyUsed r = false /\ method r <> "GET" /\ method r <> "HEAD") ->
  (useElectronNet r = true -> onElectron = true) ->
  (headers r < length st)%nat ->
  exists (q r' : Request) (st' : Store),
    Request_clone parseURL formatURL onElectron r st = (Normal (q, r'), st') /\
    parsedURL q = parseURL (urlOf r) /\
    method q = JS.toUpperCase (method r) /\
    redirect q = (if JS.truthy_str (redirect r) then redirect r else "follow") /\
    timeout q = timeout r /\
    size q = size r /\
    follow q = follow r /\
    counter q = counter r /\
    useElectronNet q = useElectronNet r /\
    session q = session r /\
    r' = set_body r (body r') /\
    (forall s : Stream,
       body r = Some (BStream s) ->
       body q = Some (BStream (Branch true s)) /\
       body r' = Some (BStream (Branch false s)) /\
       body q <> body r /\ body q <> body r' /\ body r' <> body r) /\
    ((forall s : Stream, body r <> Some (BStream s)) ->
     body q = body r /\ r' = r) /\
    headers q <> headers r /\
    headers r' = headers r /\
    Headers.deref st' (headers q) = Headers.deref st (headers r) /\
    Headers.deref st' (headers r) = Headers.deref st (headers r) /\
    forall f : HeaderMap -> HeaderMap,
      Headers.deref (snd (Headers.update (headers q) f st')) (headers r)
      = Headers.deref st (headers r).
Proof.
  intros Hm Hb Hnet Hlive.
  destruct (Request_clone_runs r st Hm Hb Hnet) as (q & Hnew & Hrun).
  exists q, (teed r), (st ++ [Headers.deref st (headers r)])%list.
  split; [exact Hrun |].
  destruct (Request_new_inv _ _ _ _ _ Hnew)
    as (m0 & _ & _ & Hh & Hp & Hmeth & _ & Hbody & _ & _ & Ht & Hs & Hc & Hf & Hr & Hu & _ & Hse).
  assert (Hnz : forall t : Z, firstNonZero None (Some t) = t).
  { intros t. unfold firstNonZero, JS.or_onum. cbn.
    destruct (t =? 0) eqn:Hz; cbn; [| done].
    apply Z.eqb_eq in Hz. by rewrite Hz. }
  assert (Hq : body q = teeBranch true <$> body r).
  { rewrite Hbody. unfold bodyOf. cbn. by destruct (body r). }
  split; [exact Hp |].
  split.
  { rewrite Hmeth. f_equal. unfold suppliedMethod. cbn [emptyInit init_method].
    by destruct (method r). }
  split.
  { rewrite Hr. cbn [emptyInit init_redirect inherited]. by destruct (redirect r). }
  split; [by rewrite Ht; apply Hnz |].
  split; [by rewrite Hs; apply Hnz |].
  split; [exact Hf |].
  split; [by rewrite Hc; apply Hnz |].
  split; [exact Hu |].
  split; [by rewrite Hse; cbn; destruct (session r) |].
  split; [done |].
  split.
  { intros s Hs'. rewrite Hq. unfold teed. cbn [body set_body]. rewrite Hs'. cbn.
    split; [done |]. split; [done |].
    split; [intros [= Heq]; by apply Branch_fresh in Heq |].
    split; [by intros [= ?] |].
    intros [= Heq]. by apply Branch_fresh in Heq. }
  split.
  { intros Hno. rewrite Hq. unfold teed.
    destruct (body r) as [[t | bs | bs ty | s | bd len] |] eqn:Hbr; cbn;
      try (split; [done |]; by rewrite <- Hbr, set_body_same).
    by destruct (Hno s). }
  rewrite Hh.
  split; [lia |].
  split; [done |].
  split; [apply deref_alloc |].
  split; [by apply deref_alloc_old |].
  intros f. rewrite update_alloc. cbn [snd]. by apply deref_alloc_old.
Qed.


(** ** [getNodeRequestOptions]: the URL checks *)

Lemma getNodeRequestOptions_relative (request : Request) (st : Store) :
  JS.truthy_ostr (protocol (parsedURL request)) = false \/
  JS.truthy_ostr (hostname (parsedURL request)) = false ->
  getNodeRequestOptions request st
  = (Throw (TypeError "Only absolute URLs are supported"),
     (st ++ [withAccept (Headers.deref st (headers request))])%list).
Proof.
  intros Hrel. unfold getNodeRequestOptions.
  unfold bind at 1. rewrite new_copy.
  unfold bind at 1, Headers.read at 1. rewrite deref_alloc.
  unfold bind at 1. rewrite update_when_alloc.
  assert (Hcond : negb (JS.truthy_ostr (protocol (parsedURL request)))
                  || negb (JS.truthy_ostr (hostname (parsedURL request))) = true).
  { destruct Hrel as [-> | ->]; [done | apply orb_true_r]. }
  rewrite Hcond. unfold withAccept. by rewrite Bool.if_negb.
Qed.

Lemma getNodeRequestOptions_other_scheme (request : Request) (st : Store) :
  JS.truthy_ostr (protocol (parsedURL request)) = true ->
  JS.truthy_ostr (hostname (parsedURL request)) = true ->
  is_http_protocol (default "" (protocol (parsedURL request))) = false ->
  getNodeRequestOptions request st
  = (Throw (TypeError "Only HTTP(S) protocols are supported"),
     (st ++ [withAccept (Headers.deref st (headers request))])%list).
Proof.
  intros Hp Hh Hs. unfold getNodeRequestOptions.
  unfold bind at 1. rewrite new_copy.
  unfold bind at 1, Headers.read at 1. rewrite deref_alloc.
  unfold bind at 1. rewrite update_when_alloc.
  rewrite Hp, Hh, Hs. cbn [negb orb]. unfold withAccept. by rewrite Bool.if_negb.
Qed.

Lemma is_http_protocol_spec (p : option string) :
  JS.truthy_ostr p && is_http_protocol (default "" p) = true <->
  p = Some "http:" \/ p = Some "https:".
Proof.
  unfold is_http_protocol. split.
  - intros H. apply andb_prop in H as [_ H]. apply orb_prop in H.
    destruct p as [s|]; [| by destruct H].
    cbn in H. destruct H as [H | H]; apply String.eqb_eq in H; subst; auto.
  - by intros [-> | ->].
Qed.

(** One call of [fetch], unfolded: it throws before anything is sent, or it
    makes its transport call, delivers the events and goes by the promise. *)
Lemma fetch_step (n : nat) (input : Input) (init : RequestInit) (st : Store) :
  (exists e st',
     construct input init st = (Throw e, st') /\
     run (S n) input init st = (([], Thrown e), st')) \/
  (exists request st1 e st',
     construct input init st = (Normal request, st1) /\
     absoluteHTTP (parsedURL request) = false /\
     getNodeRequestOptions request st1 = (Throw e, st') /\
     run (S n) input init st = (([], Thrown e), st')) \/
  (exists request st1 x st2,
     construct input init st = (Normal request, st1) /\
     absoluteHTTP (parsedURL request) = true /\
     let supplied := Headers.deref st1 (headers request) in
     let o := callOf request supplied in
     deliverAll (transport o) (start (afterOptions request))
       (st1 ++ [sentHeaders request supplied])%list = (x, st2) /\
     chained st (afterOptions request) x st2 /\
     run (S n) input init st
     = match ex_promise x with
       | None => (([o], Pending), st2)
       | Some (Rejected e) => (([o], Failed e), st2)
       | Some (Fulfilled r) => (([o], Done r), st2)
       | Some (Following next q) =>
           let '((calls, out), st') := run n (InputURL next) (as_init q) st2 in
           ((o :: calls, out), st')
       end).
Proof.
  cbn [fetch].
  pose proof (Request_new_store parseURL formatURL onElectron input init st) as Hnew.
  destruct (construct input init st) as [[r | e] st1] eqn:Hc.
  2:{ left. by do 2 eexists. }
  right. destruct Hnew as ([m ->] & Hh & _).
  destruct (absoluteHTTP (parsedURL r)) eqn:Habs.
  - right. rewrite getNodeRequestOptions_ok by done.
    fold (callOf r (Headers.deref (st ++ [m])%list (headers r))).
    set (o := callOf _ _). set (st2 := (_ ++ [sentHeaders _ _])%list).
    destruct (afterOptions_fields r) as (Hh' & _).
    pose proof (chained_deliver formatURL resolveURL st (afterOptions r) (transport o)
                  (start (afterOptions r)) st2) as Hch.
    destruct (deliverAll (transport o) (start (afterOptions r)) st2) as [x st3] eqn:Hd.
    exists r, (st ++ [m])%list, x, st3.
    split; [done |]. split; [done |]. cbn zeta. fold o. fold st2.
    split; [done |]. split.
    + apply Hch.
      * rewrite Hh', Hh. lia.
      * apply chained_start. unfold st2. by do 2 apply prefix_app_r.
    + by destruct (ex_promise x) as [[? | ? | ? ?] |].
  - left. destruct (getNodeRequestOptions_throws r (st ++ [m])%list Habs) as (e & m1 & Ht).
    exists r, (st ++ [m])%list, e, ((st ++ [m]) ++ [m1])%list.
    rewrite Ht. by repeat split.
Qed.

(** X1.  A URL without a protocol or without a host name makes
    [getNodeRequestOptions] throw the type error [Only absolute URLs are
    supported]; a URL with both, whose protocol is neither [http:] nor
    [https:], makes it throw [Only HTTP(S) protocols are supported].  In both
    cases [fetch] rejects with that error and makes no transport call.  With a
    host name and one of the two protocols [fetch] makes a transport call, to
    the parsed URL. *)
Theorem only_absolute_http_urls (n : nat) (input : Input) (init : RequestInit)
    (st : Store) (request : Request) (st1 : Store) :
  construct input init st = (Normal request, st1) ->
  let p := parsedURL request in
  (JS.truthy_ostr (protocol p) = false \/ JS.truthy_ostr (hostname p) = false ->
   fst (getNodeRequestOptions request st1)
   = Throw (TypeError "Only absolute URLs are supported") /\
   fst (run (S n) input init st)
   = ([], Thrown (TypeError "Only absolute URLs are supported"))) /\
  (JS.truthy_ostr (protocol p) = true ->
   JS.truthy_ostr (hostname p) = true ->
   protocol p <> Some "http:" ->
   protocol p <> Some "https:" ->
   fst (getNodeRequestOptions request st1)
   = Throw (TypeError "Only HTTP(S) protocols are supported") /\
   fst (run (S n) input init st)
   = ([], Thrown (TypeError "Only HTTP(S) protocols are supported"))) /\
  (JS.truthy_ostr (hostname p) = true ->
   protocol p = Some "http:" \/ protocol p = Some "https:" ->
   exists o calls out,
     fst (run (S n) input init st) = (o :: calls, out) /\
     opt_url o = p).
Proof.
  intros Hnew p. split; [| split].
  - intros Hrel. rewrite getNodeRequestOptions_relative by done.
    split; [done |]. cbn [fetch]. rewrite Hnew.
    by rewrite getNodeRequestOptions_relative.
  - intros Hp Hh H1 H2.
    assert (Hs : is_http_protocol (default "" (protocol p)) = false).
    { destruct (is_http_protocol (default "" (protocol p))) eqn:Hs; [| done].
      destruct (proj1 (is_http_protocol_spec (protocol p))); [| done | done].
      fold p in Hp. by rewrite Hp, Hs. }
    rewrite getNodeRequestOptions_other_scheme by done.
    split; [done |]. cbn [fetch]. rewrite Hnew.
    by rewrite getNodeRequestOptions_other_scheme.
  - intros Hh Hp. apply is_http_protocol_spec in Hp.
    apply andb_prop in Hp as [Hp Hs].
    assert (Habs : absoluteHTTP (parsedURL request) = true).
    { unfold absoluteHTTP. fold p. by rewrite Hp, Hh, Hs. }
    destruct (fetch_step n input init st)
      as [(e & st' & Hc & _) | [(r & st2 & e & st' & Hc & Hno & _) |
                                (r & st2 & x & st3 & Hc & _ & _ & _ & Hrun)]];
      rewrite Hnew in Hc; [discriminate | |].
    { injection Hc as <- <-. by rewrite Habs in Hno. }
    injection Hc as <- <-. cbn zeta in Hrun. rewrite Hrun.
    assert (Hurl : opt_url (callOf request (Headers.deref st1 (headers request))) = p).
    { unfold callOf, hostHack. cbn [opt_headers].
      by destruct (sentHeaders _ _ !! "host") as [[| ? ?] |]. }
    destruct (ex_promise x) as [[e | r | next q] |]; try by do 3 eexists.
    destruct (run n (InputURL next) (as_init q) st3) as [[calls out] st4].
    by do 3 eexists.
Qed.

(** ** What reaches the transport *)

Lemma sent_other (request : Request) (m : HeaderMap) (k : string) :
  k ∉ writtenNames -> sentHeaders request m !! k = m !! k.
Proof.
  intros Hk. unfold writtenNames in Hk.
  rewrite !not_elem_of_cons in Hk. destruct Hk as (H1 & H2 & H3 & H4 & H5 & _).
  unfold sentHeaders, withConnection, withAcceptEncoding, withUserAgent,
    withContentLength, withAccept.
  rewrite lookup_default_ne by done.
  rewrite lookup_set_ne by done.
  rewrite lookup_default_ne by done.
  destruct (JS.truthy_ostr (contentLengthValue request));
    [rewrite lookup_set_ne by done |]; by rewrite lookup_default_ne.
Qed.

Lemma host_is_written : "host" ∈ writtenNames.
Proof. unfold writtenNames. by repeat constructor. Qed.

Lemma sent_host (request : Request) (m : HeaderMap) :
  sentHeaders request m !! "host" = m !! "host".
Proof.
  unfold sentHeaders, withConnection, withAcceptEncoding, withUserAgent,
    withContentLength, withAccept.
  rewrite lookup_default_ne by done.
  rewrite lookup_set_ne by done.
  rewrite lookup_default_ne by done.
  destruct (JS.truthy_ostr (contentLengthValue request));
    [rewrite lookup_set_ne by done |]; by rewrite lookup_default_ne.
Qed.

Lemma hostHack_fields (o : NodeRequestOptions) :
  opt_url (hostHack o) = opt_url o /\
  opt_method (hostHack o) = opt_method o /\
  (forall k : string, k <> "host" -> opt_headers (hostHack o) !! k = opt_headers o !! k) /\
  opt_headers (hostHack o) !! "host" = take 1 <$> opt_headers o !! "host".
Proof.
  unfold hostHack.
  destruct (opt_headers o !! "host") as [[| h l] |] eqn:Hhost;
    cbn [opt_url opt_method opt_headers]; rewrite ?Hhost; repeat split;
    try done.
  - intros k Hk. by rewrite lookup_insert_ne.
  - by rewrite lookup_insert_eq.
Qed.

(** X2.  For a request with an absolute http(s) URL, the first transport
    call of [fetch] has the request's parsed URL and method, and under every
    name other than the six that [getNodeRequestOptions] and the host header
    hack may write it carries the values that the request's own headers hold.
    Of a [Host] header only the first value is handed on. *)
Theorem caller_headers_reach_transport (n : nat) (input : Input) (init : RequestInit)
    (st : Store) (request : Request) (st1 : Store) :
  construct input init st = (Normal request, st1) ->
  absoluteHTTP (parsedURL request) = true ->
  exists o calls out st2,
    run (S n) input init st = ((o :: calls, out), st2) /\
    opt_url o = parsedURL request /\
    opt_method o = method request /\
    let supplied := Headers.deref st1 (headers request) in
    (forall k : string, k ∉ writtenNames -> opt_headers o !! k = supplied !! k) /\
    opt_headers o !! "host" = take 1 <$> supplied !! "host".
Proof.
  intros Hnew Habs.
  destruct (fetch_step n input init st)
    as [(e & st' & Hc & _) | [(r & st2 & e & st' & Hc & Hno & _) |
                              (r & st2 & x & st3 & Hc & _ & _ & _ & Hrun)]];
    rewrite Hnew in Hc; [discriminate | |].
  { injection Hc as <- <-. by rewrite Habs in Hno. }
  injection Hc as <- <-. cbn zeta in Hrun.
  set (o := callOf request (Headers.deref st1 (headers request))) in *.
  assert (Ho : opt_url o = parsedURL request /\
               opt_method o = method request /\
               (forall k : string, k ∉ writtenNames ->
                  opt_headers o !! k = Headers.deref st1 (headers request) !! k) /\
               opt_headers o !! "host"
               = take 1 <$> Headers.deref st1 (headers request) !! "host").
  { unfold o, callOf.
    destruct (hostHack_fields
                {| opt_url := parsedURL request;
                   opt_method := method request;
                   opt_headers := sentHeaders request
                                    (Headers.deref st1 (headers request)) |})
      as (-> & -> & Hother & ->).
    cbn [opt_url opt_method opt_headers] in *.
    split; [done |]. split; [done |]. split.
    - intros k Hk. rewrite Hother.
      + by apply sent_other.
      + intros ->. apply Hk, host_is_written.
    - by rewrite sent_host. }
  destruct (ex_promise x) as [[e | r | next q] |].
  - by exists o, [], (Failed e), st3.
  - by exists o, [], (Done r), st3.
  - destruct (run n (InputURL next) (as_init q) st3) as [[calls out] st4].
    by exists o, calls, out, st4.
  - by exists o, [], Pending, st3.
Qed.


(** ** The promise *)

Lemma settle_settled (s0 s : Settlement) (x : Exchange) :
  ex_promise x = Some s -> settle s0 x = x.
Proof. intros Hp. unfold settle. by rewrite Hp. Qed.

Lemma handle_settled (e : Event) (x x' : Exchange) (st st' : Store) (s : Settlement) :
  ex_promise x = Some s ->
  handleEvent e x st = (Normal x', st') ->
  ex_promise x' = Some s.
Proof.
  intros Hp Hrun. destruct e as [| message | res | chunk]; cbn [handle] in Hrun.
  - injection Hrun as <- _. destruct (ex_timer x); [| done].
    unfold onTimeout. by erewrite settle_settled.
  - injection Hrun as <- _. unfold onError. by erewrite settle_settled.
  - unfold onResponseEvent, bind in Hrun.
    destruct (respond (ex_request (clearTimer x)) res st) as [[r | ex] st1];
      [| discriminate].
    injection Hrun as <- _.
    destruct r as [err | next q | response | source o];
      [by erewrite settle_settled | by erewrite settle_settled
      | by erewrite settle_settled | done].
  - injection Hrun as <- _. unfold onRawData.
    destruct (ex_raw x) as [[source o] |]; [| done].
    by erewrite settle_settled.
Qed.

Lemma deliver_settled (es : list Event) (x : Exchange) (st : Store)
    (s : Settlement) :
  ex_promise x = Some s ->
  ex_promise (fst (deliverAll es x st)) = Some s.
Proof.
  revert x st. induction es as [| e es IH]; intros x st Hp; [done |].
  cbn [deliver].
  destruct (handle_normal formatURL resolveURL e x st) as (x' & st' & Hrun).
  rewrite Hrun. apply IH. by eapply handle_settled.
Qed.

(** X8.  The promise of an exchange settles once: when a sequence of events
    has settled it, no events that follow change the settlement, be they
    timers, transport errors, responses or chunks, in any number and order. *)
Theorem promise_settles_once (es later : list Event) (x : Exchange) (st : Store)
    (s : Settlement) :
  ex_promise (fst (deliverAll es x st)) = Some s ->
  ex_promise (fst (deliverAll (es ++ later) x st)) = Some s.
Proof.
  intros Hsettled.
  rewrite (deliver_app formatURL resolveURL).
  by apply deliver_settled.
Qed.

(** X9.  When the first event of an exchange is a transport error, the
    promise is rejected with the system error whose message is [request to],
    the URL, [failed, reason:] and the error's message; whatever follows, that
    stays the settlement, the timer is cleared and the transport request is
    not aborted. *)
Theorem transport_error_rejects (request : Request) (message : string)
    (rest : list Event) (st : Store) :
  let x := fst (deliverAll (TransportError message :: rest) (start request) st) in
  ex_promise x
  = Some (Rejected (mkFetchError
                      ("request to " ++ urlOf request ++ " failed, reason: " ++ message)
                      "system")) /\
  ex_timer x = false /\
  ex_aborted x = false.
Proof.
  intros x. unfold x. cbn [deliver handle ret]. split.
  - by apply deliver_settled.
  - assert (Hd : disarmed (onError formatURL message (start request))).
    { repeat split. intros (e & [= <-] & Hty). discriminate. }
    by destruct (disarmed_deliver formatURL resolveURL rest _ st Hd) as (? & ? & _).
Qed.

(** ** The response handler: the headers of the response *)

Lemma appended_values (name : string) (l : list string) (m : HeaderMap) (k : string) :
  fold_left (fun m val => Headers.append m name val) l m !! k
  = if Headers.sanitizeName name =s? k
    then match l with
         | [] => m !! k
         | _ => Some (default [] (m !! k) ++ l)%list
         end
    else m !! k.
Proof.
  revert m. induction l as [| v l IH]; intros m; cbn [fold_left].
  { by destruct (_ =s? _). }
  rewrite IH. destruct (Headers.sanitizeName name =s? k) eqn:Hk.
  - apply String.eqb_eq in Hk. subst k. rewrite lookup_append_eq.
    cbn [default from_option id]. destruct l; [done |]. by rewrite <- app_assoc.
  - apply String.eqb_neq in Hk. by apply lookup_append_ne.
Qed.

Lemma normalized_values (hs : list (string * RawHeader)) (m : HeaderMap) (k : string) :
  fold_left
    (fun m '(name, v) =>
       match v with
       | RawArray l => fold_left (fun m val => Headers.append m name val) l m
       | RawString s => Headers.append m name s
       end) hs m !! k
  = match receivedValues hs k with
    | [] => m !! k
    | l => Some (default [] (m !! k) ++ l)%list
    end.
Proof.
  revert m. induction hs as [| [name v] hs IH]; intros m; [done |].
  cbn [fold_left receivedValues flat_map]. rewrite IH.
  fold (receivedValues hs k).
  assert (Hone : match v with
                 | RawArray l => fold_left (fun m val => Headers.append m name val) l m
                 | RawString s => Headers.append m name s
                 end !! k
                 = if Headers.sanitizeName name =s? k
                   then match rawValues v with
                        | [] => m !! k
                        | _ => Some (default [] (m !! k) ++ rawValues v)%list
                        end
                   else m !! k).
  { destruct v as [s | l]; [| apply appended_values].
    apply (appended_values name [s]). }
  rewrite Hone. destruct (Headers.sanitizeName name =s? k); [| done].
  destruct (rawValues v) as [| v1 vs]; [done |].
  cbn [default from_option id app].
  destruct (receivedValues hs k); [by rewrite app_nil_r |].
  by rewrite <- app_assoc.
Qed.

(** X10. The headers of a response hold, under each normalized name, the
    values that the transport delivered under the names that normalize to it,
    in the order of delivery, an array contributing each of its elements; a
    name under which nothing was delivered is absent. *)
Theorem response_headers_are_collected (hs : list (string * RawHeader)) (k : string) :
  normalizeHeaders hs !! k
  = match receivedValues hs k with
    | [] => None
    | l => Some l
    end.
Proof.
  unfold normalizeHeaders. rewrite normalized_values.
  rewrite lookup_empty. by destruct (receivedValues hs k).
Qed.

(** X11. With [redirect: 'manual'] every response is finalized, redirects
    included.  A response that is finalized is handed on with the request's
    URL and the status and status text it came with; its headers are those
    delivered, except that in manual mode a [Location] is replaced by its value
    resolved against the request's URL.  In the other modes a [Location] is
    left as delivered. *)
Theorem location_is_resolved_in_manual_mode (request : Request)
    (res : IncomingMessage) (st : Store) :
  (redirect request = "manual" -> finalizes request res = true) /\
  (finalizes request res = true ->
   exists (r : Reaction) (st' : Store),
     respond request res st = (Normal r, st') /\
     (exists (d : Decoder) (o : ResponseOptions),
        (r = Resolve (Response_new (chunks res) d o) \/
         r = AwaitFirstChunk (chunks res) o) /\
        ro_url o = urlOf request /\
        ro_status o = statusCode res /\
        ro_statusText o = statusMessage res /\
        ro_headers o = length st) /\
     let received := normalizeHeaders (rawHeaders res) in
     let m := Headers.deref st' (length st) in
     (forall k : string, k <> "location" -> m !! k = received !! k) /\
     m !! "location"
     = if redirect request =s? "manual"
       then (fun l => [resolveURL (urlOf request) (RawString (JS.join_comma l))])
              <$> received !! "location"
       else received !! "location").
Proof.
  split.
  { intros Hman. unfold finalizes. rewrite Hman. cbn. apply negb_true_iff, andb_false_r. }
  intros Hfin. rewrite (onResponse_finalizes formatURL resolveURL _ _ _ Hfin).
  do 2 eexists. split; [reflexivity |]. split.
  - destruct (decodes request res (codingsOf res)).
    + destruct (_ || _); [by do 2 eexists; split; [left |] |].
      destruct (_ || _); [by exists PassThrough; eexists; split; [right |] |].
      by do 2 eexists; split; [left |].
    + by do 2 eexists; split; [left |].
  - cbn zeta. rewrite deref_alloc. unfold responseHeaders.
    destruct (redirect request =s? "manual"); cbn [andb]; [| done].
    rewrite has_lookup. change (Headers.sanitizeName "location") with "location".
    case_bool_decide as Hs.
    + destruct Hs as [l Hl]. split.
      * intros k Hk. by rewrite lookup_set_ne.
      * rewrite (lookup_set_eq _ "location"). unfold Headers.get.
        change (Headers.sanitizeName "location") with "location".
        by rewrite Hl.
    + apply eq_None_not_Some in Hs. by rewrite Hs.
Qed.


(** ** The whole fetch: the response it resolves with *)

Lemma settle_cases (s : Settlement) (x : Exchange) :
  ex_request (settle s x) = ex_request x /\
  ex_raw (settle s x) = ex_raw x /\
  (ex_promise (settle s x) = ex_promise x \/ ex_promise (settle s x) = Some s).
Proof.
  unfold settle. destruct (ex_promise x) eqn:Hp; cbn.
  - by repeat split; left.
  - by repeat split; right.
Qed.

Lemma reportsURL_settle (u : string) (s : Settlement) (x : Exchange) :
  reportsURL formatURL u x ->
  (forall r, s = Fulfilled r -> resp_url r = u) ->
  reportsURL formatURL u (settle s x).
Proof.
  intros (Hu & Hp & Hr) Hs. unfold reportsURL.
  destruct (settle_cases s x) as (-> & -> & Hcase).
  split; [done |]. split; [| done].
  intros r Hful. destruct Hcase as [Hsame | Hnew].
  - apply Hp. by rewrite <- Hsame.
  - apply Hs. rewrite Hnew in Hful. by injection Hful.
Qed.

(** What the handler hands on reports the request's URL. *)
Lemma onResponse_reports (p : Request) (res : IncomingMessage) (st : Store)
    (r : Reaction) (st' : Store) :
  respond p res st = (Normal r, st') ->
  match r with
  | Reject _ => True
  | Redirect _ q => urlOf q = urlOf p
  | Resolve response => resp_url response = urlOf p
  | AwaitFirstChunk _ o => ro_url o = urlOf p
  end.
Proof.
  intros Hrun. destruct r as [e | next q | response | source o]; [done | | |].
  - destruct (onResponse_redirect formatURL resolveURL _ _ _ _ _ _ Hrun) as [_ ->].
    unfold redirected, url.
    by destruct (rewritesToGET (statusCode res) (method p)).
  - destruct (finalizes p res) eqn:Hfin.
    + rewrite (onResponse_finalizes formatURL resolveURL _ _ _ Hfin) in Hrun.
      destruct (decodes _ _ _); [| by injection Hrun as <- _].
      destruct (_ || _); [by injection Hrun as <- _ |].
      destruct (_ || _); [discriminate | by injection Hrun as <- _].
    + apply negb_false_iff in Hfin. revert Hrun. unfold onResponse. rewrite Hfin.
      destruct (redirect p =s? "error"); [discriminate |].
      destruct (counter p >=? follow p); [discriminate |].
      destruct (negb (truthy_raw (rawHeader (rawHeaders res) "location")));
        [discriminate |].
      by destruct (rewritesToGET (statusCode res) (method p)).
  - destruct (finalizes p res) eqn:Hfin.
    + rewrite (onResponse_finalizes formatURL resolveURL _ _ _ Hfin) in Hrun.
      destruct (decodes _ _ _); [| discriminate].
      destruct (_ || _); [discriminate |].
      destruct (_ || _); [by injection Hrun as _ <- _ | discriminate].
    + apply negb_false_iff in Hfin. revert Hrun. unfold onResponse. rewrite Hfin.
      destruct (redirect p =s? "error"); [discriminate |].
      destruct (counter p >=? follow p); [discriminate |].
      destruct (negb (truthy_raw (rawHeader (rawHeaders res) "location")));
        [discriminate |].
      by destruct (rewritesToGET (statusCode res) (method p)).
Qed.

Lemma reportsURL_handle (u : string) (e : Event) (x x' : Exchange) (st st' : Store) :
  reportsURL formatURL u x ->
  handleEvent e x st = (Normal x', st') ->
  reportsURL formatURL u x'.
Proof.
  intros Hx Hrun. destruct e as [| message | res | chunk]; cbn [handle] in Hrun.
  - injection Hrun as <- _. destruct (ex_timer x); [| done].
    unfold onTimeout. by apply reportsURL_settle.
  - injection Hrun as <- _. unfold onError. by apply reportsURL_settle.
  - unfold onResponseEvent, bind in Hrun.
    destruct (respond (ex_request (clearTimer x)) res st) as [[r | ex] st1] eqn:Hr;
      [| discriminate].
    injection Hrun as <- _. apply onResponse_reports in Hr.
    destruct Hx as (Hu & Hp & Hraw). cbn [clearTimer ex_request] in Hr.
    destruct r as [err | next q | response | source o].
    + by apply reportsURL_settle.
    + apply reportsURL_settle; [| done]. split; [| done]. cbn. by rewrite Hr.
    + apply reportsURL_settle; [done |]. intros r [= <-]. by rewrite Hr.
    + split; [done |]. split; [done |]. cbn. intros ? ? [= _ <-]. by rewrite Hr.
  - injection Hrun as <- _. unfold onRawData.
    destruct (ex_raw x) as [[source o] |] eqn:Hraw; [| done].
    destruct Hx as (Hu & Hp & Hr).
    apply reportsURL_settle; [by split |].
    intros r [= <-]. unfold onFirstChunk.
    destruct (looksZlibWrapped chunk); cbn; by eapply Hr.
Qed.

Lemma reportsURL_deliver (u : string) (es : list Event) (x : Exchange) (st : Store) :
  reportsURL formatURL u x -> reportsURL formatURL u (fst (deliverAll es x st)).
Proof.
  revert x st. induction es as [| e es IH]; intros x st Hx; [done |].
  cbn [deliver].
  destruct (handle_normal formatURL resolveURL e x st) as (x' & st' & Hrun).
  rewrite Hrun. apply IH. by eapply reportsURL_handle.
Qed.

(** X14. When [fetch] resolves with a response, after any number of
    redirects, the URL that the response reports is the URL of the last
    transport call. *)
Theorem response_url_is_the_last_hop (n : nat) (input : Input) (init : RequestInit)
    (st : Store) (calls : list NodeRequestOptions) (r : Response) (st' : Store) :
  run n input init st = ((calls, Done r), st') ->
  exists o : NodeRequestOptions,
    last calls = Some o /\ resp_url r = formatURL (opt_url o).
Proof.
  revert input init st calls r st'.
  induction n as [| n IH]; intros input init st calls r st' Hrun; [discriminate |].
  destruct (fetch_step n input init st)
    as [(e & st1 & _ & Hthrown) | [(q & st1 & e & st2 & _ & _ & _ & Hthrown) |
                                   (q & st1 & x & st2 & _ & _ & Hd & _ & Hstep)]].
  1,2: rewrite Hthrown in Hrun; discriminate.
  cbn zeta in Hd, Hstep. rewrite Hstep in Hrun. clear Hstep.
  set (o := callOf q (Headers.deref st1 (headers q))) in *.
  assert (Ho : formatURL (opt_url o) = urlOf (afterOptions q)).
  { unfold o, callOf.
    destruct (hostHack_fields
                {| opt_url := parsedURL q; opt_method := method q;
                   opt_headers := sentHeaders q (Headers.deref st1 (headers q)) |})
      as (-> & _).
    unfold afterOptions, url. by destruct (JS.truthy_ostr _). }
  pose proof (reportsURL_deliver (urlOf (afterOptions q)) (transport o)
                (start (afterOptions q))
                (st1 ++ [sentHeaders q (Headers.deref st1 (headers q))])%list) as Hrep.
  rewrite Hd in Hrep. cbn [fst] in Hrep.
  destruct Hrep as (_ & Hful & _); [by split |].
  destruct (ex_promise x) as [[e | response | next q'] |]; try discriminate.
  - injection Hrun as <- <- <-. exists o. split; [done |].
    rewrite Ho. by apply Hful.
  - destruct (run n (InputURL next) (as_init q') st2) as [[calls' out] st3] eqn:Hnext.
    injection Hrun as <- -> <-.
    destruct (IH _ _ _ _ _ _ Hnext) as (o' & Hlast & Hurl).
    exists o'. split; [| done].
    destruct calls' as [| c cs]; [discriminate |]. by rewrite last_cons, Hlast.
Qed.

(** ** The whole fetch: the number of transport calls *)

(** X15. [fetch] makes at most one transport call more than its follow
    limit leaves room for, [follow - counter + 1] of them, and given more steps
    than the limit leaves room for it always comes to an end. *)
Theorem redirects_are_bounded (n : nat) (input : Input) (init : RequestInit)
    (st : Store) :
  (length (fst (fst (run n input init st))) <= S (budget input init))%nat /\
  ((budget input init < n)%nat -> snd (fst (run n input init st)) <> Unfinished).
Proof.
  split; [| apply (fetch_finishes parseURL formatURL onElectron resolveURL transport)].
  revert input init st. induction n as [| n IH]; intros input init st.
  { cbn. lia. }
  destruct (fetch_step n input init st)
    as [(e & st1 & _ & ->) | [(q & st1 & e & st2 & _ & _ & _ & ->) |
                              (q & st1 & x & st2 & Hc & _ & _ & Hch & ->)]];
    [cbn; lia | cbn; lia |].
  cbn zeta.
  destruct (ex_promise x) as [[e | response | next q'] |] eqn:Hp;
    [cbn; lia | cbn; lia | | cbn; lia].
  pose proof (Request_new_store parseURL formatURL onElectron input init st) as Hnew.
  rewrite Hc in Hnew. destruct Hnew as (_ & _ & Hf & Hcnt).
  destruct Hch as (_ & _ & _ & _ & Hq).
  destruct (Hq next q' Hp) as [Hfq Hcq].
  destruct (afterOptions_fields q) as (_ & Hf' & Hc').
  rewrite Hf', Hc', ?Hf, ?Hcnt in *.
  specialize (IH (InputURL next) (as_init q') st2).
  destruct (run n (InputURL next) (as_init q') st2) as [[calls out] st3].
  cbn [fst snd length] in *.
  assert ((budget (InputURL next) (as_init q') < budget input init)%nat).
  { unfold budget. rewrite followOf_as_init, counterOf_as_init. lia. }
  lia.
Qed.

(** ** The response handler: a deflate response waits for its first chunk *)

Lemma timers_after_disarming (timers : list Event) (x : Exchange) (st : Store) :
  forallb isTimer timers = true ->
  ex_timer x = false ->
  deliverAll timers x st = (x, st).
Proof.
  intros Ht Hx. induction timers as [| e es IH]; [done |].
  cbn [forallb] in Ht. apply andb_prop in Ht as [He Hes].
  destruct e; try done. cbn [deliver handle ret]. rewrite Hx. by apply IH.
Qed.

(** X12. For a [deflate] or [x-deflate] response that is decoded, the
    promise stays pending after the headers, whatever timers fire in between
    (the timer was cleared with the headers), and it is fulfilled by the first
    chunk of the body, with zlib-wrapped or raw inflate as the first byte of
    that chunk decides; later events do not change it. *)
Theorem deflate_waits_for_the_first_chunk (request : Request) (res : IncomingMessage)
    (st : Store) (timers : list Event) (chunk : string) (rest : list Event) :
  finalizes request res = true ->
  ~ skipsDecoding request res ->
  codingsOf res = Some "deflate" \/ codingsOf res = Some "x-deflate" ->
  forallb isTimer timers = true ->
  ex_promise (fst (deliverAll (ResponseReceived res :: timers) (start request) st))
  = None /\
  ex_promise (fst (deliverAll (ResponseReceived res :: timers ++ RawData chunk :: rest)
                     (start request) st))
  = Some (Fulfilled
            (Response_new (chunks res)
               (if looksZlibWrapped chunk then Inflate else InflateRaw)
               (responseOptions formatURL request res (length st)))).
Proof.
  intros Hfin Hno Hc Ht.
  assert (Hdec : decodes request res (codingsOf res) = true).
  { destruct (decodes request res (codingsOf res)) eqn:Hd; [done |].
    by apply decodes_false_iff in Hd. }
  assert (Hfirst : handleEvent (ResponseReceived res) (start request) st
                   = (Normal (mkExchange request false false None
                                (Some (chunks res,
                                       responseOptions formatURL request res (length st)))),
                      (st ++ [responseHeaders formatURL resolveURL request res])%list)).
  { cbn [handle]. unfold onResponseEvent, bind. cbn [clearTimer start ex_request].
    rewrite (onResponse_finalizes formatURL resolveURL _ _ _ Hfin), Hdec.
    by destruct Hc as [-> | ->]. }
  split.
  - cbn [deliver]. rewrite Hfirst. by rewrite timers_after_disarming.
  - cbn [deliver]. rewrite Hfirst.
    rewrite (deliver_app formatURL resolveURL).
    rewrite (timers_after_disarming timers) by done.
    cbn [fst snd deliver handle ret].
    apply deliver_settled. unfold onRawData, onFirstChunk. cbn.
    by destruct (looksZlibWrapped chunk).
Qed.


(** ** The body check and the method's case *)

(** X7.  The body check compares the method as it was supplied, and the
    request stores it in upper case.  A body with a method that is [GET] or
    [HEAD] only after upper-casing is therefore accepted, and the request that
    results has the method [GET] or [HEAD] and the body.  Such a request can
    neither be cloned nor fetched again as it is: both throw the type error of
    the body check, and [fetch] makes no transport call. *)
Theorem body_check_precedes_upper_casing (u : string) (init : RequestInit)
    (st : Store) (m : string) (b : Body) :
  init_method init = Some m ->
  init_body init = Some b ->
  m <> "GET" ->
  m <> "HEAD" ->
  JS.toUpperCase m = "GET" \/ JS.toUpperCase m = "HEAD" ->
  otherChecksPass onElectron (InputURL u) init st = true ->
  exists (r : Request) (st' : Store),
    construct (InputURL u) init st = (Normal r, st') /\
    (method r = "GET" \/ method r = "HEAD") /\
    body r = Some b /\
    forall st2 : Store,
      Request_clone parseURL formatURL onElectron r st2 = (Throw bodyTypeError, st2) /\
      forall n : nat,
        run (S n) (InputRequest r) emptyInit st2 = (([], Thrown bodyTypeError), st2).
Proof.
  intros Hm Hb HG HH Hup Hchk.
  assert (Hsm : suppliedMethod (InputURL u) init = m).
  { unfold suppliedMethod. rewrite Hm. destruct m; [by destruct Hup | done]. }
  assert (Hsb : suppliesBody (InputURL u) init = true).
  { unfold suppliesBody. rewrite Hb. by rewrite bool_decide_eq_true_2. }
  destruct (Request_new_accepts parseURL formatURL onElectron (InputURL u) init st)
    as (r & st' & Hnew & _ & Hmeth); rewrite ?Hsm; try done.
  rewrite Hsm in Hmeth.
  destruct (Request_new_inv _ _ _ _ _ Hnew)
    as (_ & _ & _ & _ & _ & _ & _ & Hbody & _).
  unfold bodyOf in Hbody. rewrite Hb in Hbody.
  exists r, st'. split; [done |]. split; [by rewrite Hmeth |]. split; [done |].
  intros st2.
  assert (Hthrow : construct (InputRequest r) emptyInit st2 = (Throw bodyTypeError, st2)).
  { apply Request_new_rejects.
    - unfold suppliesBody. cbn. rewrite Hbody. by rewrite bool_decide_eq_true_2.
    - unfold suppliedMethod. cbn [emptyInit init_method]. rewrite Hmeth.
      by destruct Hup as [-> | ->]; [left | right]. }
  split; [unfold Request_clone, bind; by rewrite Hthrow |].
  intros n. cbn [fetch]. by rewrite Hthrow.
Qed.

(** ** The hop after a redirect that keeps the method *)

Lemma Request_new_hop (next : string) (q : Request) (st : Store) :
  method q <> "" ->
  body q = None \/ (method q <> "GET" /\ method q <> "HEAD") ->
  (useElectronNet q = true -> onElectron = true) ->
  exists (r : Request) (m : HeaderMap),
    construct (InputURL next) (as_init q) st = (Normal r, (st ++ [m])%list) /\
    headers r = length st /\
    parsedURL r = parseURL next /\
    method r = JS.toUpperCase (method q) /\
    body r = body q /\
    useElectronNet r = useElectronNet q /\
    forall k : string, k <> "content-type" -> m !! k = Headers.deref st (headers q) !! k.
Proof.
  intros Hm Hb Hnet.
  assert (Hsm : suppliedMethod (InputURL next) (as_init q) = method q).
  { unfold suppliedMethod. cbn [as_init init_method]. by destruct (method q). }
  assert (Hrun : exists r st', construct (InputURL next) (as_init q) st = (Normal r, st')).
  { unfold Request_new. rewrite Hsm.
    assert (Hcheck : suppliesBody (InputURL next) (as_init q)
                     && ((method q =s? "GET") || (method q =s? "HEAD")) = false).
    { unfold suppliesBody. cbn [as_init init_body].
      destruct Hb as [-> | (HG & HH)]; [done |].
      apply String.eqb_neq in HG, HH. rewrite HG, HH. apply andb_false_r. }
    rewrite Hcheck. cbn [as_init init_body init_headers init_useElectronNet].
    assert (Hget : match body q with Some b => ret (Some b) | None => ret None end st
                   = (Normal (body q), st)) by (by destruct (body q)).
    unfold bind at 1. rewrite Hget. unfold bind at 1.
    change (headersInit (InputURL next) (as_init q))
      with (Headers.FromHeaders (headers q)).
    rewrite new_copy.
    assert (Hok : default false (requestedElectronNet (InputURL next) (as_init q))
                  && negb onElectron = false).
    { cbn. destruct (useElectronNet q); [| done]. by rewrite Hnet. }
    rewrite Hok. unfold bind at 1.
    destruct (body q) as [b|]; [| by do 2 eexists].
    cbn [mbind option_bind].
    destruct (extractContentType b); [| by do 2 eexists].
    unfold bind at 1, Headers.read at 1. rewrite deref_alloc.
    destruct (negb (Headers.has (Headers.deref st (headers q)) "Content-Type"));
      [rewrite update_alloc |]; by do 2 eexists. }
  destruct Hrun as (r & st' & Hrun).
  destruct (Request_new_inv _ _ _ _ _ Hrun)
    as (m0 & Hh0 & -> & Hh & Hp & Hmeth & _ & Hbody & _ & _ & _ & _ & _ & _ & _ & Hu & _).
  change (headersInit (InputURL next) (as_init q))
    with (Headers.FromHeaders (headers q)) in Hh0.
  rewrite new_copy in Hh0. injection Hh0 as Hm0. apply app_inj_tail in Hm0 as [_ <-].
  eexists r, _. split; [exact Hrun |]. split; [done |]. split; [done |].
  split; [by rewrite Hmeth, Hsm |].
  split; [by rewrite Hbody; unfold bodyOf; cbn; destruct (body q) |].
  split; [done |].
  intros k Hk. destruct (derivedContentType (as_init q)); [| done].
  destruct (Headers.has _ _); [done |]. by apply lookup_append_ne.
Qed.

Lemma contentLengthValue_ext (r1 r2 : Request) :
  body r1 = body r2 -> method r1 = method r2 ->
  contentLengthValue r1 = contentLengthValue r2.
Proof. intros Hb Hm. unfold contentLengthValue. by rewrite Hb, Hm. Qed.

(** X13. After a redirect that is followed without a method rewrite
    (307, 308, or 301 and 302 for a method other than POST), nothing has been
    written to the store and the request keeps its body; the transport call of
    the next hop goes to the resolved URL with the same method, the
    [Content-Length] that the request in hand is sent with, and the same values
    under every name other than [Content-Type] and the six written names. *)
Theorem unrewritten_hop_repeats_the_request (request : Request)
    (res : IncomingMessage) (st : Store) (next : string) (q : Request)
    (st' : Store) (n : nat) :
  respond request res st = (Normal (Redirect next q), st') ->
  rewritesToGET (statusCode res) (method request) = false ->
  method request <> "" ->
  method request = JS.toUpperCase (method request) ->
  body request = None \/ (method request <> "GET" /\ method request <> "HEAD") ->
  (useElectronNet request = true -> onElectron = true) ->
  absoluteHTTP (parseURL next) = true ->
  st' = st /\
  body q = body request /\
  exists o calls out st'',
    run (S n) (InputURL next) (as_init q) st' = ((o :: calls, out), st'') /\
    opt_url o = parseURL next /\
    opt_method o = method request /\
    opt_headers o !! "content-length"
    = sentHeaders request (Headers.deref st (headers request)) !! "content-length" /\
    forall k : string,
      k ∉ writtenNames -> k <> "content-type" ->
      opt_headers o !! k = Headers.deref st (headers request) !! k.
Proof.
  intros Hrun Hrw Hme Hupper Hb Hnet Habs.
  destruct (onResponse_redirect formatURL resolveURL _ _ _ _ _ _ Hrun) as [Hfol Hq].
  destruct (onResponse_follows parseURL formatURL resolveURL request res st Hfol)
    as (location & q' & st1 & _ & Hrun' & _ & Hh & _ & Hsame).
  rewrite Hrun in Hrun'. injection Hrun' as _ <- <-.
  destruct Hsame as (Hm & Hbody & Hst).
  { intros Hr. apply (rewritesToGET_spec parseURL formatURL resolveURL) in Hr. by rewrite Hr in Hrw. }
  subst st'. split; [done |]. split; [done |].
  assert (Hu : useElectronNet q = useElectronNet request).
  { rewrite Hq. unfold redirected. by rewrite Hrw. }
  destruct (Request_new_hop next q st) as (r & m & Hnew & Hhr & Hp & Hmr & Hbr & _ & Hother).
  { by rewrite Hm. }
  { by rewrite Hm, Hbody. }
  { by rewrite Hu. }
  rewrite Hm, <- Hupper in Hmr. rewrite Hbody in Hbr. rewrite Hh in Hother.
  cbn [fetch]. rewrite Hnew.
  rewrite getNodeRequestOptions_ok by (by rewrite Hp).
  rewrite Hhr, deref_alloc.
  fold (callOf r m). set (o := callOf r m).
  assert (Ho : opt_url o = parseURL next /\
               opt_method o = method request /\
               opt_headers o !! "content-length"
               = sentHeaders request (Headers.deref st (headers request))
                   !! "content-length" /\
               forall k : string,
                 k ∉ writtenNames -> k <> "content-type" ->
                 opt_headers o !! k = Headers.deref st (headers request) !! k).
  { unfold o, callOf.
    destruct (hostHack_fields
                {| opt_url := parsedURL r; opt_method := method r;
                   opt_headers := sentHeaders r m |})
      as (-> & -> & Hkeep & _).
    cbn [opt_url opt_method opt_headers] in *.
    split; [done |]. split; [done |]. split.
    - rewrite Hkeep by done. rewrite !sent_content_length.
      rewrite (contentLengthValue_ext r request) by done.
      by rewrite Hother.
    - intros k Hk Hct. rewrite Hkeep.
      + rewrite sent_other by done. by apply Hother.
      + intros ->. apply Hk, host_is_written. }
  destruct (deliverAll (transport o) _ _) as [x st2].
  destruct (ex_promise x) as [[e | response | next' q2] |].
  - by do 4 eexists.
  - by do 4 eexists.
  - destruct (run n (InputURL next') (as_init q2) st2) as [[calls out] st3].
    by do 4 eexists.
  - by do 4 eexists.
Qed.

(** ** The options of the next hop *)

(** X24.  The request of the hop after a redirect is constructed with the
    options of the request in hand: it has the same timeout, so that the
    timer is armed anew for every hop and with the same delay, the same size
    limit, follow limit and transport, the counter one higher, and the same
    redirect mode, an empty mode becoming [follow]. *)
Theorem hop_inherits_the_options (request : Request) (res : IncomingMessage)
    (st : Store) (next : string) (q : Request) (st' : Store)
    (r : Request) (st'' : Store) :
  respond request res st = (Normal (Redirect next q), st') ->
  construct (InputURL next) (as_init q) st' = (Normal r, st'') ->
  parsedURL r = parseURL next /\
  timeout r = timeout request /\
  ex_timer (start r) = ex_timer (start request) /\
  size r = size request /\
  follow r = follow request /\
  counter r = counter request + 1 /\
  useElectronNet r = useElectronNet request /\
  redirect r = (if JS.truthy_str (redirect request) then redirect request else "follow").
Proof.
  intros Hrun Hnew.
  destruct (onResponse_redirect formatURL resolveURL _ _ _ _ _ _ Hrun) as [_ Hq].
  assert (Hfields : timeout q = timeout request /\ size q = size request /\
                    follow q = follow request /\ counter q = counter request + 1 /\
                    useElectronNet q = useElectronNet request /\
                    session q = session request /\ redirect q = redirect request).
  { rewrite Hq. unfold redirected.
    by destruct (rewritesToGET (statusCode res) (method request)). }
  destruct Hfields as (Ht & Hs & Hf & Hc & Hu & Hse & Hr).
  destruct (Request_new_inv _ _ _ _ _ Hnew)
    as (_ & _ & _ & _ & Hp & _ & _ & _ & _ & _ & Ht' & Hs' & Hc' & Hf' & Hr' & Hu' & _ & Hse').
  assert (Hnz : forall t : Z, firstNonZero (Some t) None = t).
  { intros t. unfold firstNonZero, JS.or_onum. cbn.
    destruct (t =? 0) eqn:Hz; cbn; [| by rewrite Hz].
    apply Z.eqb_eq in Hz. by rewrite Hz. }
  cbn [as_init init_timeout init_size init_counter init_follow init_redirect
       init_useElectronNet init_session inherited requestedElectronNet] in *.
  rewrite Hnz in Ht', Hs', Hc'.
  assert (Htimeout : timeout r = timeout request) by (by rewrite Ht').
  split; [exact Hp |]. split; [exact Htimeout |].
  split; [unfold start; cbn [ex_timer]; by rewrite Htimeout |].
  split; [by rewrite Hs' |]. split; [by rewrite Hf' |].
  split; [by rewrite Hc' |]. split; [by rewrite Hu' |].
  rewrite Hr', Hr. by destruct (redirect request).
Qed.

End Further.

(** ** [FetchError]: the code of a [net] error *)

Lemma afterLastNet_found (pre code : string) :
  afterLastNet code = None ->
  afterLastNet (pre ++ "net::" ++ code) = Some code.
Proof.
  intros Hcode. induction pre as [| c pre IH].
  - change ("" ++ "net::" ++ code)
      with (String "n" (String "e" (String "t" (String ":" (String ":" code))))).
    cbn [afterLastNet]. rewrite Hcode. reflexivity.
  - change (String c pre ++ "net::" ++ code)
      with (String c (pre ++ "net::" ++ code)).
    cbn [afterLastNet]. by rewrite IH.
Qed.

(** X16. For a one-line message that ends in [net::] and a code (the form
    of the errors of Electron's [net] module), a [FetchError] carries as [code]
    and [errno] what [netErrorMap] gives for the code, or the code itself when
    the map has no entry, whatever system error was passed along; [message]
    and [type] are as given. *)
Theorem net_error_code_is_extracted (pre code type : string)
    (systemError : option SystemError) :
  let message := pre ++ "net::" ++ code in
  Lines.firstLine message = message ->
  afterLastNet code = None ->
  let e := FetchError_new message type systemError in
  fo_message e = message /\
  fo_type e = type /\
  fo_code e = Some (default code (netErrorMap !! code)) /\
  fo_errno e = fo_code e.
Proof.
  intros message Hline Hcode e. unfold e, FetchError_new, netErrorCode.
  rewrite Hline. unfold message. by rewrite afterLastNet_found.
Qed.

Section Bundle.

Import TweakDefault.

Lemma split_nonempty (s : string) : split s <> [].
Proof.
  induction s as [| c r IH]; [done |]. cbn [split].
  destruct (Ascii.eqb c _); [done |]. by destruct (split r).
Qed.

Lemma join_cons (l : string) (ls : list string) :
  ls <> [] -> join (l :: ls) = l ++ Lines.LF ++ join ls.
Proof. intros Hne. unfold join. cbn. by destruct ls. Qed.

(** Splitting and joining again gives the source back. *)
Lemma join_split (s : string) : join (split s) = s.
Proof.
  induction s as [| c r IH]; [done |]. cbn [split].
  destruct (Ascii.eqb c (ascii_of_nat 10)) eqn:Hc.
  - apply Ascii.eqb_eq in Hc. subst c.
    rewrite join_cons by apply split_nonempty. by rewrite IH.
  - pose proof (split_nonempty r) as Hne.
    destruct (split r) as [| l ls]; [done |].
    destruct ls as [| l2 ls].
    + cbn in *. by rewrite IH.
    + rewrite join_cons by done. rewrite join_cons in IH by done.
      rewrite <- IH. reflexivity.
Qed.

Lemma rewriteFirst_none (lines : list string) :
  Forall (fun line => matches line = None) lines -> rewriteFirst lines = lines.
Proof.
  induction 1 as [| line lines Hl _ IH]; [done |].
  cbn [rewriteFirst]. by rewrite Hl, IH.
Qed.

(** X22. A bundle none of whose lines is a default export is returned
    byte for byte: splitting at the newlines and joining again gives the
    source back. *)
Theorem bundle_without_default_export_is_unchanged (source : string) :
  Forall (fun line => matches line = None) (split source) ->
  transformBundle source = source.
Proof.
  intros Hnone. unfold transformBundle.
  rewrite rewriteFirst_none by done. apply join_split.
Qed.


Lemma startsWith_app (p x : string) : Lines.startsWith (p ++ x) p = true.
Proof.
  induction p as [| c p IH]; [done |].
  change (String c p ++ x) with (String c (p ++ x)).
  cbn [Lines.startsWith]. by rewrite Ascii.eqb_refl, IH.
Qed.

Lemma slice_app (p x : string) : Lines.slice (String.length p) (p ++ x) = x.
Proof. induction p as [| c p IH]; [by destruct x | exact IH]. Qed.

Lemma beforeSemicolon_app (value : string) :
  beforeSemicolon (value ++ ";") = Some value.
Proof.
  induction value as [| c v IH]; [done |].
  change (String c v ++ ";") with (String c (v ++ ";")).
  cbn [beforeSemicolon]. rewrite IH.
  destruct v; reflexivity.
Qed.

Lemma matches_export (value : string) :
  Lines.firstLine value = value ->
  matches (exportPrefix ++ value ++ ";") = Some value.
Proof.
  intros Hv. unfold matches.
  rewrite startsWith_app, slice_app, beforeSemicolon_app, Hv.
  by rewrite String.eqb_refl.
Qed.

Lemma split_line_inv (c : ascii) (r : string) :
  split (String c r) = [String c r] ->
  Ascii.eqb c (ascii_of_nat 10) = false /\ split r = [r].
Proof.
  cbn [split]. destruct (Ascii.eqb c (ascii_of_nat 10)); [discriminate |].
  pose proof (split_nonempty r) as Hne.
  destruct (split r) as [| l ls]; [done |]. by intros [= -> ->].
Qed.

(** A string without a newline, put in front of a source, extends the
    first line of the source. *)
Lemma split_app_line (a b : string) :
  split a = [a] ->
  split (a ++ b)
  = match split b with
    | first :: rest => (a ++ first) :: rest
    | [] => [a]
    end.
Proof.
  induction a as [| c a IH]; intros Ha.
  - change ("" ++ b) with b. pose proof (split_nonempty b) as Hne.
    by destruct (split b).
  - apply split_line_inv in Ha as [Hc Ha].
    change (String c a ++ b) with (String c (a ++ b)).
    cbn [split]. rewrite Hc, (IH Ha).
    pose proof (split_nonempty b) as Hne.
    by destruct (split b).
Qed.

Lemma append_empty (a : string) : a ++ "" = a.
Proof.
  induction a as [| c a IH]; [done |].
  change (String c a ++ "") with (String c (a ++ "")). by rewrite IH.
Qed.

(** Joining lines and splitting again gives the lines back. *)
Lemma split_join (lines : list string) :
  lines <> [] ->
  Forall (fun line => split line = [line]) lines ->
  split (join lines) = lines.
Proof.
  intros Hne Hall. induction Hall as [| l ls Hl Hls IH]; [done |].
  destruct ls as [| l2 ls]; [exact Hl |].
  rewrite join_cons by done. rewrite split_app_line by done.
  change (Lines.LF ++ join (l2 :: ls)) with (String (ascii_of_nat 10) (join (l2 :: ls))).
  cbn [split]. rewrite Ascii.eqb_refl, append_empty. by rewrite IH.
Qed.

Lemma firstLine_single (value : string) :
  Lines.firstLine value = value -> split value = [value].
Proof.
  induction value as [| c v IH]; [done |].
  cbn [Lines.firstLine].
  destruct (Lines.atLineTerminator (String c v)) eqn:Ht; [discriminate |].
  intros [= Hv]. cbn [split].
  unfold Lines.atLineTerminator in Ht.
  repeat (apply orb_false_elim in Ht as [Ht _]).
  cbn in Ht. rewrite Ascii.eqb_sym in Ht. rewrite Ht.
  by rewrite (IH Hv).
Qed.

Lemma rewriteFirst_app (before after : list string) (line value : string) :
  Forall (fun line => matches line = None) before ->
  matches line = Some value ->
  rewriteFirst (before ++ line :: after)%list
  = (before ++ replacement value :: after)%list.
Proof.
  intros Hb Hl. induction Hb as [| b bs Hnone _ IH]; cbn [app rewriteFirst].
  - by rewrite Hl.
  - by rewrite Hnone, IH.
Qed.

(** X23. In a bundle, the first line of the form
    [exports['default'] = value;] is replaced by
    [module.exports = exports = value;]; the lines before and after it, later
    default exports among them, are returned as they are. *)
Theorem first_default_export_is_rewritten (before after : list string)
    (value : string) :
  Forall (fun line => split line = [line]) (before ++ after)%list ->
  Forall (fun line => matches line = None) before ->
  Lines.firstLine value = value ->
  let line := exportPrefix ++ value ++ ";" in
  transformBundle (join (before ++ line :: after)%list)
  = join (before ++ replacement value :: after)%list.
Proof.
  intros Hlines Hbefore Hvalue line. unfold transformBundle, line.
  apply Forall_app in Hlines as [Hb Ha].
  rewrite split_join.
  - rewrite (rewriteFirst_app before after _ value); [done | done |].
    by apply matches_export.
  - by destruct before.
  - apply Forall_app. split; [done |]. constructor; [| done].
    rewrite split_app_line by done.
    rewrite split_app_line by (by apply firstLine_single).
    reflexivity.
Qed.

End Bundle.

(** ** The executor with an abort signal *)

Section AbortableProperties.

Import Abortable.

Variable formatURL : ParsedURL -> string.
Variable resolveURL : string -> RawHeader -> string.
Variable opts : Options.

Local Abbreviation handleEvent := (handle formatURL resolveURL opts).
Local Abbreviation deliverAll := (deliver formatURL resolveURL opts).
Local Abbreviation beginWith := (begin opts).

Lemma abortable_handle_normal (e : Event) (s : State) (st : Store) :
  exists s' st', handleEvent e s st = (Normal s', st').
Proof.
  unfold handle. destruct (negb (sent s)); [by do 2 eexists |].
  destruct e; try by do 2 eexists.
  unfold onResponseEvent, bind.
  destruct (onResponse_normal formatURL resolveURL (request (standDown opts s)) res st)
    as (r & st' & -> & _).
  by do 2 eexists.
Qed.

Lemma settle_kept (v0 v : Settled) (s : State) :
  promise s = Some v -> settle v0 s = s.
Proof. intros Hp. unfold settle. by rewrite Hp. Qed.

Lemma stoodDown_handle (v : Settled) (e : Event) (s s' : State) (st st' : Store) :
  stoodDown v s -> handleEvent e s st = (Normal s', st') -> stoodDown v s'.
Proof.
  intros (Hp & Hc & Ht & Ha) Hrun. unfold handle in Hrun.
  destruct (negb (sent s)); [by injection Hrun as <- _ |].
  destruct e; cbn [handle] in Hrun.
  - injection Hrun as <- _. unfold onAbort. rewrite Ha.
    destruct (abortBodyOn s); [| done].
    unfold abortBody, onResponseError. cbn.
    destruct (piped s); [| done]. by destruct (decoding s), (hasSignal opts).
  - injection Hrun as <- _. by rewrite Ht.
  - injection Hrun as <- _. unfold onLogin.
    destruct (useElectronNet (request s)); [| done].
    destruct (_ && _); [done |].
    rewrite settle_kept with (v := v); done.
  - injection Hrun as <- _. unfold onRequestError.
    rewrite settle_kept with (v := v); unfold standDown;
      by destruct (hasSignal opts).
  - injection Hrun as <- _. unfold onRequestAborted, standDown.
    by destruct (hasSignal opts).
  - unfold onResponseEvent, bind in Hrun.
    destruct (onResponse formatURL resolveURL (request (standDown opts s)) res st)
      as [[r | ex] st1]; [| discriminate].
    injection Hrun as <- _.
    assert (Hs : stoodDown v (standDown opts s)).
    { unfold standDown. by destruct (hasSignal opts). }
    destruct Hs as (Hp' & Hc' & Ht' & Ha').
    destruct r as [err | next q | response | source o].
    + by rewrite settle_kept with (v := v).
    + by rewrite settle_kept with (v := v).
    + rewrite settle_kept with (v := v); unfold pipeInto, setUpBody;
        by destruct (resp_decoder response), (hasSignal opts).
    + unfold setUpBody. by destruct (hasSignal opts).
  - injection Hrun as <- _. unfold onRawData.
    destruct (raw s) as [[source o] |]; [| done].
    rewrite settle_kept with (v := v); unfold pipeInto;
      by destruct (resp_decoder _).
  - injection Hrun as <- _. unfold onResponseEnd.
    by destruct (piped s && hasSignal opts).
  - injection Hrun as <- _. unfold onResponseError.
    cbn [decoding set_bodyErrors].
    destruct (piped s); [| done]. by destruct (decoding s), (hasSignal opts).
Qed.

Lemma stoodDown_deliver (v : Settled) (es : list Event) (s : State) (st : Store) :
  stoodDown v s -> stoodDown v (fst (deliverAll es s st)).
Proof.
  revert s st. induction es as [| e es IH]; intros s st Hs; [done |].
  cbn [deliver]. destruct (abortable_handle_normal e s st) as (s' & st' & Hrun).
  rewrite Hrun. apply IH. by eapply stoodDown_handle.
Qed.

Lemma promise_standDown (s : State) : promise (standDown opts s) = promise s.
Proof. unfold standDown. by destruct (hasSignal opts). Qed.

Lemma promise_setUpBody (s : State) : promise (setUpBody opts s) = promise s.
Proof. unfold setUpBody. by destruct (hasSignal opts). Qed.

Lemma promise_pipeInto (d : Decoder) (s : State) : promise (pipeInto d s) = promise s.
Proof. by destruct d. Qed.

Lemma promise_onResponseError (err : SystemError) (s : State) :
  promise (onResponseError opts err s) = promise s.
Proof.
  unfold onResponseError. cbn [decoding set_bodyErrors].
  destruct (piped s); [| done]. by destruct (decoding s), (hasSignal opts).
Qed.

Lemma promise_settle (v0 v : Settled) (s : State) :
  promise s = Some v -> promise (settle v0 s) = Some v.
Proof. intros Hp. by rewrite (settle_kept v0 v). Qed.

(** Once the promise is settled, no handler changes it. *)
Lemma abortable_promise_kept (v : Settled) (e : Event) (s s' : State) (st st' : Store) :
  promise s = Some v -> handleEvent e s st = (Normal s', st') -> promise s' = Some v.
Proof.
  intros Hp Hrun. unfold handle in Hrun.
  destruct (negb (sent s)); [by injection Hrun as <- _ |].
  destruct e; cbn [handle] in Hrun.
  - injection Hrun as <- _. unfold onAbort.
    assert (Hreq : promise (if abortRequestOn s then abortRequest formatURL opts s else s)
                   = Some v).
    { destruct (abortRequestOn s); [| done].
      unfold abortRequest, onRequestError. apply promise_settle.
      rewrite promise_standDown. unfold cancelRequest. cbn [promise set_cancelled].
      by apply promise_settle. }
    destruct (abortBodyOn s); [| done].
    unfold abortBody. by rewrite promise_onResponseError.
  - injection Hrun as <- _. destruct (timer s); [| done].
    unfold onTimeout, cancelRequest. cbn [promise set_cancelled].
    by apply promise_settle.
  - injection Hrun as <- _. unfold onLogin.
    destruct (useElectronNet (request s)); [| done].
    destruct (_ && _); [done |]. by apply promise_settle.
  - injection Hrun as <- _. unfold onRequestError. apply promise_settle.
    by rewrite promise_standDown.
  - injection Hrun as <- _. unfold onRequestAborted. by rewrite promise_standDown.
  - unfold onResponseEvent, bind in Hrun.
    destruct (onResponse formatURL resolveURL (request (standDown opts s)) res st)
      as [[r | ex] st1]; [| discriminate].
    injection Hrun as <- _.
    destruct r as [err | next q | response | source o].
    + apply promise_settle. by rewrite promise_standDown.
    + apply promise_settle. cbn [promise set_request]. by rewrite promise_standDown.
    + apply promise_settle.
      by rewrite promise_pipeInto, promise_setUpBody, promise_standDown.
    + cbn [promise set_raw]. by rewrite promise_setUpBody, promise_standDown.
  - injection Hrun as <- _. unfold onRawData.
    destruct (raw s) as [[source o] |]; [| done]. apply promise_settle.
    by rewrite promise_pipeInto.
  - injection Hrun as <- _. unfold onResponseEnd.
    by destruct (piped s && hasSignal opts).
  - injection Hrun as <- _. by rewrite promise_onResponseError.
Qed.

Lemma abortable_deliver_settled (v : Settled) (es : list Event) (s : State)
    (st : Store) :
  promise s = Some v -> promise (fst (deliverAll es s st)) = Some v.
Proof.
  revert s st. induction es as [| e es IH]; intros s st Hp; [done |].
  cbn [deliver]. destruct (abortable_handle_normal e s st) as (s' & st' & Hrun).
  rewrite Hrun. apply IH. by eapply abortable_promise_kept.
Qed.

(** X17. With a signal that is already aborted the executor rejects with
    the abort error (message [request aborted], type [abort], no code) and
    returns before the request is sent: no handler is installed, and no event
    has any effect. *)
Theorem aborted_signal_sends_nothing (request : Request) (es : list Event)
    (st : Store) :
  signal opts = Some true ->
  sent (beginWith request) = false /\
  promise (beginWith request) = Some (RejectedWith abortError) /\
  fo_message abortError = "request aborted" /\
  fo_type abortError = "abort" /\
  fo_code abortError = None /\
  deliverAll es (beginWith request) st = (beginWith request, st).
Proof.
  intros Hs. unfold begin. rewrite Hs. cbn [default from_option id].
  do 5 (split; [done |]).
  induction es as [| e es IH]; [done |]. cbn [deliver handle sent negb]. exact IH.
Qed.

(** X18. While [abortRequest] listens, an abort of the signal rejects the
    promise with the abort error unless it was settled before, cancels the
    transport request, clears the timer and takes the listener off the signal;
    whatever events follow, all of this stays as it is. *)
Theorem abort_rejects_and_cancels (s : State) (rest : list Event) (st : Store) :
  is_Some (signal opts) ->
  sent s = true ->
  abortRequestOn s = true ->
  let s' := fst (deliverAll (Abort :: rest) s st) in
  promise s' = Some (default (RejectedWith abortError) (promise s)) /\
  cancelled s' = true /\
  timer s' = false /\
  abortRequestOn s' = false.
Proof.
  intros Hsig Hsent Hon s'.
  assert (Hstep : deliverAll (Abort :: rest) s st
                  = deliverAll rest (onAbort formatURL opts s) st).
  { cbn [deliver]. unfold handle. by rewrite Hsent. }
  unfold s'. rewrite Hstep. apply stoodDown_deliver.
  assert (Hhas : hasSignal opts = true) by (by apply bool_decide_eq_true_2).
  assert (Hfirst : stoodDown (default (RejectedWith abortError) (promise s))
                     (abortRequest formatURL opts s)).
  { unfold abortRequest, onRequestError, standDown. rewrite Hhas.
    unfold settle, cancelRequest, stoodDown.
    destruct (promise s) eqn:Hp; cbn; rewrite ?Hp; by cbn. }
  unfold onAbort. rewrite Hon.
  destruct (abortBodyOn s); [| done].
  destruct Hfirst as (Hp & Hc & Ht & Ha).
  unfold abortBody, onResponseError. cbn [piped decoding set_destroyed set_bodyErrors].
  destruct (piped _); [| done]. rewrite Hhas. by destruct (decoding _).
Qed.

Lemma gunzips_not_inflates (request : Request) (res : IncomingMessage) :
  gunzips request res = true -> inflates request res = false.
Proof.
  unfold gunzips, inflates. destruct (decodes _ _ _); [| done]. cbn [andb].
  intros Hg. apply orb_true_iff in Hg as [Hg | Hg]; apply String.eqb_eq in Hg;
    by rewrite Hg.
Qed.

(** [resolve] and [reject] touch the promise only. *)
Lemma settle_fields (v : Settled) (s : State) :
  sent (settle v s) = sent s /\ piped (settle v s) = piped s /\
  abortRequestOn (settle v s) = abortRequestOn s /\
  abortBodyOn (settle v s) = abortBodyOn s /\ timer (settle v s) = timer s /\
  bodyErrors (settle v s) = bodyErrors s /\ cancelled (settle v s) = cancelled s /\
  decoding (settle v s) = decoding s.
Proof. unfold settle. by destruct (promise s). Qed.

(** An abort while only [abortBody] listens. *)
Lemma abortBody_runs (s : State) (st : Store) :
  hasSignal opts = true ->
  sent s = true -> piped s = true -> abortRequestOn s = false ->
  abortBodyOn s = true -> bodyErrors s = [] -> cancelled s = false ->
  exists s2 : State,
    handleEvent Abort s st = (Normal s2, st) /\
    promise s2 = promise s /\
    destroyed s2 = true /\
    cancelled s2 = negb (decoding s) /\
    bodyErrors s2 = [asSystemError abortError] /\
    abortBodyOn s2 = false /\
    handleEvent Abort s2 st = (Normal s2, st).
Proof.
  intros Hhas Hsent Hpiped Hreq Hbody Herrs Hcan. unfold handle. rewrite Hsent.
  cbn [negb ret]. eexists. split; [reflexivity |].
  unfold onAbort. rewrite Hreq, Hbody.
  unfold abortBody, onResponseError.
  cbn [piped decoding set_destroyed set_bodyErrors]. rewrite Hpiped, Hhas.
  destruct (decoding s);
    cbn [promise destroyed cancelled bodyErrors abortBodyOn abortRequestOn sent
         set_abortBodyOn cancelRequest set_cancelled set_bodyErrors set_destroyed
         negb];
    rewrite ?Hsent, ?Hreq, ?Herrs, ?Hcan; by repeat split.
Qed.

(** X19. Once the headers of a response that is finalized have arrived,
    [abortRequest] no longer listens and [abortBody] does.  An abort then
    leaves the promise as it is; it destroys the response stream, emits the
    abort error on [body] and takes [abortBody] off the signal, so that a
    second abort does nothing.  The transport request is cancelled by it only
    while [body] is the stream that [cancelRequest] listens on: not when the
    response is piped into gunzip, and for a response that is to be inflated
    only until its first chunk has arrived. *)
Theorem abort_after_headers_errors_the_body (request : Request)
    (res : IncomingMessage) (st : Store) :
  signal opts = Some false ->
  finalizes request res = true ->
  exists (s1 : State) (st1 : Store),
    handleEvent (ResponseReceived res) (beginWith request) st = (Normal s1, st1) /\
    abortRequestOn s1 = false /\
    abortBodyOn s1 = true /\
    timer s1 = false /\
    cancelled s1 = false /\
    decoding s1 = gunzips request res /\
    (exists s2 : State,
       handleEvent Abort s1 st1 = (Normal s2, st1) /\
       promise s2 = promise s1 /\
       destroyed s2 = true /\
       cancelled s2 = negb (gunzips request res) /\
       bodyErrors s2 = [asSystemError abortError] /\
       abortBodyOn s2 = false /\
       handleEvent Abort s2 st1 = (Normal s2, st1)) /\
    (inflates request res = true ->
     forall chunk : string,
     exists s1' s2 : State,
       handleEvent (RawData chunk) s1 st1 = (Normal s1', st1) /\
       decoding s1' = true /\
       handleEvent Abort s1' st1 = (Normal s2, st1) /\
       promise s2 = promise s1' /\
       destroyed s2 = true /\
       cancelled s2 = false /\
       bodyErrors s2 = [asSystemError abortError] /\
       abortBodyOn s2 = false).
Proof.
  intros Hsig Hfin.
  assert (Hhas : hasSignal opts = true).
  { unfold hasSignal. rewrite Hsig. by apply bool_decide_eq_true_2. }
  set (s0 := setUpBody opts (standDown opts (beginWith request))).
  assert (Hs0 : sent s0 = true /\ piped s0 = true /\ abortRequestOn s0 = false /\
                abortBodyOn s0 = true /\ timer s0 = false /\ bodyErrors s0 = [] /\
                cancelled s0 = false /\ decoding s0 = false).
  { unfold s0, setUpBody, standDown, begin. rewrite Hhas, Hsig. by cbn. }
  destruct Hs0 as (H1 & H2 & H3 & H4 & H5 & H6 & H7 & H8).
  set (o := responseOptions formatURL request res (length st)).
  set (st1 := (st ++ [responseHeaders formatURL resolveURL request res])%list).
  assert (Hstep : handleEvent (ResponseReceived res) (beginWith request) st
                  = (Normal
                       (if gunzips request res then
                          settle (FulfilledWith (Response_new (chunks res) Gunzip o))
                            (set_decoding true s0)
                        else if inflates request res then
                          set_raw (Some (chunks res, o)) s0
                        else
                          settle (FulfilledWith (Response_new (chunks res) PassThrough o))
                            s0), st1)).
  { unfold s0, handle, begin. rewrite Hsig. cbn [default from_option id sent negb].
    unfold onResponseEvent, bind, standDown. rewrite Hhas.
    cbn [Abortable.request set_timer set_abortRequestOn].
    rewrite (onResponse_finalizes formatURL resolveURL _ _ _ Hfin).
    fold o st1. unfold gunzips, inflates, ret.
    destruct (decodes request res (codingsOf res)); cbn [andb]; [| reflexivity].
    destruct (_ || _); [reflexivity |]. by destruct (_ || _). }
  rewrite Hstep. do 2 eexists. split; [reflexivity |].
  destruct (gunzips request res) eqn:Hg; [| destruct (inflates request res) eqn:Hi].
  - destruct (settle_fields (FulfilledWith (Response_new (chunks res) Gunzip o))
                (set_decoding true s0)) as (K1 & K2 & K3 & K4 & K5 & K6 & K7 & K8).
    rewrite K3, K4, K5, K7, K8. do 5 (split; [done |]).
    split; [| by rewrite (gunzips_not_inflates _ _ Hg)].
    destruct (abortBody_runs _ st1 Hhas (eq_trans K1 H1) (eq_trans K2 H2)
                (eq_trans K3 H3) (eq_trans K4 H4) (eq_trans K6 H6) (eq_trans K7 H7))
      as (s2 & Hrun & Hrest).
    exists s2. split; [exact Hrun |]. by rewrite K8 in Hrest.
  - set (s1 := set_raw (Some (chunks res, o)) s0).
    do 5 (split; [done |]).
    split.
    + destruct (abortBody_runs s1 st1 Hhas H1 H2 H3 H4 H6 H7) as (s2 & Hrun & Hrest).
      exists s2. split; [exact Hrun |].
      change (decoding s1) with (decoding s0) in Hrest. by rewrite H8 in Hrest.
    + intros _ chunk.
      set (response := onFirstChunk (chunks res) o chunk).
      set (s1' := settle (FulfilledWith response)
                    (pipeInto (resp_decoder response) (set_raw None s1))).
      assert (Hchunk : handleEvent (RawData chunk) s1 st1 = (Normal s1', st1)).
      { unfold handle. change (sent s1) with (sent s0). by rewrite H1. }
      assert (Hpiped : pipeInto (resp_decoder response) (set_raw None s1)
                       = set_decoding true (set_raw None s1)).
      { unfold response, onFirstChunk. by destruct (looksZlibWrapped chunk). }
      assert (Hs1' : sent s1' = true /\ piped s1' = true /\ abortRequestOn s1' = false /\
                     abortBodyOn s1' = true /\ bodyErrors s1' = [] /\
                     cancelled s1' = false /\ decoding s1' = true).
      { destruct (settle_fields (FulfilledWith response)
                    (pipeInto (resp_decoder response) (set_raw None s1)))
          as (K1 & K2 & K3 & K4 & _ & K6 & K7 & K8).
        unfold s1'. rewrite K1, K2, K3, K4, K6, K7, K8, Hpiped.
        repeat split; [exact H1 | exact H2 | exact H3 | exact H4 | exact H6 | exact H7]. }
      destruct Hs1' as (L1 & L2 & L3 & L4 & L6 & L7 & L8).
      destruct (abortBody_runs s1' st1 Hhas L1 L2 L3 L4 L6 L7)
        as (s2 & Hrun & Hp & Hd & Hc & He & Hb & _).
      exists s1', s2. split; [exact Hchunk |]. split; [exact L8 |].
      split; [exact Hrun |]. split; [exact Hp |]. split; [exact Hd |].
      split; [| done]. by rewrite Hc, L8.
  - destruct (settle_fields (FulfilledWith (Response_new (chunks res) PassThrough o)) s0)
      as (K1 & K2 & K3 & K4 & K5 & K6 & K7 & K8).
    rewrite K3, K4, K5, K7, K8. do 5 (split; [done |]).
    split; [| done].
    destruct (abortBody_runs _ st1 Hhas (eq_trans K1 H1) (eq_trans K2 H2)
                (eq_trans K3 H3) (eq_trans K4 H4) (eq_trans K6 H6) (eq_trans K7 H7))
      as (s2 & Hrun & Hrest).
    exists s2. split; [exact Hrun |]. by rewrite K8, H8 in Hrest.
Qed.

(** X20. The ['login'] event has no effect on Node's transport.  On
    Electron's, with a user and a password in the options the callback is
    called with them, and the promise and the transport request are left
    alone; with either of them missing or empty the transport request is
    cancelled and the promise rejected with a [proxy] error, whose code is
    [PROXY_AUTH_FAILED] as long as its message does not itself match the
    [net::] pattern. *)
Theorem login_needs_credentials (host : string) (s : State) (st : Store) :
  sent s = true ->
  exists s' : State,
    handleEvent (Login host) s st = (Normal s', st) /\
    (useElectronNet (request s) = false -> s' = s) /\
    (useElectronNet (request s) = true ->
     forall u p : string,
       user opts = Some u -> password opts = Some p -> u <> "" -> p <> "" ->
       answers s' = (answers s ++ [(u, p)])%list /\
       promise s' = promise s /\
       cancelled s' = cancelled s) /\
    (useElectronNet (request s) = true ->
     JS.truthy_ostr (user opts) = false \/ JS.truthy_ostr (password opts) = false ->
     promise s' = Some (default (RejectedWith (proxyError host)) (promise s)) /\
     cancelled s' = true /\
     answers s' = answers s /\
     fo_type (proxyError host) = "proxy" /\
     (netErrorCode (fo_message (proxyError host)) = None ->
      fo_code (proxyError host) = Some "PROXY_AUTH_FAILED")).
Proof.
  intros Hsent. unfold handle. rewrite Hsent. cbn [negb ret].
  eexists. split; [reflexivity |]. unfold onLogin. split; [| split].
  - by intros ->.
  - intros -> u p -> -> Hu Hp.
    assert (Hyes : JS.truthy_ostr (Some u) && JS.truthy_ostr (Some p) = true).
    { unfold JS.truthy_ostr, JS.truthy_str. apply String.eqb_neq in Hu, Hp.
      by rewrite Hu, Hp. }
    rewrite Hyes. by cbn.
  - intros -> Hmissing.
    assert (Hno : JS.truthy_ostr (user opts) && JS.truthy_ostr (password opts) = false).
    { destruct Hmissing as [-> | ->]; [done | apply andb_false_r]. }
    rewrite Hno. unfold settle, cancelRequest. cbn [promise set_cancelled].
    split; [by destruct (promise s) eqn:Hp; cbn; rewrite ?Hp |].
    split; [by destruct (promise s) |].
    split; [by destruct (promise s) |].
    split; [done |].
    intros Hnet. unfold proxyError, FetchError_new in *. cbn [fo_message] in Hnet.
    by rewrite Hnet.
Qed.

(** X21. Unless the signal is already aborted the request is sent.  With
    Electron's transport and an [agent] in the options the promise is rejected
    with an error beforehand, and it stays rejected whatever the transport
    delivers; otherwise the promise starts out pending. *)
Theorem agent_is_refused_on_electron (request : Request) (es : list Event)
    (st : Store) :
  default false (signal opts) = false ->
  sent (beginWith request) = true /\
  (useElectronNet request = true ->
   agent opts = true ->
   promise (fst (deliverAll es (beginWith request) st))
   = Some (RejectedError agentMessage)) /\
  (useElectronNet request = false \/ agent opts = false ->
   promise (beginWith request) = None).
Proof.
  intros Hsig. unfold begin. rewrite Hsig. split; [done |]. split.
  - intros -> ->. by apply abortable_deliver_settled.
  - intros [-> | ->]; [done |]. by rewrite andb_false_r.
Qed.

End AbortableProperties.

(** * The statements at concrete requests *)

Lemma redirect_followed_witness :
  exists request' st',
    onResponse Examples.format Examples.resolve
      (Examples.request "POST" (Some (BText "a=1")))
      (mkIncoming 302 "Found" [("location", RawString "/next")] [])
      Examples.store
    = (Normal (Redirect "/next" request'), st') /\
    counter request' = 1 /\ method request' = "GET" /\ body request' = None.
Proof.
  destruct (redirect_followed Examples.parse Examples.format false Examples.resolve
              (fun _ => [])
              (Examples.request "POST" (Some (BText "a=1")))
              (mkIncoming 302 "Found" [("location", RawString "/next")] [])
              Examples.store)
    as (location & request' & st' & Hloc & Hrun & Hcnt & _ & Hrw & _);
    [reflexivity |].
  injection Hloc as <-.
  destruct Hrw as (Hm & Hb & _); [right; split; [by right | reflexivity] |].
  exists request', st'. repeat split; assumption.
Defined.

(** A 301 under the policy [error]. *)
Lemma redirect_rejections_witness :
  onResponse Examples.format Examples.resolve
    (mkRequest Examples.exampleURL "GET" "error" 0%nat None false 0 0 false false 0 0 None)
    (mkIncoming 301 "Moved Permanently" [] [])
    Examples.store
  = (Normal (Reject (mkFetchError
                       "redirect mode is set to error: http://example.com/upload"
                       "no-redirect")),
     Examples.store).
Proof.
  refine (proj1 (redirect_rejections Examples.format Examples.resolve
                   (mkRequest Examples.exampleURL "GET" "error" 0%nat None false
                      0 0 false false 0 0 None)
                   (mkIncoming 301 "Moved Permanently" [] [])
                   Examples.store _ _) _).
  - reflexivity.
  - discriminate.
  - reflexivity.
Defined.

(** A 200 with [Content-Encoding: gzip] over Node's transport. *)
Lemma decoding_selected_witness :
  exists o st',
    onResponse Examples.format Examples.resolve
      (Examples.request "GET" None)
      (mkIncoming 200 "OK" [("content-encoding", RawString "gzip")] ["chunk"])
      Examples.store
    = (Normal (Resolve (Response_new ["chunk"] Gunzip o)), st').
Proof.
  destruct (decoding_selected Examples.format Examples.resolve
              (Examples.request "GET" None)
              (mkIncoming 200 "OK" [("content-encoding", RawString "gzip")] ["chunk"])
              Examples.store)
    as (o & st' & _ & Hdec); [reflexivity |].
  exists o, st'.
  apply Hdec.
  - unfold skipsDecoding. vm_compute. intros [H | [H | [H | [H | H]]]]; discriminate.
  - left. reflexivity.
Defined.

(** A POST with the three-byte text body [a=1]. *)
Lemma content_length_computed_witness :
  exists o request' st',
    getNodeRequestOptions (Examples.request "POST" (Some (BText "a=1"))) Examples.store
    = (Normal (o, request'), st') /\
    opt_headers o !! "content-length" = Some ["3"] /\
    chunkedEncoding request' = false.
Proof.
  destruct (content_length_computed
              (Examples.request "POST" (Some (BText "a=1"))) Examples.store)
    as (o & request' & st' & Hrun & Hsent); [reflexivity |].
  exists o, request', st'. split; [exact Hrun | exact Hsent].
Defined.

(** C4 as stated fails: a POST whose body is a stream (no known length) and
    whose caller supplied [Content-Length: 1000] is handed to the transport
    with that [Content-Length], and marked as chunked. *)
Lemma content_length_absent_counterexample :
  let init :=
    mkInit (Some "POST") (Some (BStream (Source 0))) None None None
      (Some (Headers.FromRecord [("Content-Length", "1000")]))
      None None None None None in
  getTotalBytes (BStream (Source 0)) = None /\
  exists request st1 o request' st2,
    Request_new Examples.parse Examples.format false
      (InputURL "http://example.com/") init [] = (Normal request, st1) /\
    getNodeRequestOptions request st1 = (Normal (o, request'), st2) /\
    Headers.get (opt_headers o) "Content-Length" = Some "1000" /\
    chunkedEncoding request' = true /\
    map (fun o => Headers.get (opt_headers o) "Content-Length")
      (fst (fst (Examples.fetchFrom (fun _ => [Examples.ok]) init)))
    = [Some "1000"].
Proof.
  intros init. split; [reflexivity |].
  do 5 eexists. split; [vm_compute; reflexivity |].
  split; [vm_compute; reflexivity |].
  split; [vm_compute; reflexivity |].
  split; [reflexivity | vm_compute; reflexivity].
Qed.

(** A GET whose caller supplied no [Accept], [User-Agent] or [Connection]. *)
Lemma default_headers_sent_witness :
  exists o request' st',
    getNodeRequestOptions (Examples.request "GET" None) Examples.store
    = (Normal (o, request'), st') /\
    opt_headers o !! "accept" = Some ["*/*"] /\
    opt_headers o !! "user-agent" = Some [userAgent false] /\
    opt_headers o !! "connection" = Some ["close"] /\
    opt_headers o !! "accept-encoding" = Some ["gzip,deflate"].
Proof.
  destruct (default_headers_sent (Examples.request "GET" None) Examples.store)
    as (o & request' & st' & Hrun & Hsent); [reflexivity |].
  exists o, request', st'. split; [exact Hrun | exact Hsent].
Defined.

(** C5 as stated fails: the caller's [Accept-Encoding: identity] is replaced
    by [gzip,deflate]. *)
Lemma accept_encoding_counterexample :
  let init :=
    mkInit None None None None None
      (Some (Headers.FromRecord [("Accept-Encoding", "identity")]))
      None None None None None in
  exists request st1 o request' st2,
    Request_new Examples.parse Examples.format false
      (InputURL "http://example.com/") init [] = (Normal request, st1) /\
    Headers.get (Headers.deref st1 (headers request)) "Accept-Encoding"
    = Some "identity" /\
    getNodeRequestOptions request st1 = (Normal (o, request'), st2) /\
    Headers.get (opt_headers o) "Accept-Encoding" = Some "gzip,deflate" /\
    map (fun o => Headers.get (opt_headers o) "Accept-Encoding")
      (fst (fst (Examples.fetchFrom (fun _ => [Examples.ok]) init)))
    = [Some "gzip,deflate"].
Proof.
  intros init.
  do 5 eexists. split; [vm_compute; reflexivity |].
  split; [vm_compute; reflexivity |].
  split; [vm_compute; reflexivity |].
  split; vm_compute; reflexivity.
Qed.

(** An empty string is a body: with the default method it is refused. *)
Lemma body_with_GET_or_HEAD_witness :
  Request_new Examples.parse Examples.format false
    (InputURL "http://example.com/")
    (mkInit None (Some (BText "")) None None None None None None None None None) []
  = (Throw bodyTypeError, []).
Proof.
  refine (proj1 (proj1 (body_with_GET_or_HEAD Examples.parse Examples.format false
                           Examples.resolve (fun _ => []) _ _ _ _) _)).
  - reflexivity.
  - left. reflexivity.
Defined.

(** C6, at an input where the code departs from it.  The body check
    compares the method as it was supplied and the constructor upper-cases it
    only afterwards: with the method [get] and a body the construction does
    not throw, it returns a request whose method is [GET] and which carries
    the body, and [fetch] hands that request to the transport, as a [GET] with
    [Content-Length: 1].  [clone()] of the request, which finds the method in
    upper case, throws the type error of the body check. *)
Example lower_case_get_keeps_body :
  let init :=
    mkInit (Some "get") (Some (BText "a")) None None None None None None None None None in
  let request :=
    mkRequest (Examples.parse "http://example.com/") "GET" "follow" 0%nat
      (Some (BText "a")) false 0 0 false false 20 0 None in
  let st' := [Headers.append ∅ "Content-Type" "text/plain;charset=UTF-8"] in
  Request_new Examples.parse Examples.format false (InputURL "http://example.com/") init []
  = (Normal request, st') /\
  (exists o response st'',
     Examples.fetchFrom (fun _ => [Examples.ok]) init = (([o], Done response), st'') /\
     opt_method o = "GET" /\
     Headers.get (opt_headers o) "Content-Length" = Some "1") /\
  Request_clone Examples.parse Examples.format false request st'
  = (Throw bodyTypeError, st').
Proof.
  intros init request st'.
  split; [vm_compute; reflexivity |].
  split; [| vm_compute; reflexivity].
  do 3 eexists. split; [vm_compute; reflexivity |]. split; vm_compute; reflexivity.
Qed.

(** A timeout of 100 ms, and the timer fires first. *)
Lemma timeout_race_witness :
  let request :=
    mkRequest Examples.exampleURL "GET" "follow" 0%nat None false 100 0 false false 20 0 None in
  ex_promise (fst (deliver Examples.format Examples.resolve [TimerFired]
                     (start request) Examples.store))
  = Some (Rejected (mkFetchError "network timeout at: http://example.com/upload"
                      "request-timeout")).
Proof.
  intros request.
  destruct (timeout_race Examples.format Examples.resolve request Examples.store)
    as (_ & Hfire & _); [reflexivity |].
  exact (proj2 (Hfire [] eq_refl)).
Defined.

(** [compress: false], and a response with [Content-Encoding: gzip]. *)
Lemma compress_is_not_read_witness :
  let res := mkIncoming 200 "OK" [("content-encoding", RawString "gzip")] ["compressed"] in
  exists o response st3,
    opt_headers o !! "accept-encoding" = Some ["gzip,deflate"] /\
    fetch Examples.parse Examples.format false Examples.resolve
      (fun _ => [ResponseReceived res]) 1
      (InputURL "http://example.com/") (set_compress emptyInit (Some false)) []
    = (([hostHack o], Done response), st3) /\
    resp_decoder response = Gunzip.
Proof.
  intros res.
  set (request := mkRequest (Examples.parse "http://example.com/") "GET" "follow"
                    0%nat None false 0 0 false false 20 0 None).
  assert (Hnew : Request_new Examples.parse Examples.format false
                   (InputURL "http://example.com/")
                   (set_compress emptyInit (Some false)) []
                 = (Normal request, [∅]))
    by reflexivity.
  destruct (proj2 (compress_is_not_read Examples.parse Examples.format false
                     Examples.resolve (fun _ => [ResponseReceived res]) 0
                     (InputURL "http://example.com/") emptyInit (Some false) [])
              request [∅] _ _ _ Hnew (getNodeRequestOptions_ok request [∅] eq_refl))
    as [Haccept Hdecoded].
  destruct (Hdecoded res eq_refl) as (Hgzip & _).
  destruct Hgzip as (response & st3 & Hrun & Hdecoder).
  - intros [H | [H | [H | [H | H]]]]; vm_compute in H; discriminate.
  - left. vm_compute. reflexivity.
  - reflexivity.
  - eexists _, response, st3. split; [exact Haccept |]. split; [exact Hrun | exact Hdecoder].
Defined.

(** C9 as stated fails: with [compress: false], a response with
    [Content-Encoding: gzip] over Node's transport is piped through gunzip. *)
Lemma compress_false_counterexample :
  let gzipped (_ : NodeRequestOptions) :=
    [ResponseReceived
       (mkIncoming 200 "OK" [("content-encoding", RawString "gzip")] ["compressed"])] in
  exists calls response st',
    fetch Examples.parse Examples.format false Examples.resolve gzipped 1
      (InputURL "http://example.com/") (set_compress emptyInit (Some false)) []
    = ((calls, Done response), st') /\
    resp_decoder response = Gunzip.
Proof.
  intros gzipped. do 3 eexists. split; [vm_compute; reflexivity | reflexivity].
Qed.

(** The caller's headers after the options of a POST have been built. *)
Lemma request_headers_untouched_witness :
  snd (getNodeRequestOptions (Examples.request "POST" (Some (BText "a=1"))) Examples.store)
    !! 0%nat = Some Examples.callerHeaders.
Proof.
  destruct (request_headers_untouched Examples.parse Examples.format false
              Examples.resolve (fun _ => [])
              (Examples.request "POST" (Some (BText "a=1"))) Examples.store)
    as ((Hsame & _) & _); [by eexists |].
  exact Hsame.
Defined.

(** ** Scenarios of the repository's tests, run on the embedding *)

Module Scenarios.

Import Examples.

(** A server that redirects every request, against a follow limit of 1: the
    second redirect is refused. *)
Example chain_longer_than_follow :
  let init := mkInit None None None None None None None (Some 1) None None None in
  let result := fetchFrom (fun _ => [redirectTo 302 "/again"]) init in
  map opt_method (fst (fst result)) = ["GET"; "GET"] /\
  snd (fst result)
  = Failed (mkFetchError "maximum redirect reached at: /again" "max-redirect").
Proof. vm_compute. split; reflexivity. Qed.

(** A POST answered with 301: the next hop is a GET without body length. *)
Example post_redirected_with_301 :
  let init :=
    mkInit (Some "POST") (Some (BText "a=1")) None None None None None None None None None in
  let server (o : NodeRequestOptions) :=
    if opt_method o =s? "POST" then [redirectTo 301 "/next"] else [ok] in
  let result := fetchFrom server init in
  map (fun o => (opt_method o, opt_headers o !! "content-length")) (fst (fst result))
  = [("POST", Some ["3"]); ("GET", None)] /\
  exists response,
    snd (fst result) = Done response /\
    resp_url response = "/next" /\ resp_status response = 200.
Proof. vm_compute. split; [reflexivity | eexists; repeat split]. Qed.

(** A PUT answered with 307 is repeated as it is. *)
Example put_redirected_with_307 :
  let init :=
    mkInit (Some "PUT") (Some (BText "a=1")) None None None None None None None None None in
  let server (o : NodeRequestOptions) :=
    if href (opt_url o) =s? "/next" then [ok] else [redirectTo 307 "/next"] in
  map (fun o => (opt_method o, opt_headers o !! "content-length"))
    (fst (fst (fetchFrom server init)))
  = [("PUT", Some ["3"]); ("PUT", Some ["3"])].
Proof. vm_compute. reflexivity. Qed.

(** With [redirect: 'manual'] the redirect response is returned, its
    [Location] resolved, and no second request is made. *)
Example manual_redirect_is_returned :
  let init := mkInit None None None None (Some "manual") None None None None None None in
  let result := fetchFrom (fun _ => [redirectTo 301 "/there"]) init in
  length (fst (fst result)) = 1%nat /\
  exists response,
    snd (fst result) = Done response /\
    resp_status response = 301 /\
    Headers.get (Headers.deref (snd result) (resp_headers response)) "Location"
    = Some "/there".
Proof. vm_compute. split; [reflexivity | eexists; repeat split]. Qed.

(** With [redirect: 'error'] a redirect response rejects. *)
Example error_policy_rejects :
  let init := mkInit None None None None (Some "error") None None None None None None in
  snd (fst (fetchFrom (fun _ => [redirectTo 301 "/there"]) init))
  = Failed (mkFetchError "redirect mode is set to error: http://example.com/"
              "no-redirect").
Proof. vm_compute. reflexivity. Qed.

(** A timer that fires before the response rejects; the late response does
    not change the outcome. *)
Example timeout_before_response :
  let init := mkInit None None (Some 100) None None None None None None None None in
  snd (fst (fetchFrom (fun _ => [TimerFired; ok]) init))
  = Failed (mkFetchError "network timeout at: http://example.com/" "request-timeout").
Proof. vm_compute. reflexivity. Qed.

(** A response that arrives first is resolved, and the timer does not fire. *)
Example response_before_timeout :
  let init := mkInit None None (Some 100) None None None None None None None None in
  exists response,
    snd (fst (fetchFrom (fun _ => [ok; TimerFired]) init)) = Done response /\
    resp_decoder response = PassThrough.
Proof. vm_compute. eexists. split; reflexivity. Qed.

(** A body on a GET is refused before anything is sent. *)
Example body_on_get_sends_nothing :
  let init := mkInit None (Some (BText "a")) None None None None None None None None None in
  fst (fetchFrom (fun _ => [ok]) init) = ([], Thrown bodyTypeError).
Proof. vm_compute. reflexivity. Qed.

End Scenarios.

(** * The further properties at concrete inputs *)

(** An [ftp:] URL is refused before anything is sent. *)
Lemma only_absolute_http_urls_witness :
  fst (fetch Cases.parseFtp Examples.format false Examples.resolve
         (fun _ => [Examples.ok]) 1 (InputURL "ftp://example.com/file") emptyInit [])
  = ([], Thrown (TypeError "Only HTTP(S) protocols are supported")).
Proof.
  assert (Hnew : Request_new Cases.parseFtp Examples.format false
                   (InputURL "ftp://example.com/file") emptyInit []
                 = (Normal
                      (mkRequest (Cases.parseFtp "ftp://example.com/file") "GET" "follow"
                         0%nat None false 0 0 false false 20 0 None), [∅]))
    by reflexivity.
  destruct (only_absolute_http_urls Cases.parseFtp Examples.format false
              Examples.resolve (fun _ => [Examples.ok]) 0 _ _ _ _ _ Hnew)
    as (_ & Hscheme & _).
  apply Hscheme; [reflexivity | reflexivity | discriminate | discriminate].
Defined.

(** A caller's [X-Token], and the first of two [Host] values. *)
Lemma caller_headers_reach_transport_witness :
  let init :=
    mkInit None None None None None
      (Some (Headers.FromPairs
               [("X-Token", "abc"); ("Host", "a.example"); ("Host", "b.example")]))
      None None None None None in
  exists o calls out st2,
    fetch Examples.parse Examples.format false Examples.resolve
      (fun _ => [Examples.ok]) 1 (InputURL "http://example.com/") init []
    = ((o :: calls, out), st2) /\
    opt_headers o !! "x-token" = Some ["abc"] /\
    opt_headers o !! "host" = Some ["a.example"].
Proof.
  intros init.
  set (supplied :=
         Headers.append
           (Headers.append (Headers.append ∅ "X-Token" "abc") "Host" "a.example")
           "Host" "b.example").
  assert (Hnew : Request_new Examples.parse Examples.format false
                   (InputURL "http://example.com/") init []
                 = (Normal
                      (mkRequest (Examples.parse "http://example.com/") "GET" "follow"
                         0%nat None false 0 0 false false 20 0 None),
                    [supplied]))
    by (vm_compute; reflexivity).
  destruct (caller_headers_reach_transport Examples.parse Examples.format false
              Examples.resolve (fun _ => [Examples.ok]) 0 _ _ _ _ _ Hnew)
    as (o & calls & out & st2 & Hrun & _ & _ & Hother & Hhost); [reflexivity |].
  exists o, calls, out, st2. split; [exact Hrun |]. split.
  - rewrite Hother; [vm_compute; reflexivity |].
    unfold writtenNames. intros Hin.
    repeat (apply elem_of_cons in Hin as [Hin | Hin]; [discriminate Hin |]).
    by apply elem_of_nil in Hin.
  - rewrite Hhost. vm_compute. reflexivity.
Defined.

(** A source request with a timeout of 500 and a follow limit of 5, copied
    with [timeout: 0] and [follow: 0]. *)
Lemma options_override_the_source_request_witness :
  let source :=
    mkRequest Examples.exampleURL "GET" "follow" 0%nat None false 500 0 false false 5 0 None in
  let init := mkInit None None (Some 0) None None None None (Some 0) None None None in
  exists q st',
    Request_new Examples.parse Examples.format false (InputRequest source) init
      [∅]
    = (Normal q, st') /\
    follow q = 0 /\ timeout q = 500.
Proof.
  intros source init.
  assert (Hnew : Request_new Examples.parse Examples.format false
                   (InputRequest source) init [∅]
                 = (Normal
                      (mkRequest (Examples.parse "http://example.com/upload") "GET"
                         "follow" 1%nat None false 500 0 false false 0 0 None),
                    [∅; ∅]))
    by (vm_compute; reflexivity).
  destruct (options_override_the_source_request Examples.parse Examples.format false
              _ _ _ _ _ Hnew) as (Hf & _ & _ & Ht & _).
  do 2 eexists. split; [exact Hnew |]. split.
  - by apply Hf.
  - rewrite Ht; [reflexivity | by right].
Defined.

(** A text body with a [Content-Type] of the caller's. *)
Lemma content_type_is_defaulted_witness :
  let init :=
    mkInit (Some "POST") (Some (BText "{}")) None None None
      (Some (Headers.FromRecord [("Content-Type", "application/json")]))
      None None None None None in
  exists q st',
    Request_new Examples.parse Examples.format false (InputURL "http://example.com/")
      init []
    = (Normal q, st') /\
    Headers.deref st' (headers q) !! "content-type" = Some ["application/json"].
Proof.
  intros init.
  set (supplied := Headers.append ∅ "Content-Type" "application/json").
  assert (Hnew : Request_new Examples.parse Examples.format false
                   (InputURL "http://example.com/") init []
                 = (Normal
                      (mkRequest (Examples.parse "http://example.com/") "POST" "follow"
                         0%nat (Some (BText "{}")) false 0 0 false false 20 0 None),
                    [supplied]))
    by (vm_compute; reflexivity).
  assert (Hinit : Headers.new (headersInit (InputURL "http://example.com/") init) []
                  = (Normal 0%nat, [supplied]))
    by (vm_compute; reflexivity).
  destruct (content_type_is_defaulted Examples.parse Examples.format false
              _ _ _ _ _ Hnew) as (supplied' & Hh & Hct & _).
  rewrite Hinit in Hh. injection Hh as <-.
  do 2 eexists. split; [exact Hnew |].
  rewrite Hct. vm_compute. reflexivity.
Defined.

(** [useElectronNet: true] on Node. *)
Lemma electron_net_only_on_electron_witness :
  let init := mkInit None None None None None None (Some true) None None None None in
  Request_new Examples.parse Examples.format false (InputURL "http://example.com/")
    init []
  = (Throw (Error "Cannot use Electron/net module on Node.js!"), [∅]).
Proof.
  intros init.
  destruct (electron_net_only_on_electron Examples.parse Examples.format false
              Examples.resolve (fun _ => []) (InputURL "http://example.com/") init [])
    as (_ & Hthrows).
  destruct (Hthrows eq_refl eq_refl) as (_ & Hexact).
  exact (proj1 (Hexact 0%nat [∅] eq_refl eq_refl)).
Defined.

(** The clone of a POST whose body is a stream, as in the repository's test
    of [clone()]. *)
Lemma clone_is_an_independent_copy_witness :
  let source :=
    mkRequest Examples.exampleURL "POST" "manual" 0%nat (Some (BStream (Source 0)))
      false 0 0 false false 3 0 None in
  let st := [<["b" := ["2"]]> (∅ : HeaderMap)] in
  exists q r' st',
    Request_clone Examples.parse Examples.format false source st
    = (Normal (q, r'), st') /\
    method q = "POST" /\
    follow q = 3 /\
    body q = Some (BStream (Branch true (Source 0))) /\
    body r' = Some (BStream (Branch false (Source 0))) /\
    body q <> body source /\
    headers q <> headers source /\
    Headers.deref st' (headers q) = <["b" := ["2"]]> ∅.
Proof.
  intros source st.
  destruct (clone_is_an_independent_copy Examples.parse Examples.format false
              source st)
    as (q & r' & st' & Hrun & _ & Hm & _ & _ & _ & Hf & _ & _ & _ & _ & Hstream & _
        & Hne & _ & Hsame & _).
  - discriminate.
  - right. split; [reflexivity |]. split; discriminate.
  - discriminate.
  - cbn. lia.
  - destruct (Hstream (Source 0) eq_refl) as (Hq & Hr' & Hfresh & _).
    exists q, r', st'. split; [exact Hrun |]. split; [exact Hm |]. split; [exact Hf |].
    split; [exact Hq |]. split; [exact Hr' |]. split; [exact Hfresh |].
    split; [exact Hne | exact Hsame].
Defined.

(** A lower-case [get] with a body. *)
Lemma body_check_precedes_upper_casing_witness :
  let init :=
    mkInit (Some "get") (Some (BText "a")) None None None None None None None None None in
  exists r st',
    Request_new Examples.parse Examples.format false (InputURL "http://example.com/")
      init []
    = (Normal r, st') /\
    (method r = "GET" \/ method r = "HEAD") /\
    Request_clone Examples.parse Examples.format false r st'
    = (Throw bodyTypeError, st').
Proof.
  intros init.
  destruct (body_check_precedes_upper_casing Examples.parse Examples.format false
              Examples.resolve (fun _ => []) "http://example.com/" init [] "get"
              (BText "a"))
    as (r & st' & Hnew & Hm & _ & Hall);
    [reflexivity | reflexivity | discriminate | discriminate | by left | reflexivity |].
  exists r, st'. split; [exact Hnew |]. split; [exact Hm |].
  exact (proj1 (Hall st')).
Defined.

(** A timer that fires, and a response that arrives late. *)
Lemma promise_settles_once_witness :
  let request :=
    mkRequest Examples.exampleURL "GET" "follow" 0%nat None false 100 0 false false 20 0 None in
  ex_promise
    (fst (deliver Examples.format Examples.resolve ([TimerFired] ++ [Examples.ok])
            (start request) Examples.store))
  = Some (Rejected (mkFetchError "network timeout at: http://example.com/upload"
                      "request-timeout")).
Proof.
  intros request.
  apply (promise_settles_once Examples.format Examples.resolve). reflexivity.
Defined.

(** A 301 in manual mode. *)
Lemma location_is_resolved_in_manual_mode_witness :
  let request :=
    mkRequest Examples.exampleURL "GET" "manual" 0%nat None false 0 0 false false 20 0 None in
  let res := mkIncoming 301 "Moved Permanently" [("Location", RawString "/there")] [] in
  exists r st',
    onResponse Examples.format Examples.resolve request res Examples.store
    = (Normal r, st') /\
    Headers.deref st' (length Examples.store) !! "location" = Some ["/there"].
Proof.
  intros request res.
  destruct (location_is_resolved_in_manual_mode Examples.format Examples.resolve
              request res Examples.store) as (Hfin & Hfinal).
  destruct (Hfinal (Hfin eq_refl)) as (r & st' & Hrun & _ & _ & Hloc).
  exists r, st'. split; [exact Hrun |].
  rewrite Hloc. vm_compute. reflexivity.
Defined.

(** A deflate response, a timer, and a chunk that begins with [x]. *)
Lemma deflate_waits_for_the_first_chunk_witness :
  ex_promise
    (fst (deliver Examples.format Examples.resolve
            [ResponseReceived Cases.deflated; TimerFired]
            (start (Examples.request "GET" None)) Examples.store))
  = None.
Proof.
  refine (proj1 (deflate_waits_for_the_first_chunk Examples.format Examples.resolve
                   (Examples.request "GET" None) Cases.deflated Examples.store
                   [TimerFired] "x" [] _ _ _ _)).
  - reflexivity.
  - unfold skipsDecoding. vm_compute. intros [H | [H | [H | [H | H]]]]; discriminate.
  - left. vm_compute. reflexivity.
  - reflexivity.
Defined.

(** A PUT answered with 307. *)
Lemma unrewritten_hop_repeats_the_request_witness :
  let request := Examples.request "PUT" (Some (BText "a=1")) in
  let res := mkIncoming 307 "Temporary Redirect" [("location", RawString "/next")] [] in
  let q :=
    mkRequest Examples.exampleURL "PUT" "follow" 0%nat (Some (BText "a=1")) false
      0 0 false false 20 1 None in
  onResponse Examples.format Examples.resolve request res Examples.store
  = (Normal (Redirect "/next" q), Examples.store) /\
  exists o calls out st'',
    fetch Examples.parse Examples.format false Examples.resolve (fun _ => [Examples.ok])
      1 (InputURL "/next") (as_init q) Examples.store
    = ((o :: calls, out), st'') /\
    opt_method o = "PUT".
Proof.
  intros request res q.
  assert (Hrun : onResponse Examples.format Examples.resolve request res Examples.store
                 = (Normal (Redirect "/next" q), Examples.store))
    by (vm_compute; reflexivity).
  split; [exact Hrun |].
  destruct (unrewritten_hop_repeats_the_request Examples.parse Examples.format false
              Examples.resolve (fun _ => [Examples.ok]) request res Examples.store
              _ _ _ 0 Hrun)
    as (_ & _ & o & calls & out & st'' & Hnext & _ & Hm & _).
  - reflexivity.
  - discriminate.
  - reflexivity.
  - right. split; discriminate.
  - discriminate.
  - reflexivity.
  - do 4 eexists. split; [exact Hnext | exact Hm].
Defined.

(** One redirect, then a response. *)
Lemma response_url_is_the_last_hop_witness :
  let result :=
    fetch Examples.parse Examples.format false Examples.resolve Cases.redirectsOnce
      10 (InputURL "http://example.com/") emptyInit [] in
  exists r o,
    snd (fst result) = Done r /\
    last (fst (fst result)) = Some o /\
    resp_url r = Examples.format (opt_url o).
Proof.
  intros result.
  assert (Hout : snd (fst result)
                 = Done (mkResponse "/next" 200 "OK" 4%nat 0 0 false ["body"] PassThrough))
    by (vm_compute; reflexivity).
  unfold result in *.
  destruct (fetch Examples.parse Examples.format false Examples.resolve
              Cases.redirectsOnce 10 (InputURL "http://example.com/") emptyInit [])
    as [[calls out] st'] eqn:Hrun.
  cbn [fst snd] in *. subst out.
  destruct (response_url_is_the_last_hop Examples.parse Examples.format false
              Examples.resolve Cases.redirectsOnce _ _ _ _ _ _ _ Hrun)
    as (o & Hlast & Hurl).
  eexists _, o. split; [reflexivity |]. split; [exact Hlast | exact Hurl].
Defined.

(** Electron's [net::ERR_CONNECTION_REFUSED]. *)
Lemma net_error_code_is_extracted_witness :
  fo_code (FetchError_new
             ("request to http://localhost:50/ failed, reason: " ++
              "net::" ++ "ERR_CONNECTION_REFUSED")
             "system" None)
  = Some "ECONNREFUSED".
Proof.
  destruct (net_error_code_is_extracted
              "request to http://localhost:50/ failed, reason: "
              "ERR_CONNECTION_REFUSED" "system" None)
    as (_ & _ & Hcode & _); [by vm_compute | by vm_compute |].
  rewrite Hcode. by vm_compute.
Defined.

(** A signal that has fired before the call. *)
Lemma aborted_signal_sends_nothing_witness :
  Abortable.sent (Abortable.begin Cases.aborted (Examples.request "GET" None)) = false /\
  Abortable.promise (Abortable.begin Cases.aborted (Examples.request "GET" None))
  = Some (Abortable.RejectedWith Abortable.abortError).
Proof.
  destruct (aborted_signal_sends_nothing Examples.format Examples.resolve Cases.aborted
              (Examples.request "GET" None) [] Examples.store eq_refl)
    as (Hsent & Hp & _).
  by split.
Defined.

(** An abort while the request is under way, and a response after it. *)
Lemma abort_rejects_and_cancels_witness :
  let s :=
    fst (Abortable.deliver Examples.format Examples.resolve Cases.signalled
           [Abortable.Abort; Abortable.ResponseReceived (mkIncoming 200 "OK" [] [])]
           (Abortable.begin Cases.signalled (Examples.request "GET" None))
           Examples.store) in
  Abortable.promise s = Some (Abortable.RejectedWith Abortable.abortError) /\
  Abortable.cancelled s = true.
Proof.
  intros s.
  destruct (abort_rejects_and_cancels Examples.format Examples.resolve Cases.signalled
              (Abortable.begin Cases.signalled (Examples.request "GET" None))
              [Abortable.ResponseReceived (mkIncoming 200 "OK" [] [])] Examples.store)
    as (Hp & Hc & _); [by eexists | reflexivity | reflexivity |].
  split; [exact Hp | exact Hc].
Defined.

(** An abort after the headers of a gzip response: the body is errored and
    the transport request is left alone. *)
Lemma abort_after_headers_errors_the_body_witness :
  let res := mkIncoming 200 "OK" [("content-encoding", RawString "gzip")] [] in
  exists s1 st1 s2,
    Abortable.handle Examples.format Examples.resolve Cases.signalled
      (Abortable.ResponseReceived res)
      (Abortable.begin Cases.signalled (Examples.request "GET" None)) Examples.store
    = (Normal s1, st1) /\
    Abortable.decoding s1 = true /\
    Abortable.handle Examples.format Examples.resolve Cases.signalled
      Abortable.Abort s1 st1
    = (Normal s2, st1) /\
    Abortable.promise s2 = Abortable.promise s1 /\
    Abortable.destroyed s2 = true /\
    Abortable.cancelled s2 = false.
Proof.
  intros res.
  destruct (abort_after_headers_errors_the_body Examples.format Examples.resolve
              Cases.signalled (Examples.request "GET" None) res Examples.store
              eq_refl eq_refl)
    as (s1 & st1 & Hfirst & _ & _ & _ & _ & Hdec & (s2 & Habort & Hp & Hd & Hc & _) & _).
  assert (Hg : gunzips (Examples.request "GET" None) res = true)
    by (vm_compute; reflexivity).
  rewrite Hg in Hdec, Hc.
  exists s1, st1, s2. by repeat split.
Defined.

(** A proxy asks for credentials and there are none. *)
Lemma login_needs_credentials_witness :
  exists s',
    Abortable.handle Examples.format Examples.resolve Cases.signalled
      (Abortable.Login "proxy.example")
      (Abortable.begin Cases.signalled Cases.onNet) Examples.store
    = (Normal s', Examples.store) /\
    Abortable.cancelled s' = true /\
    Abortable.promise s'
    = Some (Abortable.RejectedWith (Abortable.proxyError "proxy.example")).
Proof.
  destruct (login_needs_credentials Examples.format Examples.resolve Cases.signalled
              "proxy.example" (Abortable.begin Cases.signalled Cases.onNet)
              Examples.store eq_refl)
    as (s' & Hrun & _ & _ & Hno).
  destruct (Hno eq_refl (or_introl eq_refl)) as (Hp & Hc & _).
  exists s'. split; [exact Hrun |]. split; [exact Hc | exact Hp].
Defined.

(** An agent with Electron's transport, and a response. *)
Lemma agent_is_refused_on_electron_witness :
  Abortable.promise
    (fst (Abortable.deliver Examples.format Examples.resolve Cases.withAgent
            [Abortable.ResponseReceived (mkIncoming 200 "OK" [] [])]
            (Abortable.begin Cases.withAgent Cases.onNet) Examples.store))
  = Some (Abortable.RejectedError Abortable.agentMessage).
Proof.
  destruct (agent_is_refused_on_electron Examples.format Examples.resolve
              Cases.withAgent Cases.onNet
              [Abortable.ResponseReceived (mkIncoming 200 "OK" [] [])]
              Examples.store eq_refl)
    as (_ & Hrejected & _).
  exact (Hrejected eq_refl eq_refl).
Defined.

(** A bundle of two lines without a default export. *)
Lemma bundle_without_default_export_is_unchanged_witness :
  let source := "var a = 1;" ++ Lines.LF ++ "exports.a = a;" in
  TweakDefault.transformBundle source = source.
Proof.
  intros source. apply bundle_without_default_export_is_unchanged.
  vm_compute. repeat constructor.
Defined.

(** A bundle with two default exports: the first one is rewritten. *)
Lemma first_default_export_is_rewritten_witness :
  TweakDefault.transformBundle
    (TweakDefault.join
       ["'use strict';"; "exports['default'] = fetch;"; "exports['default'] = other;"])
  = TweakDefault.join
      ["'use strict';"; "module.exports = exports = fetch;";
       "exports['default'] = other;"].
Proof.
  apply (first_default_export_is_rewritten ["'use strict';"]
           ["exports['default'] = other;"] "fetch").
  - repeat constructor.
  - repeat constructor.
  - reflexivity.
Defined.

(** A redirect of a request with a timeout of 100. *)
Lemma hop_inherits_the_options_witness :
  let request :=
    mkRequest Examples.exampleURL "GET" "follow" 0%nat None false 100 0 false false 20 0 None in
  let res := mkIncoming 302 "Found" [("location", RawString "/next")] [] in
  let q :=
    mkRequest Examples.exampleURL "GET" "follow" 0%nat None false 100 0 false false 20 1 None in
  exists r st'',
    Request_new Examples.parse Examples.format false (InputURL "/next") (as_init q)
      [∅]
    = (Normal r, st'') /\
    timeout r = 100 /\ counter r = 1 /\ ex_timer (start r) = true.
Proof.
  intros request res q.
  assert (Hrun : onResponse Examples.format Examples.resolve request res [∅]
                 = (Normal (Redirect "/next" q), [∅]))
    by (vm_compute; reflexivity).
  assert (Hnew : Request_new Examples.parse Examples.format false (InputURL "/next")
                   (as_init q) [∅]
                 = (Normal
                      (mkRequest (Examples.parse "/next") "GET" "follow" 1%nat None false
                         100 0 false false 20 1 None),
                    [∅; ∅]))
    by (vm_compute; reflexivity).
  destruct (hop_inherits_the_options Examples.parse Examples.format false
              Examples.resolve _ _ _ _ _ _ _ _ Hrun Hnew)
    as (_ & Ht & Htimer & _ & _ & Hc & _).
  do 2 eexists. split; [exact Hnew |]. split; [exact Ht |]. split; [exact Hc |].
  exact Htimer.
Defined.
